(** * Deployment reconciliation of the dev-assistant MCP server

    A shallow embedding of [setupProjectRules] (src/index.ts) and of the
    history store it talks to (src/database.ts), with the properties of the
    reconciliation engine stated and proved over it.

    Layout:
    - [JsString]  : the JavaScript string operations the code relies on;
    - [PosixPath] : Node's [path.join] on a POSIX host;
    - [Json], [Sqlite] : [JSON.stringify] of the tag arrays and the [LIKE]
                    operator they are searched with;
    - [Db]        : the three SQLite tables and the store's methods;
    - [Engine]    : the file system, the effect monad and [setupProjectRules];
    - [Tools]     : the tool dispatcher of src/index.ts;
    - [Watcher]   : the change list of src/file-watcher.ts;
    - [Git]       : the commit summary of src/git-analyzer.ts;
    - [Observe], [Views] : the views of the state in which the properties
                    are phrased; [Fixtures], [Samples] : small worlds to run
                    the code on;
    - [JsStringFacts] ... [StoreFacts] : lemmas about the above;
    - [Resolution], [Classification], [Recording], [History],
      [Idempotence] : the properties C1 to C10 of the specification;
    - [SqliteFacts], [FactStore], [Deployments], [Dispatch], [Changes],
      [Commits] : further properties (X1 to X30) of the fact store, the
      reconciliation, the dispatcher, the watcher and the commit summary. *)

From stdpp Require Import base strings list gmap sets pretty sorting.
From Stdlib Require Import Ascii Sorting.Permutation.

Local Open Scope nat_scope.

(* ------------------------------------------------------------------ *)
(** ** JavaScript strings *)

Module JsString.

(** [!!s] in JavaScript: a string is truthy unless it is empty. *)
Definition truthy (s : string) : bool :=
  match s with
  | EmptyString => false
  | String _ _ => true
  end.

(** [o && ...] / [!o] on a value that may be [undefined]. *)
Definition truthy_opt (o : option string) : bool :=
  match o with
  | Some s => truthy s
  | None => false
  end.

(** [o || "Unknown"]. *)
Definition or_default (o : option string) (d : string) : string :=
  match o with
  | Some s => if truthy s then s else d
  | None => d
  end.

(** [s.endsWith(suffix)]. *)
Definition endsWith (s suffix : string) : bool :=
  let n := String.length s in
  let k := String.length suffix in
  (k <=? n) && String.eqb (String.substring (n - k) k s) suffix.

(** [s.charCodeAt(s.length - 1)], absent on the empty string. *)
Fixpoint last_char (s : string) : option ascii :=
  match s with
  | EmptyString => None
  | String c EmptyString => Some c
  | String _ s' => last_char s'
  end.

(** Does [tok] occur somewhere in [s]? *)
Fixpoint occurs (tok s : string) : bool :=
  match s with
  | EmptyString => String.prefix tok EmptyString
  | String _ s' => String.prefix tok s || occurs tok s'
  end.

(** [s.replace(/tok/g, rep)] for a literal, non-empty token: scan left to
    right, and after a match resume right behind it ([skip] counts the
    characters of the match still to be dropped). *)
Fixpoint replace_go (tok rep : string) (skip : nat) (s : string) : string :=
  match s with
  | EmptyString => EmptyString
  | String c s' =>
      match skip with
      | S k => replace_go tok rep k s'
      | O =>
          if String.prefix tok s
          then rep +:+ replace_go tok rep (String.length tok - 1) s'
          else String c (replace_go tok rep 0 s')
      end
  end.

Definition replaceAll (tok rep s : string) : string := replace_go tok rep 0 s.

(** [s.replace(/[:.]/g, "-")]. *)
Fixpoint dash_colons_dots (s : string) : string :=
  match s with
  | EmptyString => EmptyString
  | String c s' =>
      String (if Ascii.eqb c ":" || Ascii.eqb c "." then "-"%char else c)
             (dash_colons_dots s')
  end.

(** [l.join(sep)]. *)
Fixpoint join (sep : string) (l : list string) : string :=
  match l with
  | [] => EmptyString
  | [x] => x
  | x :: rest => x +:+ sep +:+ join sep rest
  end.



(** [set.add(x)] on a [Set] of strings, which keeps its elements in the
    order of their insertion. *)
Definition set_add (set : list string) (x : string) : list string :=
  if bool_decide (x ∈ set) then set else set ++ [x].

(** [s.toLowerCase()] on ASCII letters. *)
Fixpoint toLowerCase (s : string) : string :=
  match s with
  | EmptyString => EmptyString
  | String c s' =>
      let n := nat_of_ascii c in
      String (if (65 <=? n) && (n <=? 90) then ascii_of_nat (n + 32) else c)
             (toLowerCase s')
  end.

(** [s.split("/")]: always at least one piece. *)
Fixpoint split_slash (s : string) : list string :=
  match s with
  | EmptyString => [EmptyString]
  | String c s' =>
      if Ascii.eqb c "/" then EmptyString :: split_slash s'
      else match split_slash s' with
           | h :: t => String c h :: t
           | [] => [String c EmptyString]
           end
  end.

End JsString.

(* ------------------------------------------------------------------ *)
(** ** Node's [path.join] on a POSIX host

    [path.join] and [path.normalize] belong to the Node runtime, not to the
    repository; they are modelled here on path segments, following
    [normalizeString] of Node's [lib/path.js]: empty and ["."] segments are
    dropped, [".."] removes the segment before it (or is kept when the path
    is relative and there is nothing left to remove). *)

Module PosixPath.
Import JsString.

(** One segment of [normalizeString]; [res] is the stack of the segments
    kept so far, innermost first. *)
Definition norm_step (allowAboveRoot : bool) (res : list string) (seg : string)
  : list string :=
  if String.eqb seg "" || String.eqb seg "." then res
  else if String.eqb seg ".." then
    match res with
    | [] => if allowAboveRoot then [".."] else []
    | top :: rest =>
        if String.eqb top ".."
        then (if allowAboveRoot then ".." :: res else res)
        else rest
    end
  else seg :: res.

Definition normalizeString (path : string) (allowAboveRoot : bool) : string :=
  join "/" (rev (fold_left (norm_step allowAboveRoot) (split_slash path) [])).

(** [path.charCodeAt(0) === CHAR_FORWARD_SLASH] *)
Definition isAbsolute (path : string) : bool :=
  match path with
  | String c _ => Ascii.eqb c "/"
  | EmptyString => false
  end.

Definition normalize (path : string) : string :=
  if negb (truthy path) then "."
  else
    let trailingSeparator :=
      bool_decide (last_char path = Some "/"%char) in
    let p := normalizeString path (negb (isAbsolute path)) in
    if negb (truthy p) then
      (if isAbsolute path then "/" else if trailingSeparator then "./" else ".")
    else
      let p' := if trailingSeparator then p +:+ "/" else p in
      if isAbsolute path then "/" +:+ p' else p'.


(** [path.join(...args)]: the non-empty arguments, separated by ["/"], then
    normalized. *)
Definition join_path (args : list string) : string :=
  match filter (fun a => truthy a = true) args with
  | [] => "."
  | parts => normalize (join "/" parts)
  end.

(** [path.extname]: the last segment that is not empty, from its last dot
    on; nothing when that segment has no dot, when its last dot is its
    first character, or when it is [".."]. *)
Fixpoint last_dot (s : string) : option nat :=
  match s with
  | EmptyString => None
  | String c s' =>
      match last_dot s' with
      | Some i => Some (S i)
      | None => if Ascii.eqb c "." then Some 0 else None
      end
  end.

Fixpoint drop_chars (n : nat) (s : string) : string :=
  match n, s with
  | S k, String _ s' => drop_chars k s'
  | _, _ => s
  end.

Definition last_segment (path : string) : string :=
  default "" (last (filter (fun seg => truthy seg = true) (split_slash path))).

Definition extname (path : string) : string :=
  let part := last_segment path in
  match last_dot part with
  | None => ""
  | Some 0 => ""
  | Some i => if String.eqb part ".." then "" else drop_chars i part
  end.

End PosixPath.

(* ------------------------------------------------------------------ *)
(** ** [JSON.stringify] on an array of strings

    The [tags] column of a fact holds [JSON.stringify(tags)].  Strings are
    sequences of bytes here; of the characters [QuoteJSONString] escapes
    these are the double quote, the backslash and the control characters. *)

Module Json.
Import JsString.

Definition quote : ascii := "034".

Definition hex_digit (n : nat) : ascii :=
  default "0"%char (String.get n "0123456789abcdef").

Definition escape (c : ascii) : string :=
  let n := nat_of_ascii c in
  if n =? 34 then String "\" (String quote EmptyString)
  else if n =? 92 then "\\"
  else if n =? 8 then "\b"
  else if n =? 9 then "\t"
  else if n =? 10 then "\n"
  else if n =? 12 then "\f"
  else if n =? 13 then "\r"
  else if n <? 32
  then "\u00" +:+ String (hex_digit (n / 16))
                    (String (hex_digit (n mod 16)) EmptyString)
  else String c EmptyString.

Fixpoint escape_all (s : string) : string :=
  match s with
  | EmptyString => EmptyString
  | String c s' => escape c +:+ escape_all s'
  end.

Definition quoteJSONString (s : string) : string :=
  String quote (escape_all s +:+ String quote EmptyString).

Definition stringify (l : list string) : string :=
  "[" +:+ join "," (map quoteJSONString l) +:+ "]".

End Json.

(* ------------------------------------------------------------------ *)
(** ** SQLite's [LIKE]

    [%] stands for any run of characters, [_] for any one character, every
    other character for itself, upper and lower case ASCII letters taken
    as equal; there is no escape character.  Text is compared byte by byte,
    which is what SQLite does on ASCII text. *)

Module Sqlite.

Definition lower (c : ascii) : ascii :=
  let n := nat_of_ascii c in
  if (65 <=? n) && (n <=? 90) then ascii_of_nat (n + 32) else c.

Fixpoint like (pattern text : string) : bool :=
  match pattern with
  | EmptyString =>
      match text with
      | EmptyString => true
      | String _ _ => false
      end
  | String p pattern' =>
      if Ascii.eqb p "%" then
        (fix any (t : string) : bool :=
           like pattern' t
           || match t with
              | EmptyString => false
              | String _ t' => any t'
              end) text
      else
        match text with
        | EmptyString => false
        | String c text' =>
            (Ascii.eqb p "_" || Ascii.eqb (lower p) (lower c))
            && like pattern' text'
        end
  end.

(** [column LIKE ?] on a column that may be NULL: NULL is not true. *)
Definition like_opt (pattern : string) (text : option string) : bool :=
  match text with
  | Some t => like pattern t
  | None => false
  end.

(** [LIMIT ?]: a negative limit is no limit. *)
Definition sql_limit {A : Type} (limit : Z) (rows : list A) : list A :=
  if (limit <? 0)%Z then rows else take (Z.to_nat limit) rows.

End Sqlite.

(* ------------------------------------------------------------------ *)
(** ** The history and fact store (src/database.ts) *)

Module Db.
Import JsString.

Record StoredFact := {
  fact_id : N;
  category : string;
  fact : string;
  context : option string;
  tags : list string;          (* the JSON array kept in the TEXT column *)
  createdAt : string;
  updatedAt : string;
}.

Record RuleDeployment := {
  id : N;
  templateVersion : string;
  deployedAt : string;         (* DATETIME DEFAULT CURRENT_TIMESTAMP *)
  deployedBy : option string;
  totalFiles : N;
  backupPath : option string;
}.

Record RuleFile := {
  file_id : N;
  deploymentId : N;
  filename : string;
  contentHash : string;
  file_deployedAt : string;
}.

Global Instance RuleDeployment_eq_dec : EqDecision RuleDeployment.
Proof. solve_decision. Defined.

Global Instance RuleFile_eq_dec : EqDecision RuleFile.
Proof. solve_decision. Defined.

(** The three tables; rows are kept in insertion order. *)
Record Database := {
  facts : list StoredFact;
  rule_deployments : list RuleDeployment;
  rule_files : list RuleFile;
}.

Definition empty : Database :=
  {| facts := []; rule_deployments := []; rule_files := [] |}.

(** [INTEGER PRIMARY KEY AUTOINCREMENT]: one more than the largest id in
    use.  No method of the store deletes from the two history tables, and
    the reconciliation never deletes facts, so the largest id ever handed
    out is the largest id present. *)
Definition next_id (ids : list N) : N := N.succ (foldr N.max 0%N ids).

(** What SQLite does with [ORDER BY key] is fixed by the query only up to
    the order of rows with equal keys; the engine is therefore a parameter,
    and [order_by_ok] is what every conforming engine satisfies. *)
Definition OrderBy : Type :=
  forall A : Type, (A -> string) -> bool -> list A -> list A.

Definition in_order {A : Type} (key : A -> string) (desc : bool) (l : list A)
  : Prop :=
  forall (i j : nat) (x y : A),
    i < j -> l !! i = Some x -> l !! j = Some y ->
    if desc then String.le (key y) (key x) else String.le (key x) (key y).

Definition order_by_ok (order_by : OrderBy) : Prop :=
  forall (A : Type) (key : A -> string) (desc : bool) (rows : list A),
    Permutation rows (order_by A key desc rows) /\
    in_order key desc (order_by A key desc rows).

Section Store.
Variable order_by : OrderBy.

(** [storeFact]: one INSERT, the new row id is returned. *)
Definition storeFact (now : string) (cat fct : string)
    (ctx : option string) (tgs : list string) (db : Database)
  : N * Database :=
  let i := next_id (map fact_id (facts db)) in
  (i, {| facts := facts db ++
                    [{| fact_id := i; category := cat; fact := fct;
                        context := ctx; tags := tgs;
                        createdAt := now; updatedAt := now |}];
         rule_deployments := rule_deployments db;
         rule_files := rule_files db |}).

(** [storeRuleDeployment] *)
Definition storeRuleDeployment (now : string) (version : string)
    (total : N) (by_ : option string) (backup : option string)
    (db : Database) : N * Database :=
  let i := next_id (map id (rule_deployments db)) in
  (i, {| facts := facts db;
         rule_deployments := rule_deployments db ++
                    [{| id := i; templateVersion := version;
                        deployedAt := now; deployedBy := by_;
                        totalFiles := total; backupPath := backup |}];
         rule_files := rule_files db |}).

(** [storeRuleFile]: the deployment id is stored as given, the schema has
    no foreign key. *)
Definition storeRuleFile (now : string) (dep : N) (name hash : string)
    (db : Database) : N * Database :=
  let i := next_id (map file_id (rule_files db)) in
  (i, {| facts := facts db;
         rule_deployments := rule_deployments db;
         rule_files := rule_files db ++
                    [{| file_id := i; deploymentId := dep; filename := name;
                        contentHash := hash; file_deployedAt := now |}] |}).

(** [SELECT * FROM rule_deployments ORDER BY deployed_at DESC LIMIT 1] *)
Definition getLatestRuleDeployment (db : Database) : option RuleDeployment :=
  head (order_by _ deployedAt true (rule_deployments db)).

(** [SELECT * FROM rule_files WHERE deployment_id = ? ORDER BY filename] *)
Definition getRuleFiles (dep : N) (db : Database) : list RuleFile :=
  order_by _ filename false
    (filter (fun rf => deploymentId rf = dep) (rule_files db)).

Definition getLatestRuleFiles (db : Database) : list RuleFile :=
  match getLatestRuleDeployment db with
  | None => []
  | Some latest => getRuleFiles (id latest) db
  end.

(** [SELECT * FROM rule_deployments ORDER BY deployed_at DESC LIMIT ?] *)
Definition getRuleDeploymentHistory (limit : Z) (db : Database)
  : list RuleDeployment :=
  Sqlite.sql_limit limit (order_by _ deployedAt true (rule_deployments db)).

(** *** The facts (database.ts 241-389) *)

(** The parameter [`%${search}%`]. *)
Definition search_pattern (search : string) : string :=
  "%" +:+ search +:+ "%".

(** The parameter [`%"${tag}"%`]. *)
Definition tag_pattern (tag : string) : string :=
  "%" +:+ String Json.quote (tag +:+ String Json.quote "%").

(** The WHERE clause [getFacts] builds: a condition is added for a
    category that is given and not empty, for a search string likewise,
    and for a tag list that is given and not empty. *)
Definition selected (cat : option string) (tgs : option (list string))
    (search : option string) (row : StoredFact) : bool :=
  (if truthy_opt cat then bool_decide (Some (category row) = cat)
   else true)
  && match search with
     | Some s =>
         if truthy s
         then Sqlite.like (search_pattern s) (fact row)
              || Sqlite.like_opt (search_pattern s) (context row)
         else true
     | None => true
     end
  && match tgs with
     | Some ((_ :: _) as l) =>
         existsb (fun tag => Sqlite.like (tag_pattern tag)
                               (Json.stringify (tags row))) l
     | _ => true
     end.

(** [SELECT * FROM facts WHERE ... ORDER BY created_at DESC LIMIT ?] *)
Definition getFacts (cat : option string) (tgs : option (list string))
    (search : option string) (limit : Z) (db : Database)
  : list StoredFact :=
  Sqlite.sql_limit limit
    (order_by _ createdAt true
       (filter (fun row => selected cat tgs search row = true)
               (facts db))).

(** [Partial<Pick<StoredFact, "category" | "fact" | "context" | "tags">>] *)
Record FactUpdates := {
  new_category : option string;
  new_fact : option string;
  new_context : option string;
  new_tags : option (list string);
}.

Definition no_updates (updates : FactUpdates) : bool :=
  match new_category updates, new_fact updates,
        new_context updates, new_tags updates with
  | None, None, None, None => true
  | _, _, _, _ => false
  end.

(** [UPDATE facts SET ..., updated_at = CURRENT_TIMESTAMP WHERE id = ?] *)
Definition updateFact (now : string) (i : N) (updates : FactUpdates)
    (db : Database) : Database :=
  if no_updates updates then db
  else
    {| facts :=
         map (fun row =>
                if bool_decide (fact_id row = i)
                then {| fact_id := fact_id row;
                        category :=
                          default (category row) (new_category updates);
                        fact := default (fact row) (new_fact updates);
                        context :=
                          match new_context updates with
                          | Some c => Some c
                          | None => context row
                          end;
                        tags := default (tags row) (new_tags updates);
                        createdAt := createdAt row;
                        updatedAt := now |}
                else row)
             (facts db);
       rule_deployments := rule_deployments db;
       rule_files := rule_files db |}.

(** [DELETE FROM facts WHERE id = ?] *)
Definition deleteFact (i : N) (db : Database) : Database :=
  {| facts := filter (fun row => fact_id row <> i) (facts db);
     rule_deployments := rule_deployments db;
     rule_files := rule_files db |}.

(** [SELECT DISTINCT category FROM facts ORDER BY category] *)
Definition getCategories (db : Database) : list string :=
  order_by _ (fun c => c) false (remove_dups (map category (facts db))).


End Store.

(** A conforming engine, used to run examples: insertion sort that keeps
    rows with equal keys in table order. *)
Fixpoint insert_by {A : Type} (key : A -> string) (desc : bool) (x : A)
    (l : list A) : list A :=
  match l with
  | [] => [x]
  | y :: l' =>
      if (if desc then String.leb (key y) (key x)
          else String.leb (key x) (key y))
      then x :: l
      else y :: insert_by key desc x l'
  end.

Definition stable_order_by : OrderBy :=
  fun A key desc rows =>
    fold_right (fun x acc => insert_by key desc x acc) [] rows.

(** Another one: of rows with equal keys the one inserted last comes
    first, as when an index on the key is walked backwards. *)
Definition newest_first_order_by : OrderBy :=
  fun A key desc rows => stable_order_by A key desc (rev rows).

End Db.

(* ------------------------------------------------------------------ *)
(** ** The reconciliation engine (src/index.ts, [setupProjectRules]) *)

Module Engine.
Import JsString PosixPath.

(** [CursorRule] of src/rules-template.ts. *)
Record CursorRule := {
  rule_filename : string;
  rule_content : string;
}.

Definition TEMPLATE_VERSION : string := "2.0.0".

(** The file names of [CURSOR_RULES_TEMPLATES], in order. *)
Definition shipped_filenames : list string :=
  [ "code-style.mdc"; "architecture.mdc"; "testing.mdc"; "security.mdc";
    "performance.mdc"; "documentation.mdc"; "git-workflow.mdc";
    "accessibility.mdc" ].

(** What the engine takes from outside the two modelled files: the SHA-256
    digest of [generateHash] (Node's [crypto]), the SQLite engine, and the
    template bodies (several hundred lines of prose, of which only the
    names and the absence of the timestamp token matter here). *)
Record Platform := {
  generateHash : string -> string;
  order_by : Db.OrderBy;
  CURSOR_RULES_TEMPLATES : list CursorRule;
}.

(** The part of the environment a call reads but does not change. *)
Record Env := {
  cwd : string;                (* process.cwd() *)
  now : string;                (* new Date().toISOString() *)
  current_timestamp : string;  (* SQLite's CURRENT_TIMESTAMP *)
}.

(** The file system as far as the engine sees it: for each existing
    directory its regular files, and the places where the operating
    system refuses access. *)
Record FileSystem := {
  dirs : gmap string (gmap string string);
  no_read : gset (string * string);
  no_write : gset (string * string);
  no_mkdir : gset string;
}.

(** Every effect that succeeded, oldest first. *)
Inductive Event :=
| EvMkdir (dir : string)
| EvWriteFile (dir name content : string)
| EvUnlink (dir name : string)
| EvCopyFile (dir name todir toname : string)
| EvAccess (dir name : string)
| EvStoreRuleDeployment (dep : N) (total : N)
| EvStoreRuleFile (dep : N) (name hash : string)
| EvStoreFact (fid : N) (cat : string).

Record World := {
  fs : FileSystem;
  db : Db.Database;
  trace : list Event;
}.

Definition with_fs (w : World) (f : FileSystem) (e : Event) : World :=
  {| fs := f; db := db w; trace := trace w ++ [e] |}.

Definition with_db (w : World) (d : Db.Database) (e : Event) : World :=
  {| fs := fs w; db := d; trace := trace w ++ [e] |}.

Definition set_dirs (f : FileSystem) (d : gmap string (gmap string string))
  : FileSystem :=
  {| dirs := d; no_read := no_read f; no_write := no_write f;
     no_mkdir := no_mkdir f |}.

(** *** Promises that may reject: state and exceptions

    A thrown error does not undo what was done before it. *)
Inductive Result (A : Type) :=
| Ok (a : A)
| Throw (msg : string).
Arguments Ok {A} a.
Arguments Throw {A} msg.

Definition M (A : Type) : Type := World -> World * Result A.

Definition ret {A : Type} (a : A) : M A := fun w => (w, Ok a).

Definition bind {A B : Type} (m : M A) (k : A -> M B) : M B :=
  fun w =>
    match m w with
    | (w', Ok a) => k a w'
    | (w', Throw e) => (w', Throw e)
    end.

(** [try { m } catch (err) { throw new Error(prefix + err) }] *)
Definition rethrow {A : Type} (wrap : string -> string) (m : M A) : M A :=
  fun w =>
    match m w with
    | (w', Ok a) => (w', Ok a)
    | (w', Throw e) => (w', Throw (wrap e))
    end.

Declare Scope engine_scope.
Delimit Scope engine_scope with engine.
Notation "x <- m ;; k" := (bind m (fun x => k))
  (at level 100, m at next level, right associativity) : engine_scope.
Notation "m ;;; k" := (bind m (fun _ => k))
  (at level 100, right associativity) : engine_scope.
Local Open Scope engine_scope.

(** [for (const x of l) { await f(x) }] *)
Fixpoint for_each {A : Type} (f : A -> M unit) (l : list A) : M unit :=
  match l with
  | [] => ret tt
  | x :: rest => f x ;;; for_each f rest
  end.

(** *** File-system calls ([fs/promises]) *)

Definition lookup_file (f : FileSystem) (dir name : string) : option string :=
  match dirs f !! dir with
  | Some entries => entries !! name
  | None => None
  end.

(** [fs.mkdir(dir, { recursive: true })] *)
Definition mkdir (dir : string) : M unit :=
  fun w =>
    if bool_decide (dir ∈ no_mkdir (fs w)) then (w, Throw "EACCES: mkdir")
    else
      match dirs (fs w) !! dir with
      | Some _ => (with_fs w (fs w) (EvMkdir dir), Ok tt)
      | None =>
          (with_fs w (set_dirs (fs w) (<[dir := ∅]> (dirs (fs w))))
                   (EvMkdir dir), Ok tt)
      end.

(** [fs.writeFile(path.join(dir, name), content)] *)
Definition writeFile (dir name content : string) : M unit :=
  fun w =>
    if bool_decide ((dir, name) ∈ no_write (fs w))
    then (w, Throw "EACCES: open")
    else
      match dirs (fs w) !! dir with
      | None => (w, Throw "ENOENT: open")
      | Some entries =>
          (with_fs w (set_dirs (fs w)
                        (<[dir := <[name := content]> entries]> (dirs (fs w))))
                   (EvWriteFile dir name content), Ok tt)
      end.

(** [fs.unlink(path.join(dir, name))] *)
Definition unlink (dir name : string) : M unit :=
  fun w =>
    match dirs (fs w) !! dir with
    | None => (w, Throw "ENOENT: unlink")
    | Some entries =>
        match entries !! name with
        | None => (w, Throw "ENOENT: unlink")
        | Some _ =>
            (with_fs w (set_dirs (fs w)
                          (<[dir := delete name entries]> (dirs (fs w))))
                     (EvUnlink dir name), Ok tt)
        end
    end.

(** [fs.readdir(dir)] *)
Definition readdir (dir : string) : M (list string) :=
  fun w =>
    match dirs (fs w) !! dir with
    | None => (w, Throw "ENOENT: scandir")
    | Some entries => (w, Ok (map fst (map_to_list entries)))
    end.

(** [fs.readFile(path.join(dir, name), "utf-8")] *)
Definition readFile (dir name : string) : M string :=
  fun w =>
    if bool_decide ((dir, name) ∈ no_read (fs w))
    then (w, Throw "EACCES: open")
    else
      match lookup_file (fs w) dir name with
      | None => (w, Throw "ENOENT: open")
      | Some c => (w, Ok c)
      end.

(** [fs.copyFile(path.join(dir, name), path.join(todir, toname))] *)
Definition copyFile (dir name todir toname : string) : M unit :=
  fun w =>
    if bool_decide ((dir, name) ∈ no_read (fs w))
    then (w, Throw "EACCES: copyfile")
    else
      match lookup_file (fs w) dir name with
      | None => (w, Throw "ENOENT: copyfile")
      | Some c =>
          if bool_decide ((todir, toname) ∈ no_write (fs w))
          then (w, Throw "EACCES: copyfile")
          else
            match dirs (fs w) !! todir with
            | None => (w, Throw "ENOENT: copyfile")
            | Some entries =>
                (with_fs w (set_dirs (fs w)
                              (<[todir := <[toname := c]> entries]>
                                 (dirs (fs w))))
                         (EvCopyFile dir name todir toname), Ok tt)
            end
      end.

(** [fs.access(path.join(dir, name))] *)
Definition access (dir name : string) : M unit :=
  fun w =>
    match lookup_file (fs w) dir name with
    | None => (w, Throw "ENOENT: access")
    | Some _ => (with_fs w (fs w) (EvAccess dir name), Ok tt)
    end.

(** *** Store calls, as effects on the world *)

Section Setup.
Variable P : Platform.
Variable env : Env.

Definition dbStoreRuleDeployment (version : string) (total : N)
    (by_ backup : option string) : M N :=
  fun w =>
    let r := Db.storeRuleDeployment (current_timestamp env) version total
               by_ backup (db w) in
    (with_db w (snd r) (EvStoreRuleDeployment (fst r) total), Ok (fst r)).

Definition dbStoreRuleFile (dep : N) (name hash : string) : M N :=
  fun w =>
    let r := Db.storeRuleFile (current_timestamp env) dep name hash (db w) in
    (with_db w (snd r) (EvStoreRuleFile dep name hash), Ok (fst r)).

Definition dbStoreFact (cat fct : string) (ctx : option string)
    (tgs : list string) : M N :=
  fun w =>
    let r := Db.storeFact (current_timestamp env) cat fct ctx tgs (db w) in
    (with_db w (snd r) (EvStoreFact (fst r) cat), Ok (fst r)).

Definition dbGetLatestRuleDeployment : M (option Db.RuleDeployment) :=
  fun w => (w, Ok (Db.getLatestRuleDeployment (order_by P) (db w))).

Definition dbGetLatestRuleFiles : M (list Db.RuleFile) :=
  fun w => (w, Ok (Db.getLatestRuleFiles (order_by P) (db w))).

(** *** index.ts 221-231: where the rules live *)

Definition rules_subpath : string := join_path [".cursor"; "rules"].

Definition resolveRulesDir (workspacePath : option string) : string :=
  match workspacePath with
  | Some wp =>
      if truthy wp then
        if endsWith wp rules_subpath then wp
        else join_path [wp; ".cursor"; "rules"]
      else join_path [cwd env; ".cursor"; "rules"]
  | None => join_path [cwd env; ".cursor"; "rules"]
  end.

(** [`${new Error(msg)}`] *)
Definition Error (msg : string) : string := "Error: " +:+ msg.

(** *** index.ts 236-246: can the directory be written? *)

Definition checkWritable (rulesDir : string) : M unit :=
  rethrow
    (fun err => Error ("Cannot write to rules directory: " +:+ rulesDir
                       +:+ ". Error: " +:+ err))
    (mkdir rulesDir ;;;
     writeFile rulesDir ".write_test" "test" ;;;
     unlink rulesDir ".write_test").

(** *** index.ts 252-273: the inventory of managed files *)

Fixpoint readHashes (rulesDir : string) (names : list string)
    (existingHashes : gmap string string) : M (gmap string string) :=
  match names with
  | [] => ret existingHashes
  | filename :: rest =>
      fun w =>
        match readFile rulesDir filename w with
        | (w', Ok content) =>
            readHashes rulesDir rest
              (<[filename := generateHash P content]> existingHashes) w'
        | (w', Throw _) =>
            (* File might not be readable, skip it *)
            readHashes rulesDir rest existingHashes w'
        end
  end.

Definition inventory (rulesDir : string)
  : M (list string * gmap string string) :=
  fun w =>
    match readdir rulesDir w with
    | (w', Ok files) =>
        let existingFiles :=
          filter (fun f => endsWith f ".mdc" = true) files in
        (existingHashes <- readHashes rulesDir existingFiles ∅ ;;
         ret (existingFiles, existingHashes)) w'
    | (w', Throw _) => (w', Ok ([], ∅))
    end.

(** *** index.ts 280-291: the rendered templates and their hashes *)

Definition render (template : CursorRule) : CursorRule :=
  {| rule_filename := rule_filename template;
     rule_content :=
       replaceAll "{timestamp}" (now env) (rule_content template) |}.

Definition newRules : list CursorRule :=
  map render (CURSOR_RULES_TEMPLATES P).

(** [new Map(pairs)]: a later pair replaces an earlier one of the same
    key. *)
Definition newHashes : gmap string string :=
  fold_left
    (fun m rule =>
       <[rule_filename rule := generateHash P (rule_content rule)]> m)
    newRules ∅.

(** *** index.ts 294-345: is an update needed? *)

Definition isModified (existingHashes : gmap string string)
    (ruleFile : Db.RuleFile) : bool :=
  let currentHash := existingHashes !! Db.filename ruleFile in
  truthy_opt currentHash
  && negb (bool_decide (currentHash = Some (Db.contentHash ruleFile))).

Definition hasChanges (existingHashes : gmap string string)
    (latestRuleFiles : list Db.RuleFile) : bool :=
  existsb (isModified existingHashes) latestRuleFiles.

Definition isOutdated (existingHashes : gmap string string)
    (rule : CursorRule) : bool :=
  let existingHash := existingHashes !! rule_filename rule in
  let newHash := newHashes !! rule_filename rule in
  negb (truthy_opt existingHash)
  || negb (bool_decide (existingHash = newHash)).

Definition hasNewTemplate (existingHashes : gmap string string) : bool :=
  existsb (isOutdated existingHashes) newRules.

(** What the call reports; the message text is built from these fields. *)
Inductive Outcome :=
| AlreadyUpToDate
| ModificationWarning (lastDeployed lastDeployedBy : string)
    (modifiedFiles : list string)
| Deployed (updated : bool) (deploymentId : N) (filesDeployed : N)
    (deployedBy : string) (backup : option string)
    (deployedFiles : list string).

Definition modificationWarning (latestDeployment : option Db.RuleDeployment)
    (latestRuleFiles : list Db.RuleFile)
    (existingHashes : gmap string string) : Outcome :=
  ModificationWarning
    (or_default (Db.deployedAt <$> latestDeployment) "Unknown")
    (or_default (latestDeployment ≫= Db.deployedBy) "Unknown")
    (map Db.filename
       (filter (fun rf => isModified existingHashes rf = true)
               latestRuleFiles)).

(** *** index.ts 350-365: the backup *)

Definition backupFiles (rulesDir : string) (existingFiles : list string)
  : M string :=
  let backupDir := join_path [rulesDir; "backups"] in
  let backupTimestamp := dash_colons_dots (now env) in
  let backupPath := join_path [backupDir; "backup-" +:+ backupTimestamp] in
  mkdir backupPath ;;;
  for_each (fun filename => copyFile rulesDir filename backupPath filename)
           existingFiles ;;;
  ret backupPath.

(** *** index.ts 376-393: write each rule, record it *)

Fixpoint writeRules (rulesDir : string) (deploymentId : N)
    (rules : list CursorRule) (deployedFiles : list string)
  : M (list string) :=
  match rules with
  | [] => ret deployedFiles
  | rule :: rest =>
      rethrow
        (fun err =>
           Error ("Failed to write rule file: "
                  +:+ join_path [rulesDir; rule_filename rule]
                  +:+ ". Error: " +:+ err))
        (writeFile rulesDir (rule_filename rule) (rule_content rule)) ;;;
      _ <- dbStoreRuleFile deploymentId (rule_filename rule)
             (default "" (newHashes !! rule_filename rule)) ;;
      writeRules rulesDir deploymentId rest
        (deployedFiles ++ [rule_filename rule])
  end.

(** *** index.ts 396-403: are the files there? *)

Definition verifyRules (rulesDir : string) (deployedFiles : list string)
  : M unit :=
  for_each
    (fun filename =>
       rethrow
         (fun _ => Error ("Rule file missing after write: "
                          +:+ join_path [rulesDir; filename]))
         (access rulesDir filename))
    deployedFiles.

(** *** index.ts 348-456: the write path *)

Definition deploy (rulesDir : string) (existingFiles : list string)
    (backupExisting : bool) (deployedBy : option string) : M Outcome :=
  mkdir rulesDir ;;;
  backupPath <-
    (if backupExisting && (0 <? length existingFiles)
     then (bp <- backupFiles rulesDir existingFiles ;; ret (Some bp))
     else ret None) ;;
  deploymentId <-
    dbStoreRuleDeployment TEMPLATE_VERSION (N.of_nat (length newRules))
      deployedBy backupPath ;;
  deployedFiles <- writeRules rulesDir deploymentId newRules [] ;;
  verifyRules rulesDir deployedFiles ;;;
  _ <- dbStoreFact "project-setup"
         ("Cursor project rules deployed (v" +:+ TEMPLATE_VERSION
          +:+ ") - " +:+ pretty (N.of_nat (length newRules)) +:+ " files")
         (Some ("Deployed by: " +:+ or_default deployedBy "Unknown"
                +:+ ", Files: " +:+ join ", " deployedFiles))
         ["cursor-rules"; "deployment"; "project-setup"; "mdc-format"] ;;
  ret (Deployed (0 <? length existingFiles) deploymentId
         (N.of_nat (length newRules)) (or_default deployedBy "Unknown")
         backupPath deployedFiles).

(** *** index.ts 214-463: [setupProjectRules] *)

Definition setupProjectRules (forceUpdate backupExisting : bool)
    (deployedBy workspacePath : option string) : M Outcome :=
  rethrow (fun error => "Failed to setup project rules: " +:+ error)
    (let rulesDir := resolveRulesDir workspacePath in
     checkWritable rulesDir ;;;
     inv <- inventory rulesDir ;;
     let existingFiles := fst inv in
     let existingHashes := snd inv in
     latestDeployment <- dbGetLatestRuleDeployment ;;
     latestRuleFiles <- dbGetLatestRuleFiles ;;
     if (0 <? length existingFiles) && negb forceUpdate then
       if negb (hasChanges existingHashes latestRuleFiles)
          && negb (hasNewTemplate existingHashes)
       then ret AlreadyUpToDate
       else if hasChanges existingHashes latestRuleFiles
       then ret (modificationWarning latestDeployment latestRuleFiles
                   existingHashes)
       else deploy rulesDir existingFiles backupExisting deployedBy
     else deploy rulesDir existingFiles backupExisting deployedBy).

End Setup.

(** The tool dispatcher's defaults (index.ts 188-194):
    [force_update || false], [backup_existing !== false]. *)
Definition callSetupProjectRules (P : Platform) (env : Env)
    (force_update backup_existing : option bool)
    (deployed_by workspace_path : option string) : M Outcome :=
  setupProjectRules P env
    (default false force_update)
    (negb (bool_decide (backup_existing = Some false)))
    deployed_by workspace_path.

End Engine.

(* ------------------------------------------------------------------ *)
(** ** The tool dispatcher (src/index.ts 142-211) *)

Module Tools.
Import JsString Engine.

Inductive ErrorCode := InvalidParams | MethodNotFound | InternalError.

(** [new McpError(code, message)] *)
Record McpError := {
  code : ErrorCode;
  message : string;
}.

(** [request.params.arguments]; a field that is not given is [None]. *)
Record Arguments := {
  category : option string;
  fact : option string;
  context : option string;
  tags : option (list string);
  search : option string;
  limit : option Z;
  force_update : option bool;
  backup_existing : option bool;
  deployed_by : option string;
  workspace_path : option string;
}.


(** What a tool answers; the text of the reply is built from it. *)
Inductive Reply :=
| FactStored (factId : N)
| Facts (rows : list Db.StoredFact)
| Rules (o : Outcome).

(** What the body of the [try] throws: an [McpError], or something else. *)
Inductive Thrown :=
| Mcp (e : McpError)
| Other (error : string).

(** [args?.limit || 20] *)
Definition limit_or_default (l : option Z) : Z :=
  match l with
  | Some n => if (n =? 0)%Z then 20%Z else n
  | None => 20%Z
  end.

(** The [switch] on the tool name. *)
Definition dispatch (P : Platform) (env : Env) (name : string)
    (args : Arguments) : World -> World * (Thrown + Reply) :=
  fun w =>
    if String.eqb name "remember_fact" then
      if negb (truthy_opt (category args)) || negb (truthy_opt (fact args))
      then (w, inl (Mcp {| code := InvalidParams;
                           message := "Category and fact are required" |}))
      else
        match dbStoreFact env (default "" (category args))
                (default "" (fact args)) (context args)
                (default [] (tags args)) w with
        | (w', Ok factId) => (w', inr (FactStored factId))
        | (w', Throw error) => (w', inl (Other error))
        end
    else if String.eqb name "recall_facts" then
      (w, inr (Facts (Db.getFacts (order_by P) (category args) (tags args)
                        (search args) (limit_or_default (limit args))
                        (db w))))
    else if String.eqb name "setup_project_rules" then
      match callSetupProjectRules P env (force_update args)
              (backup_existing args) (deployed_by args)
              (workspace_path args) w with
      | (w', Ok o) => (w', inr (Rules o))
      | (w', Throw error) =>
          (w', inl (Mcp {| code := InternalError; message := error |}))
      end
    else
      (w, inl (Mcp {| code := MethodNotFound;
                      message := "Tool " +:+ name +:+ " not found" |})).

(** The handler of [CallToolRequestSchema]: an [McpError] goes out as it
    is, anything else is wrapped into one. *)
Definition callTool (P : Platform) (env : Env) (name : string)
    (args : Arguments) : World -> World * (McpError + Reply) :=
  fun w =>
    match dispatch P env name args w with
    | (w', inr reply) => (w', inr reply)
    | (w', inl (Mcp e)) => (w', inl e)
    | (w', inl (Other error)) =>
        (w', inl {| code := InternalError;
                    message := "Error executing tool " +:+ name +:+ ": "
                               +:+ error |})
    end.

End Tools.

(* ------------------------------------------------------------------ *)
(** ** The list of recent changes (src/file-watcher.ts)

    [path.relative(projectPath, .)] and the filter of the [ignore] package
    are parameters.  The size of a change is filled in later by [fs.stat]
    and read by no method; it is left out. *)

Module Watcher.
Import JsString PosixPath Engine.

Inductive ChangeType := added | changed | removed.

Record FileChange := {
  path : string;
  type : ChangeType;
  timestamp : string;
}.

Definition maxRecentChanges : nat := 100.

Definition significantExtensions : list string :=
  [ ".ts"; ".js"; ".tsx"; ".jsx"; ".vue"; ".svelte"; ".py"; ".java";
    ".cpp"; ".c"; ".cs"; ".go"; ".rs"; ".md"; ".json"; ".yaml"; ".yml";
    ".toml"; ".sql"; ".graphql"; ".proto" ].

(** [/\.(config|rc)\.|package\.json|tsconfig|webpack|babel|eslint|prettier/] *)
Definition isConfigFile (p : string) : bool :=
  occurs ".config." p || occurs ".rc." p || occurs "package.json" p
  || occurs "tsconfig" p || occurs "webpack" p || occurs "babel" p
  || occurs "eslint" p || occurs "prettier" p.

(** [try { ... } catch (error) { console.error(...) }] *)
Definition swallow (m : M unit) : M unit :=
  fun w =>
    match m w with
    | (w', Ok a) => (w', Ok a)
    | (w', Throw _) => (w', Ok tt)
    end.

Section Host.
Variable relative : string -> string.
Variable ignores : string -> bool.
Variable env : Env.

Definition shouldIgnoreFile (filePath : string) : bool :=
  ignores (relative filePath).

Definition analyzeAndStoreChange (change : FileChange) : M unit :=
  swallow
    (let ext := toLowerCase (extname (path change)) in
     if negb (bool_decide (ext ∈ significantExtensions)) then ret tt
     else
       let isNewFile :=
         match type change with added => true | _ => false end in
       if isNewFile || isConfigFile (path change) then
         let category :=
           if isNewFile then "new-files" else "config-changes" in
         let fact :=
           if isNewFile
           then "New " +:+ ext +:+ " file created: " +:+ path change
           else "Configuration file modified: " +:+ path change in
         if truthy fact then
           (_ <- dbStoreFact env category fact
                   (Some ("Detected at " +:+ timestamp change))
                   ["auto-detected"; "file-system"; drop_chars 1 ext] ;;
            ret tt)%engine
         else ret tt
       else ret tt).

(** [addChange]: the new list of recent changes.  The source does not
    wait for [analyzeAndStoreChange]; nothing else it does depends on
    the fact being stored. *)
Definition addChange (filePath : string) (type_ : ChangeType)
    (nowISO : string) (recentChanges : list FileChange)
  : M (list FileChange) :=
  if shouldIgnoreFile filePath then ret recentChanges
  else
    let change := {| path := relative filePath; type := type_;
                     timestamp := nowISO |} in
    let unshifted := change :: recentChanges in
    (analyzeAndStoreChange change ;;;
     ret (if maxRecentChanges <? length unshifted
          then take maxRecentChanges unshifted
          else unshifted))%engine.

End Host.

(** [l.slice(0, end)] *)
Definition slice0 {A : Type} (end_ : Z) (l : list A) : list A :=
  if (end_ <? 0)%Z
  then take (Z.to_nat (Z.max (Z.of_nat (length l) + end_) 0)) l
  else take (Z.to_nat end_) l.

(** [getRecentChanges(limit?)]: [limit || this.maxRecentChanges] *)
Definition getRecentChanges (limit : option Z)
    (recentChanges : list FileChange) : list FileChange :=
  slice0 (match limit with
          | Some n => if (n =? 0)%Z then Z.of_nat maxRecentChanges else n
          | None => Z.of_nat maxRecentChanges
          end)
         recentChanges.

Definition getChangesForFile (filePath : string)
    (recentChanges : list FileChange) : list FileChange :=
  filter (fun change => path change = filePath) recentChanges.

Definition clearRecentChanges (recentChanges : list FileChange)
  : list FileChange := [].

End Watcher.

(* ------------------------------------------------------------------ *)
(** ** The commit summary (src/git-analyzer.ts 113-155)

    What [getRecentChanges] computes from the commits [simple-git] gave it.
    [Date.parse] is a parameter; a date it cannot read compares false. *)

Module Git.
Import JsString.

Record GitCommit := {
  hash : string;
  date : string;
  message : string;
  author : string;
  files : list string;
  insertions : N;
  deletions : N;
}.

Record AuthorCount := {
  name : string;
  commits : nat;
}.

Record RecentActivity := {
  lastCommit : string;
  commitsLastWeek : nat;
  commitsLastMonth : nat;
}.

Record Summary := {
  totalCommits : nat;
  activeFiles : list string;
  topAuthors : list AuthorCount;
  recentActivity : RecentActivity;
}.

(** [authorCounts.set(a, (authorCounts.get(a) || 0) + 1)] on a [Map],
    which keeps its keys in the order of their first insertion. *)
Fixpoint count_author (a : string) (authorCounts : list (string * nat))
  : list (string * nat) :=
  match authorCounts with
  | [] => [(a, 1)]
  | (k, v) :: rest =>
      if String.eqb k a then (k, S v) :: rest
      else (k, v) :: count_author a rest
  end.

(** [.sort((a, b) => b.commits - a.commits)]: descending, and stable, so
    that of two authors with the same count the one met first stays
    first. *)
Fixpoint insert_author (x : AuthorCount) (l : list AuthorCount)
  : list AuthorCount :=
  match l with
  | [] => [x]
  | y :: l' =>
      if commits y <=? commits x then x :: l else y :: insert_author x l'
  end.

Definition sort_by_commits (l : list AuthorCount) : list AuthorCount :=
  fold_right insert_author [] l.

Section Summary.
Variable parse : string -> option Z.   (* new Date(s).getTime() *)
Variable now : Z.                      (* new Date().getTime() *)

Definition later_than (cutoff : Z) (c : GitCommit) : bool :=
  match parse (date c) with
  | Some t => (cutoff <? t)%Z
  | None => false
  end.

Definition summary (commits_ : list GitCommit) : Summary :=
  let allFiles :=
    fold_left (fun s c => fold_left set_add (files c) s) commits_ [] in
  let authorCounts :=
    fold_left (fun m c => count_author (author c) m) commits_ [] in
  let oneWeekAgo := (now - 7 * 24 * 60 * 60 * 1000)%Z in
  let oneMonthAgo := (now - 30 * 24 * 60 * 60 * 1000)%Z in
  {| totalCommits := length commits_;
     activeFiles := allFiles;
     topAuthors :=
       take 5 (sort_by_commits
                 (map (fun e => {| name := fst e; commits := snd e |})
                      authorCounts));
     recentActivity :=
       {| lastCommit :=
            match commits_ with
            | c :: _ => if truthy (date c) then date c else ""
            | [] => ""
            end;
          commitsLastWeek :=
            length (filter (fun c => later_than oneWeekAgo c = true)
                           commits_);
          commitsLastMonth :=
            length (filter (fun c => later_than oneMonthAgo c = true)
                           commits_) |} |}.

End Summary.

End Git.

(* ------------------------------------------------------------------ *)
(** ** Views of the state in which the properties are phrased *)

Module Observe.
Import JsString PosixPath Engine.

(** The [.mdc] files of a directory, as [readdir] and the filter give them. *)
Definition managedFiles (f : FileSystem) (dir : string) : list string :=
  match dirs f !! dir with
  | Some entries =>
      filter (fun n => endsWith n ".mdc" = true) (map fst (map_to_list entries))
  | None => []
  end.

(** The content [readFile] returns, if it returns. *)
Definition readable (f : FileSystem) (dir name : string) : option string :=
  if bool_decide ((dir, name) ∈ no_read f) then None
  else lookup_file f dir name.

(** The hashes the inventory loop collects over [names]. *)
Fixpoint hashesOf (P : Platform) (f : FileSystem) (dir : string)
    (names : list string) (acc : gmap string string) : gmap string string :=
  match names with
  | [] => acc
  | name :: rest =>
      match readable f dir name with
      | Some content =>
          hashesOf P f dir rest (<[name := generateHash P content]> acc)
      | None => hashesOf P f dir rest acc
      end
  end.

Definition diskHashes (P : Platform) (f : FileSystem) (dir : string)
  : gmap string string :=
  hashesOf P f dir (managedFiles f dir) ∅.

(** The hash found on disk for a managed file. *)
Definition diskHash (P : Platform) (f : FileSystem) (dir name : string)
  : option string :=
  if bool_decide (name ∈ managedFiles f dir)
  then generateHash P <$> readable f dir name
  else None.

(** The file system a successful writability probe leaves behind. *)
Definition probed (f : FileSystem) (dir : string) : FileSystem :=
  set_dirs f
    (<[dir := delete ".write_test" (default ∅ (dirs f !! dir))]> (dirs f)).

Definition after_probe (w : World) (dir : string) : World :=
  {| fs := probed (fs w) dir;
     db := db w;
     trace := trace w ++ [EvMkdir dir;
                          EvWriteFile dir ".write_test" "test";
                          EvUnlink dir ".write_test"] |}.

(** The outermost [catch] of [setupProjectRules]. *)
Definition setup_failed (error : string) : string :=
  "Failed to setup project rules: " +:+ error.

Definition writable (f : FileSystem) (dir : string) : Prop :=
  (dir ∉ no_mkdir f) /\ ((dir, ".write_test") ∉ no_write f).

(** The three ways the classification of index.ts 294-345 can go. *)
Inductive Verdict := NoOp | Warn | Write.

Definition decision (P : Platform) (env : Env) (forceUpdate : bool)
    (existingFiles : list string) (existingHashes : gmap string string)
    (latestRuleFiles : list Db.RuleFile) : Verdict :=
  if (0 <? length existingFiles) && negb forceUpdate then
    if negb (hasChanges existingHashes latestRuleFiles)
       && negb (hasNewTemplate P env existingHashes)
    then NoOp
    else if hasChanges existingHashes latestRuleFiles then Warn
    else Write
  else Write.

(** The hash [writeRules] records for a file name. *)
Definition desiredHash (P : Platform) (env : Env) (name : string) : string :=
  default "" (newHashes P env !! name).

(** The store after the file row of one rule has been added. *)
Definition recordFile (P : Platform) (env : Env) (dep : N)
    (d : Db.Database) (rule : CursorRule) : Db.Database :=
  snd (Db.storeRuleFile (current_timestamp env) dep (rule_filename rule)
         (desiredHash P env (rule_filename rule)) d).

(** A directory after the given rules have been written into it. *)
Definition written (rules : list CursorRule) (entries : gmap string string)
  : gmap string string :=
  fold_left (fun e rule => <[rule_filename rule := rule_content rule]> e)
            rules entries.

Definition written_into (f : FileSystem) (dir : string)
    (rules : list CursorRule) : FileSystem :=
  set_dirs f
    match dirs f !! dir with
    | Some entries => <[dir := written rules entries]> (dirs f)
    | None => dirs f
    end.

(** The two effects of one round of the write loop. *)
Definition write_events (P : Platform) (env : Env) (dir : string) (dep : N)
    (rule : CursorRule) : list Event :=
  [ EvWriteFile dir (rule_filename rule) (rule_content rule);
    EvStoreRuleFile dep (rule_filename rule)
      (desiredHash P env (rule_filename rule)) ].

(** Where the backup of a call goes. *)
Definition backupPathOf (env : Env) (dir : string) : string :=
  join_path [join_path [dir; "backups"];
             "backup-" +:+ dash_colons_dots (now env)].

(** [copyFile] of this managed file into the backup directory fails. *)
Definition cannot_copy (f : FileSystem) (dir todir name : string) : Prop :=
  (dir, name) ∈ no_read f \/ (todir, name) ∈ no_write f.

(** The effects of the backup of a call, if it makes one. *)
Definition backup_events (env : Env) (dir : string) (files : list string)
    (backup : bool) : list Event :=
  if backup && (0 <? length files)
  then EvMkdir (backupPathOf env dir)
         :: map (fun n => EvCopyFile dir n (backupPathOf env dir) n) files
  else [].

(** The backup path a call reports. *)
Definition backup_of (env : Env) (dir : string) (files : list string)
    (backup : bool) : option string :=
  if backup && (0 <? length files) then Some (backupPathOf env dir) else None.

(** Text and context of the fact stored about a deployment. *)
Definition deployment_fact (P : Platform) (env : Env) (by_ : option string)
  : string * option string :=
  ("Cursor project rules deployed (v" +:+ TEMPLATE_VERSION +:+ ") - "
     +:+ pretty (N.of_nat (length (newRules P env))) +:+ " files",
   Some ("Deployed by: " +:+ or_default by_ "Unknown" +:+ ", Files: "
         +:+ join ", " (map rule_filename (newRules P env)))).

(** The store after a deployment went through. *)
Definition db_deployed (P : Platform) (env : Env) (by_ bp : option string)
    (d : Db.Database) : Db.Database :=
  let r := Db.storeRuleDeployment (current_timestamp env) TEMPLATE_VERSION
             (N.of_nat (length (newRules P env))) by_ bp d in
  snd (Db.storeFact (current_timestamp env) "project-setup"
         (fst (deployment_fact P env by_)) (snd (deployment_fact P env by_))
         ["cursor-rules"; "deployment"; "project-setup"; "mdc-format"]
         (fold_left (recordFile P env (fst r)) (newRules P env) (snd r))).

(** Permissions, the files of [dir] and its existence are untouched. *)
Definition fs_frame (dir : string) (f f' : FileSystem) : Prop :=
  no_read f' = no_read f /\ no_write f' = no_write f /\
  no_mkdir f' = no_mkdir f /\
  (forall n, lookup_file f' dir n = lookup_file f dir n) /\
  (is_Some (dirs f !! dir) -> is_Some (dirs f' !! dir)).

(** What a file row says, its own id and timestamp apart. *)
Definition row_key (rf : Db.RuleFile) : N * string * string :=
  (Db.deploymentId rf, Db.filename rf, Db.contentHash rf).


(** The order a query asks for, as a relation between two rows. *)
Definition before {A : Type} (key : A -> string) (desc : bool) (x y : A)
  : Prop :=
  if desc then String.le (key y) (key x) else String.le (key x) (key y).

(** Number of [rule_files] rows that reference a deployment. *)
Definition countFiles (d : Db.Database) (dep : N) : nat :=
  length (filter (fun rf => Db.deploymentId rf = dep) (Db.rule_files d)).

(** The invariant of section 3 of the specification. *)
Definition counts_agree (d : Db.Database) : Prop :=
  forall row, row ∈ Db.rule_deployments d ->
    Db.totalFiles row = N.of_nat (countFiles d (Db.id row)).

(** Every file row belongs to a deployment row. *)
Definition references_ok (d : Db.Database) : Prop :=
  forall rf, rf ∈ Db.rule_files d ->
    exists row, row ∈ Db.rule_deployments d /\ Db.id row = Db.deploymentId rf.

(** The clock of the store has moved on since every recorded deployment. *)
Definition clock_ahead (d : Db.Database) (env : Env) : Prop :=
  forall row, row ∈ Db.rule_deployments d ->
    String.ltb (Db.deployedAt row) (current_timestamp env) = true.

(** What the shipped templates satisfy: every name carries the managed
    suffix and no body contains the timestamp token. *)
Definition templates_static (P : Platform) : Prop :=
  Forall (fun t => endsWith (rule_filename t) ".mdc" = true
                   /\ occurs "{timestamp}" (rule_content t) = false)
         (CURSOR_RULES_TEMPLATES P).

(** A hex digest is never the empty string. *)
Definition digest_nonempty (P : Platform) : Prop :=
  forall content, truthy (generateHash P content) = true.

Definition is_deployed (o : Outcome) : bool :=
  match o with Deployed _ _ _ _ _ _ => true | _ => false end.

Definition is_warning (o : Outcome) : bool :=
  match o with ModificationWarning _ _ _ => true | _ => false end.

Definition warned_files (o : Outcome) : list string :=
  match o with ModificationWarning _ _ files => files | _ => [] end.

End Observe.

(* ------------------------------------------------------------------ *)
(** ** Small concrete instances on which the definitions are run *)

Module Fixtures.
Import JsString PosixPath Engine Observe.

Definition demo_hash (s : string) : string := "sha256:" +:+ s.

Definition demo_templates : list CursorRule :=
  [ {| rule_filename := "a.mdc"; rule_content := "alpha" |};
    {| rule_filename := "b.mdc"; rule_content := "beta" |} ].

Definition demo : Platform :=
  {| generateHash := demo_hash;
     order_by := Db.stable_order_by;
     CURSOR_RULES_TEMPLATES := demo_templates |}.

(** Only [b.mdc] is a template. *)
Definition demo_single : Platform :=
  {| generateHash := demo_hash;
     order_by := Db.stable_order_by;
     CURSOR_RULES_TEMPLATES :=
       [ {| rule_filename := "b.mdc"; rule_content := "beta" |} ] |}.

Definition env1 : Env :=
  {| cwd := "/home/u/proj";
     now := "2024-01-01T10:00:00.000Z";
     current_timestamp := "2024-01-01 10:00:00" |}.

Definition env2 : Env :=
  {| cwd := "/home/u/proj";
     now := "2024-01-01T10:00:05.250Z";
     current_timestamp := "2024-01-01 10:00:05" |}.

Definition rules_dir : string := "/home/u/proj/.cursor/rules".

Definition fs_empty : FileSystem :=
  {| dirs := ∅; no_read := ∅; no_write := ∅; no_mkdir := ∅ |}.

Definition fresh : World := {| fs := fs_empty; db := Db.empty; trace := [] |}.

(** The world after one deployment into the fresh world. *)
Definition deployed_once : World :=
  fst (setupProjectRules demo env1 false true None None fresh).

(** ... then [a.mdc] is edited by hand. *)
Definition edited : World :=
  {| fs := set_dirs (fs deployed_once)
             (<[rules_dir := <["a.mdc" := "ALPHA"]>
                  (default ∅ (dirs (fs deployed_once) !! rules_dir))]>
                (dirs (fs deployed_once)));
     db := db deployed_once;
     trace := trace deployed_once |}.

(** ... or [b.mdc] can no longer be written. *)
Definition b_locked : World :=
  {| fs := {| dirs := ∅; no_read := ∅;
              no_write := {[ (rules_dir, "b.mdc") ]}; no_mkdir := ∅ |};
     db := Db.empty; trace := [] |}.

(** ... or [a.mdc] can no longer be read. *)
Definition a_unreadable : World :=
  {| fs := {| dirs := dirs (fs deployed_once);
              no_read := {[ (rules_dir, "a.mdc") ]};
              no_write := ∅; no_mkdir := ∅ |};
     db := db deployed_once;
     trace := trace deployed_once |}.

(** A store whose latest deployment recorded another hash for [a.mdc]
    than the template now renders, next to a disk that already holds the
    rendered template. *)
Definition stale_record : World :=
  {| fs := fs deployed_once;
     db := {| Db.facts := [];
              Db.rule_deployments :=
                [ {| Db.id := 1; Db.templateVersion := "1.9.0";
                     Db.deployedAt := "2023-12-01 08:00:00";
                     Db.deployedBy := Some "ann";
                     Db.totalFiles := 2; Db.backupPath := None |} ];
              Db.rule_files :=
                [ {| Db.file_id := 1; Db.deploymentId := 1;
                     Db.filename := "a.mdc";
                     Db.contentHash := "sha256:older alpha";
                     Db.file_deployedAt := "2023-12-01 08:00:00" |};
                  {| Db.file_id := 2; Db.deploymentId := 1;
                     Db.filename := "b.mdc";
                     Db.contentHash := "sha256:beta";
                     Db.file_deployedAt := "2023-12-01 08:00:00" |} ] |};
     trace := [] |}.

(** The latest deployment also recorded [a.mdc], which is gone from the
    disk; [b.mdc] is as deployed. *)
Definition a_missing : World :=
  {| fs := {| dirs := {[ rules_dir := {[ "b.mdc" := "beta" ]} ]};
              no_read := ∅; no_write := ∅; no_mkdir := ∅ |};
     db := db stale_record;
     trace := [] |}.

(** Two deployments recorded within the same second. *)
Definition same_second : Db.Database :=
  {| Db.facts := [];
     Db.rule_deployments :=
       [ {| Db.id := 1; Db.templateVersion := "2.0.0";
            Db.deployedAt := "2024-01-01 10:00:00";
            Db.deployedBy := Some "ann";
            Db.totalFiles := 0; Db.backupPath := None |};
         {| Db.id := 2; Db.templateVersion := "2.0.0";
            Db.deployedAt := "2024-01-01 10:00:00";
            Db.deployedBy := Some "bob";
            Db.totalFiles := 0; Db.backupPath := None |} ];
     Db.rule_files := [] |}.

End Fixtures.

(* ------------------------------------------------------------------ *)
(** ** Further views: the fact store, the watcher, the commit summary *)

Module Views.
Import JsString Engine.

(** No character of the string is escaped by [JSON.stringify]. *)
Definition unescaped (s : string) : Prop := Json.escape_all s = s.

(** The pieces of a string between the occurrences of a character. *)
Fixpoint split_on (sep : ascii) (s : string) : list string :=
  match s with
  | EmptyString => [EmptyString]
  | String c s' =>
      if Ascii.eqb c sep then EmptyString :: split_on sep s'
      else match split_on sep s' with
           | h :: t => String c h :: t
           | [] => [String c EmptyString]
           end
  end.

(** A tag as a tag search can look for it exactly: it has none of the
    wildcards of [LIKE], no double quote, and is neither empty nor a
    comma. *)
Definition exact_tag (t : string) : Prop :=
  occurs "%" t = false /\ occurs "_" t = false /\
  occurs (String Json.quote "") t = false /\ t <> "" /\ t <> ",".

(** The row [storeFact] inserts. *)
Definition stored (now : string) (cat fct : string) (ctx : option string)
    (tgs : list string) (db : Db.Database) : Db.StoredFact :=
  {| Db.fact_id := Db.next_id (map Db.fact_id (Db.facts db));
     Db.category := cat; Db.fact := fct; Db.context := ctx;
     Db.tags := tgs; Db.createdAt := now; Db.updatedAt := now |}.

(** The limit lets [n] rows through. *)
Definition within (limit : Z) (n : nat) : Prop :=
  (limit < 0)%Z \/ n <= Z.to_nat limit.

(** No two rows of a table share an id. *)
Definition ids_unique (d : Db.Database) : Prop :=
  NoDup (map Db.fact_id (Db.facts d)) /\
  NoDup (map Db.id (Db.rule_deployments d)) /\
  NoDup (map Db.file_id (Db.rule_files d)).

(** Every fact of the store was created before [now]. *)
Definition facts_older (d : Db.Database) (now : string) : Prop :=
  forall row, row ∈ Db.facts d ->
    String.ltb (Db.createdAt row) now = true.

(** Each string is strictly smaller than the ones behind it. *)
Definition strictly_increasing (l : list string) : Prop :=
  forall (i j : nat) (x y : string),
    i < j -> l !! i = Some x -> l !! j = Some y -> String.ltb x y = true.

(** The computation keeps a property of the store, however it ends. *)
Definition keeps {A : Type} (I : Db.Database -> Prop) (m : M A) : Prop :=
  forall (w w' : World) (r : Result A),
    I (db w) -> m w = (w', r) -> I (db w').

(** The tables of [d'] are those of [d] with rows added at the end. *)
Definition extends (d d' : Db.Database) : Prop :=
  prefix (Db.facts d) (Db.facts d') /\
  prefix (Db.rule_deployments d) (Db.rule_deployments d') /\
  prefix (Db.rule_files d) (Db.rule_files d').

(** A run of the watcher: the events chokidar reports, one after the
    other, each with the path, the kind of change and the time. *)
Fixpoint addChanges (relative : string -> string) (ignores : string -> bool)
    (env : Env) (events : list (string * Watcher.ChangeType * string))
    (recentChanges : list Watcher.FileChange)
  : M (list Watcher.FileChange) :=
  match events with
  | [] => ret recentChanges
  | (filePath, type_, nowISO) :: rest =>
      bind (Watcher.addChange relative ignores env filePath type_ nowISO
              recentChanges)
           (addChanges relative ignores env rest)
  end.

(** Does a change leave a fact? *)
Definition leaves_fact (change : Watcher.FileChange) : bool :=
  bool_decide (toLowerCase (PosixPath.extname (Watcher.path change))
               ∈ Watcher.significantExtensions)
  && (match Watcher.type change with
      | Watcher.added => true
      | _ => false
      end
      || Watcher.isConfigFile (Watcher.path change)).

(** How many of the commits are by this author. *)
Definition commits_by (a : string) (l : list Git.GitCommit) : nat :=
  length (filter (fun c => Git.author c = a) l).

End Views.

(* ------------------------------------------------------------------ *)
(** ** Further instances: a few facts, a read-only project, a short log *)

Module Samples.
Import JsString Engine.

Definition note1 : Db.StoredFact :=
  {| Db.fact_id := 1; Db.category := "architecture";
     Db.fact := "The API layer uses Express"; Db.context := None;
     Db.tags := ["api"; "express"];
     Db.createdAt := "2024-01-01 09:00:00";
     Db.updatedAt := "2024-01-01 09:00:00" |}.

Definition note2 : Db.StoredFact :=
  {| Db.fact_id := 2; Db.category := "decisions";
     Db.fact := "Use SQLite for storage";
     Db.context := Some "keeps the server self-contained";
     Db.tags := ["storage"; "sqlite"];
     Db.createdAt := "2024-01-02 09:00:00";
     Db.updatedAt := "2024-01-02 09:00:00" |}.

Definition note3 : Db.StoredFact :=
  {| Db.fact_id := 3; Db.category := "architecture";
     Db.fact := "State lives in Redux"; Db.context := None;
     Db.tags := ["frontend"; "Redux"; "api"];
     Db.createdAt := "2024-01-03 09:00:00";
     Db.updatedAt := "2024-01-03 09:00:00" |}.

Definition notebook : Db.Database :=
  {| Db.facts := [note1; note2; note3];
     Db.rule_deployments := []; Db.rule_files := [] |}.

(** A project whose rules directory may not be created. *)
Definition read_only : World :=
  {| fs := {| dirs := ∅; no_read := ∅; no_write := ∅;
              no_mkdir := {[ Fixtures.rules_dir ]} |};
     db := Db.empty; trace := [] |}.

Definition commit (h d a : string) (fs : list string) : Git.GitCommit :=
  {| Git.hash := h; Git.date := d; Git.message := "work";
     Git.author := a; Git.files := fs;
     Git.insertions := 1; Git.deletions := 0 |}.

Definition log : list Git.GitCommit :=
  [ commit "c3" "2024-01-03" "ann" ["src/a.ts"; "src/b.ts"];
    commit "c2" "2024-01-02" "bob" ["src/a.ts"];
    commit "c1" "2023-11-01" "ann" ["README.md"] ].

(** Days since 2023-11-01, in milliseconds. *)
Definition parse_day (d : string) : option Z :=
  if String.eqb d "2024-01-03" then Some (63 * 86400000)%Z
  else if String.eqb d "2024-01-02" then Some (62 * 86400000)%Z
  else if String.eqb d "2023-11-01" then Some 0%Z
  else None.

End Samples.

(* ------------------------------------------------------------------ *)
(** ** Facts about the string operations *)

Module JsStringFacts.
Import JsString.

Lemma sapp_cons (c : ascii) (a b : string) :
  String c a +:+ b = String c (a +:+ b).
Proof. reflexivity. Qed.

Lemma sapp_nil_l (b : string) : EmptyString +:+ b = b.
Proof. reflexivity. Qed.

Lemma slength_app (a b : string) :
  String.length (a +:+ b) = String.length a + String.length b.
Proof.
  induction a as [|c a IH]; [done|].
  rewrite sapp_cons. simpl. by rewrite IH.
Qed.

Lemma sapp_empty_r (a : string) : a +:+ EmptyString = a.
Proof. induction a as [|c a IH]; [done|]. by rewrite sapp_cons, IH. Qed.

Lemma sapp_assoc (a b c : string) : (a +:+ b) +:+ c = a +:+ b +:+ c.
Proof. induction a as [|x a IH]; [done|]. by rewrite !sapp_cons, IH. Qed.

Lemma substring_all (s : string) : String.substring 0 (String.length s) s = s.
Proof. induction s as [|c s IH]; simpl; [done | by rewrite IH]. Qed.

Lemma substring_skip (a b : string) (k : nat) :
  String.substring (String.length a) k (a +:+ b) = String.substring 0 k b.
Proof. induction a as [|c a IH]; [done|]. rewrite sapp_cons. exact IH. Qed.

(** Appending a suffix makes the string end with it. *)
Lemma endsWith_app (a suffix : string) : endsWith (a +:+ suffix) suffix = true.
Proof.
  unfold endsWith. rewrite slength_app.
  replace (String.length a + String.length suffix - String.length suffix)
    with (String.length a) by lia.
  rewrite substring_skip, substring_all, String.eqb_refl.
  rewrite andb_true_r. apply Nat.leb_le. lia.
Qed.

Lemma endsWith_self (s : string) : endsWith s s = true.
Proof. exact (endsWith_app EmptyString s). Qed.





(** Without an occurrence of the token the replacement changes nothing. *)
Lemma replaceAll_absent (tok rep s : string) :
  occurs tok s = false -> replaceAll tok rep s = s.
Proof.
  unfold replaceAll. induction s as [|c s IH]; [done|].
  cbn [occurs replace_go]. intros [Hp Ho]%orb_false_elim.
  rewrite Hp. f_equal. by apply IH.
Qed.

End JsStringFacts.

(* ------------------------------------------------------------------ *)
(** ** Facts about [path.join] *)

Module PosixPathFacts.
Import JsString JsStringFacts PosixPath.





End PosixPathFacts.

(* ------------------------------------------------------------------ *)
(** ** Facts about the engine *)

Module EngineFacts.
Import JsString JsStringFacts PosixPath Engine Observe.
Local Open Scope engine_scope.

Lemma set_dirs_id (f : FileSystem) : set_dirs f (dirs f) = f.
Proof. by destruct f. Qed.

Lemma app_one_assoc {A : Type} (l : list A) (x : A) (l' : list A) :
  (l ++ [x]) ++ l' = l ++ x :: l'.
Proof. by rewrite <- app_assoc. Qed.

(** *** The writability probe *)

Lemma checkWritable_ok (dir : string) (w : World) :
  writable (fs w) dir ->
  checkWritable dir w =
    (after_probe w dir, Ok tt).
Proof.
  intros [Hmk Hwr]. unfold checkWritable, rethrow, bind, mkdir, writeFile, unlink.
  rewrite bool_decide_eq_false_2 by done.
  destruct (dirs (fs w) !! dir) as [entries|] eqn:Hd; simpl.
  - rewrite bool_decide_eq_false_2 by done. rewrite Hd. simpl.
    rewrite lookup_insert_eq. simpl. rewrite lookup_insert_eq. simpl.
    unfold with_fs, after_probe, probed, set_dirs. simpl. rewrite Hd. simpl.
    rewrite insert_insert_eq, delete_insert_eq, !app_one_assoc. done.
  - rewrite bool_decide_eq_false_2 by done. rewrite lookup_insert_eq. simpl.
    rewrite lookup_insert_eq. simpl. rewrite lookup_insert_eq. simpl.
    unfold with_fs, after_probe, probed, set_dirs. simpl. rewrite Hd. simpl.
    rewrite !insert_insert_eq, delete_insert_eq, !app_one_assoc. done.
Qed.

(** A failed probe has at most created the empty directory. *)
Lemma checkWritable_throw (dir : string) (w w1 : World) (e : string) :
  checkWritable dir w = (w1, Throw e) ->
  db w1 = db w /\
  (forall d n, lookup_file (fs w1) d n = lookup_file (fs w) d n) /\
  ~ writable (fs w) dir.
Proof.
  intros H.
  assert (~ writable (fs w) dir) as Hnw.
  { intros Hw. rewrite (checkWritable_ok dir w Hw) in H. discriminate. }
  split_and!; [| |done]; revert H;
    unfold checkWritable, rethrow, bind, mkdir, writeFile, unlink, with_fs,
      lookup_file, set_dirs;
    repeat (case_bool_decide || case_match || simpl in * || simplify_eq
            || intros ?);
    try done.
  all: try (match goal with
            | H : context [(<[_ := _]> _) !! _] |- _ =>
                rewrite ?lookup_insert_eq, ?lookup_insert in H
            end).
  all: repeat (case_decide || case_match || simplify_map_eq); try done.
Qed.

(** *** The inventory *)

Lemma readFile_readable (dir name : string) (w : World) :
  readFile dir name w =
    (w, match readable (fs w) dir name with
        | Some c => Ok c
        | None => Throw (if bool_decide ((dir, name) ∈ no_read (fs w))
                         then "EACCES: open" else "ENOENT: open")
        end).
Proof.
  unfold readFile, readable. case_bool_decide; [done|].
  by destruct (lookup_file (fs w) dir name).
Qed.

Lemma readHashes_eq (P : Platform) (dir : string) (names : list string)
    (acc : gmap string string) (w : World) :
  readHashes P dir names acc w = (w, Ok (hashesOf P (fs w) dir names acc)).
Proof.
  revert acc. induction names as [|n names IH]; intros acc; [done|].
  cbn [readHashes hashesOf]. rewrite readFile_readable.
  destruct (readable (fs w) dir n); apply IH.
Qed.

Lemma inventory_eq (P : Platform) (dir : string) (w : World) :
  inventory P dir w =
    (w, Ok (managedFiles (fs w) dir, diskHashes P (fs w) dir)).
Proof.
  unfold inventory, readdir, diskHashes, managedFiles.
  destruct (dirs (fs w) !! dir) as [entries|]; [|done].
  unfold bind. by rewrite readHashes_eq.
Qed.

Lemma hashesOf_lookup (P : Platform) (f : FileSystem) (dir : string)
    (names : list string) (acc : gmap string string) (n : string) :
  hashesOf P f dir names acc !! n =
    if bool_decide (n ∈ names)
    then match readable f dir n with
         | Some c => Some (generateHash P c)
         | None => acc !! n
         end
    else acc !! n.
Proof.
  revert acc. induction names as [|m names IH]; intros acc.
  { cbn. by rewrite bool_decide_eq_false_2 by set_solver. }
  cbn [hashesOf].
  destruct (decide (n = m)) as [->|Hne].
  - rewrite (bool_decide_eq_true_2 (m ∈ m :: names)) by set_solver.
    destruct (readable f dir m) as [c|] eqn:Hr; rewrite IH, ?Hr.
    + case_bool_decide; [done|]. by rewrite lookup_insert_eq.
    + by case_bool_decide.
  - assert (bool_decide (n ∈ m :: names) = bool_decide (n ∈ names)) as ->.
    { apply bool_decide_ext. rewrite elem_of_cons. tauto. }
    destruct (readable f dir m) as [c|] eqn:Hr; rewrite IH; [|done].
    by rewrite lookup_insert_ne.
Qed.

Lemma diskHashes_lookup (P : Platform) (f : FileSystem) (dir n : string) :
  diskHashes P f dir !! n = diskHash P f dir n.
Proof.
  unfold diskHashes, diskHash. rewrite hashesOf_lookup.
  case_bool_decide; [|done]. by destruct (readable f dir n).
Qed.

Lemma managedFiles_elem (f : FileSystem) (dir n : string) :
  n ∈ managedFiles f dir <->
  endsWith n ".mdc" = true /\ is_Some (lookup_file f dir n).
Proof.
  unfold managedFiles, lookup_file.
  destruct (dirs f !! dir) as [entries|].
  - rewrite list_elem_of_filter. split; intros [He Hin]; (split; [done|]).
    + apply list_elem_of_fmap in Hin as [[k v] [-> Hkv]].
      apply elem_of_map_to_list in Hkv. eauto.
    + destruct Hin as [v Hv]. apply list_elem_of_fmap.
      exists (n, v). split; [done|]. by apply elem_of_map_to_list.
  - split; [by intros ?%elem_of_nil|]. by intros [_ [? ?]].
Qed.

Lemma lookup_probed (f : FileSystem) (dir d n : string) :
  lookup_file (probed f dir) d n =
    if bool_decide (d = dir /\ n = ".write_test") then None
    else lookup_file f d n.
Proof.
  unfold lookup_file, probed, set_dirs. simpl.
  destruct (decide (d = dir)) as [->|Hd].
  - rewrite lookup_insert_eq.
    destruct (decide (n = ".write_test")) as [->|Hn].
    + rewrite bool_decide_eq_true_2 by done. by rewrite lookup_delete_eq.
    + rewrite bool_decide_eq_false_2 by (by intros [_ ?]).
      rewrite lookup_delete_ne by done.
      by destruct (dirs f !! dir).
  - rewrite bool_decide_eq_false_2 by (by intros [? _]).
    by rewrite lookup_insert_ne.
Qed.

Lemma mdc_not_probe (n : string) :
  endsWith n ".mdc" = true -> n <> ".write_test".
Proof. by intros H ->. Qed.

(** The probe neither adds nor removes a managed file. *)
Lemma managedFiles_probed (f : FileSystem) (dir n : string) :
  n ∈ managedFiles (probed f dir) dir <-> n ∈ managedFiles f dir.
Proof.
  rewrite !managedFiles_elem, lookup_probed.
  split; intros [He Hl]; (split; [done|]);
    rewrite bool_decide_eq_false_2 in *; try done;
    intros [_ ->]; by apply mdc_not_probe in He.
Qed.

Lemma readable_probed (f : FileSystem) (dir n : string) :
  n <> ".write_test" -> readable (probed f dir) dir n = readable f dir n.
Proof.
  intros Hn. unfold readable. rewrite lookup_probed.
  by rewrite (bool_decide_eq_false_2 (_ /\ _)) by (by intros [_ ?]).
Qed.

Lemma diskHash_probed (P : Platform) (f : FileSystem) (dir n : string) :
  diskHash P (probed f dir) dir n = diskHash P f dir n.
Proof.
  unfold diskHash.
  assert (bool_decide (n ∈ managedFiles (probed f dir) dir)
          = bool_decide (n ∈ managedFiles f dir)) as ->.
  { apply bool_decide_ext, managedFiles_probed. }
  case_bool_decide as Hin; [|done].
  rewrite readable_probed; [done|].
  apply managedFiles_elem in Hin as [He _]. by apply mdc_not_probe.
Qed.

(** *** [setupProjectRules], one decision at a time *)

Lemma setup_eq (P : Platform) (env : Env) (force backup : bool)
    (by_ wp : option string) (w : World) :
  let dir := resolveRulesDir env wp in
  let w1 := after_probe w dir in
  let files := managedFiles (fs w1) dir in
  let hashes := diskHashes P (fs w1) dir in
  let latestFiles := Db.getLatestRuleFiles (order_by P) (db w) in
  writable (fs w) dir ->
  setupProjectRules P env force backup by_ wp w =
    match decision P env force files hashes latestFiles with
    | NoOp => (w1, Ok AlreadyUpToDate)
    | Warn =>
        (w1, Ok (modificationWarning
                   (Db.getLatestRuleDeployment (order_by P) (db w))
                   latestFiles hashes))
    | Write => rethrow setup_failed (deploy P env dir files backup by_) w1
    end.
Proof.
  intros dir w1 files hashes latestFiles Hw.
  unfold setupProjectRules, rethrow at 1, bind at 1. cbv zeta.
  pose proof (checkWritable_ok (resolveRulesDir env wp) w Hw) as Hc.
  rewrite Hc. fold dir. fold w1.
  unfold bind at 1. rewrite inventory_eq. fold files hashes. cbn [fst snd].
  unfold bind at 1, dbGetLatestRuleDeployment.
  unfold bind at 1, dbGetLatestRuleFiles.
  change (db w1) with (db w). fold latestFiles.
  unfold decision.
  destruct ((0 <? length files) && negb force); [|done].
  destruct (negb (hasChanges hashes latestFiles)
            && negb (hasNewTemplate P env hashes)); [done|].
  by destruct (hasChanges hashes latestFiles).
Qed.

Lemma setup_unwritable (P : Platform) (env : Env) (force backup : bool)
    (by_ wp : option string) (w : World) :
  ~ writable (fs w) (resolveRulesDir env wp) ->
  exists w1 e,
    setupProjectRules P env force backup by_ wp w = (w1, Throw e) /\
    db w1 = db w /\
    (forall d n, lookup_file (fs w1) d n = lookup_file (fs w) d n).
Proof.
  intros Hnw. unfold setupProjectRules, rethrow at 1, bind at 1.
  destruct (checkWritable (resolveRulesDir env wp) w) as [w1 [[]|e]] eqn:Hc.
  - exfalso. apply Hnw. clear Hnw. revert Hc.
    unfold checkWritable, rethrow, bind, mkdir, writeFile, unlink, writable.
    repeat (case_bool_decide || case_match || simplify_eq || intros ?);
      try done.
  - apply checkWritable_throw in Hc as (Hdb & Hl & _). eauto.
Qed.
End EngineFacts.

(* ------------------------------------------------------------------ *)
(** ** Facts about the write path *)

Module WriteFacts.
Import JsString JsStringFacts PosixPath Engine Observe EngineFacts.
Local Open Scope engine_scope.

Lemma fs_frame_refl (dir : string) (f : FileSystem) : fs_frame dir f f.
Proof. by repeat split. Qed.

Lemma fs_frame_trans (dir : string) (f1 f2 f3 : FileSystem) :
  fs_frame dir f1 f2 -> fs_frame dir f2 f3 -> fs_frame dir f1 f3.
Proof.
  intros (Ha & Hb & Hc & Hl1 & He1) (Ha' & Hb' & Hc' & Hl2 & He2).
  unfold fs_frame.
  split_and!; [congruence..| |auto]. intros n. by rewrite Hl2, Hl1.
Qed.

Lemma mkdir_spec (dir d : string) (w w' : World) (r : Result unit) :
  mkdir d w = (w', r) ->
  db w' = db w /\ fs_frame dir (fs w) (fs w') /\
  match r with
  | Ok _ => trace w' = trace w ++ [EvMkdir d] /\ (d ∉ no_mkdir (fs w))
            /\ is_Some (dirs (fs w') !! d)
  | Throw _ => w' = w /\ (d ∈ no_mkdir (fs w))
  end.
Proof.
  unfold mkdir. case_bool_decide as Hm.
  { intros [= <- <-]. split_and!; auto using fs_frame_refl. }
  destruct (dirs (fs w) !! d) as [e|] eqn:Hd; intros [= <- <-]; simpl.
  - split_and!; auto using fs_frame_refl.
  - split_and!; auto; [|by rewrite lookup_insert_eq].
    repeat split; simpl.
    + intros n. unfold lookup_file. simpl.
      destruct (decide (d = dir)) as [->|Hne].
      * by rewrite lookup_insert_eq, Hd.
      * by rewrite lookup_insert_ne.
    + destruct (decide (d = dir)) as [->|Hne].
      * by rewrite lookup_insert_eq.
      * by rewrite lookup_insert_ne.
Qed.

Lemma copyFile_spec (dir n todir : string) (w w' : World) (r : Result unit) :
  copyFile dir n todir n w = (w', r) ->
  db w' = db w /\ fs_frame dir (fs w) (fs w') /\
  (forall d, is_Some (dirs (fs w) !! d) -> is_Some (dirs (fs w') !! d)) /\
  match r with
  | Ok _ => trace w' = trace w ++ [EvCopyFile dir n todir n]
            /\ ~ cannot_copy (fs w) dir todir n
  | Throw _ => w' = w
  end.
Proof.
  unfold copyFile, cannot_copy.
  case_bool_decide as Hr; [intros [= <- <-]; auto using fs_frame_refl|].
  destruct (lookup_file (fs w) dir n) as [c|] eqn:Hl;
    [|intros [= <- <-]; auto using fs_frame_refl].
  case_bool_decide as Hw; [intros [= <- <-]; auto using fs_frame_refl|].
  destruct (dirs (fs w) !! todir) as [e|] eqn:Hd;
    [|intros [= <- <-]; auto using fs_frame_refl].
  intros [= <- <-]. simpl. split_and!; auto; [| |tauto].
  - repeat split; simpl.
    + intros m. unfold lookup_file in *. simpl.
      destruct (decide (todir = dir)) as [->|Hne].
      * rewrite lookup_insert_eq. rewrite Hd in *.
        destruct (decide (m = n)) as [->|Hmn].
        -- by rewrite lookup_insert_eq.
        -- by rewrite lookup_insert_ne.
      * by rewrite lookup_insert_ne.
    + destruct (decide (todir = dir)) as [->|Hne].
      * by rewrite lookup_insert_eq.
      * by rewrite lookup_insert_ne.
  - intros d. destruct (decide (todir = d)) as [->|Hne].
    + by rewrite lookup_insert_eq.
    + by rewrite lookup_insert_ne.
Qed.

Lemma copy_loop_spec (dir todir : string) (names : list string)
    (w w' : World) (r : Result unit) :
  for_each (fun n => copyFile dir n todir n) names w = (w', r) ->
  db w' = db w /\ fs_frame dir (fs w) (fs w') /\
  match r with
  | Ok _ => trace w' = trace w ++ map (fun n => EvCopyFile dir n todir n) names
            /\ Forall (fun n => ~ cannot_copy (fs w) dir todir n) names
  | Throw _ => True
  end.
Proof.
  revert w. induction names as [|n names IH]; intros w.
  { intros [= <- <-]. rewrite app_nil_r. auto using fs_frame_refl. }
  cbn [for_each]. unfold bind at 1.
  destruct (copyFile dir n todir n w) as [w1 [[]|e]] eqn:Hc.
  - apply copyFile_spec in Hc as (Hdb & Hfr & _ & Htr & Hok).
    intros (Hdb' & Hfr' & Hr)%IH. split_and!.
    + congruence.
    + eauto using fs_frame_trans.
    + destruct r; [|done]. destruct Hr as [Htr' Hall]. split.
      * rewrite Htr', Htr. by rewrite <- app_assoc.
      * constructor; [done|]. eapply Forall_impl; [exact Hall|].
        intros m Hm. unfold cannot_copy in *.
        destruct Hfr as (Hnr & Hnw & _). by rewrite Hnr, Hnw in Hm.
  - apply copyFile_spec in Hc as (Hdb & Hfr & _ & ->).
    intros [= <- <-]. auto using fs_frame_refl.
Qed.

Lemma backupFiles_spec (env : Env) (dir : string) (files : list string)
    (w w' : World) (r : Result string) :
  backupFiles env dir files w = (w', r) ->
  db w' = db w /\ fs_frame dir (fs w) (fs w') /\
  match r with
  | Ok bp =>
      bp = backupPathOf env dir /\
      trace w' = trace w ++ EvMkdir bp
                   :: map (fun n => EvCopyFile dir n bp n) files /\
      (bp ∉ no_mkdir (fs w)) /\
      Forall (fun n => ~ cannot_copy (fs w) dir bp n) files
  | Throw _ => True
  end.
Proof.
  unfold backupFiles. fold (backupPathOf env dir).
  set (bp := backupPathOf env dir).
  unfold bind at 1.
  destruct (mkdir bp w) as [w1 [[]|e]] eqn:Hm.
  - apply (mkdir_spec dir) in Hm as (Hdb & Hfr & Htr & Hnm & _).
    unfold bind at 1.
    destruct (for_each _ files w1) as [w2 [[]|e]] eqn:Hl.
    + apply copy_loop_spec in Hl as (Hdb' & Hfr' & Htr' & Hall).
      intros [= <- <-]. split_and!; try congruence.
      * eauto using fs_frame_trans.
      * rewrite Htr', Htr. by rewrite <- app_assoc.
      * eapply Forall_impl; [exact Hall|]. intros m Hc.
        unfold cannot_copy in *.
        destruct Hfr as (Hnr & Hnw & _). by rewrite Hnr, Hnw in Hc.
    + apply copy_loop_spec in Hl as (Hdb' & Hfr' & _).
      intros [= <- <-].
      split_and!; [congruence|eauto using fs_frame_trans|done].
  - apply (mkdir_spec dir) in Hm as (Hdb & Hfr & -> & _).
    intros [= <- <-]. auto using fs_frame_refl.
Qed.

(** *** Writing and recording the rules *)

Lemma written_into_nil (f : FileSystem) (dir : string) :
  written_into f dir [] = f.
Proof.
  unfold written_into. destruct (dirs f !! dir) as [e|] eqn:Hd; simpl.
  - rewrite insert_id by done. apply set_dirs_id.
  - apply set_dirs_id.
Qed.

Lemma written_into_cons (f : FileSystem) (dir : string) (rule : CursorRule)
    (rules : list CursorRule) (e : gmap string string) :
  dirs f !! dir = Some e ->
  written_into
    (set_dirs f (<[dir := <[rule_filename rule := rule_content rule]> e]>
                   (dirs f)))
    dir rules
  = written_into f dir (rule :: rules).
Proof.
  intros Hd. unfold written_into, set_dirs. simpl.
  by rewrite lookup_insert_eq, Hd, insert_insert_eq.
Qed.

Lemma writeFile_spec (dir n c : string) (w w' : World) (r : Result unit) :
  writeFile dir n c w = (w', r) ->
  match r with
  | Ok _ =>
      exists e, dirs (fs w) !! dir = Some e /\ ((dir, n) ∉ no_write (fs w)) /\
        w' = with_fs w (set_dirs (fs w) (<[dir := <[n := c]> e]> (dirs (fs w))))
                     (EvWriteFile dir n c)
  | Throw _ =>
      w' = w /\ (((dir, n) ∈ no_write (fs w)) \/ dirs (fs w) !! dir = None)
  end.
Proof.
  unfold writeFile. case_bool_decide as Hw; [intros [= <- <-]; auto|].
  destruct (dirs (fs w) !! dir) as [e|]; intros [= <- <-]; eauto.
Qed.

Lemma writeRules_spec (P : Platform) (env : Env) (dir : string) (i : N)
    (rules : list CursorRule) (acc : list string) (w w' : World)
    (r : Result (list string)) :
  writeRules P env dir i rules acc w = (w', r) ->
  exists k,
    db w' = fold_left (recordFile P env i) (take k rules) (db w) /\
    trace w' = trace w ++ flat_map (write_events P env dir i) (take k rules) /\
    fs w' = written_into (fs w) dir (take k rules) /\
    match r with
    | Ok files => k = length rules /\ files = acc ++ map rule_filename rules
    | Throw _ => k < length rules
    end.
Proof.
  revert acc w. induction rules as [|rule rules IH]; intros acc w.
  { intros [= <- <-]. exists 0. simpl.
    by rewrite !app_nil_r, written_into_nil. }
  cbn [writeRules]. unfold bind at 1, rethrow.
  destruct (writeFile dir (rule_filename rule) (rule_content rule) w)
    as [w1 [[]|e]] eqn:Hw; apply writeFile_spec in Hw.
  - destruct Hw as (e & Hd & Hnw & ->).
    unfold bind at 1, dbStoreRuleFile. cbn [fst snd].
    intros (k & Hdb & Htr & Hfs & Hr)%IH. exists (S k).
    cbn [take fold_left flat_map]. split_and!.
    + exact Hdb.
    + rewrite Htr. cbn [with_db with_fs trace].
      unfold write_events at 3, desiredHash. cbn [app].
      by rewrite <- !app_assoc.
    + rewrite Hfs. cbn [with_db with_fs fs]. by apply written_into_cons.
    + destruct r as [files|]; [|simpl; lia].
      destruct Hr as [-> ->]. split; [done|].
      by rewrite <- app_assoc.
  - destruct Hw as [-> _]. intros [= <- <-]. exists 0. simpl.
    rewrite app_nil_r, written_into_nil. split_and!; auto. lia.
Qed.

Lemma written_snoc (rules : list CursorRule) (rule : CursorRule)
    (e : gmap string string) :
  written (rules ++ [rule]) e
  = <[rule_filename rule := rule_content rule]> (written rules e).
Proof. unfold written. by rewrite fold_left_app. Qed.

Lemma written_union (rules : list CursorRule) (e : gmap string string) :
  written rules e = written rules ∅ ∪ e.
Proof.
  induction rules as [|rule rules IH] using rev_ind.
  { unfold written. simpl. by rewrite (left_id_L ∅ (∪)). }
  by rewrite !written_snoc, IH, insert_union_l.
Qed.

Lemma written_elem (rules : list CursorRule) (rule : CursorRule)
    (e : gmap string string) :
  rule ∈ rules -> is_Some (written rules e !! rule_filename rule).
Proof.
  induction rules as [|r0 rules IH] using rev_ind;
    [by intros ?%elem_of_nil|].
  rewrite written_snoc. intros [Hin| ->%list_elem_of_singleton]%elem_of_app.
  - destruct (decide (rule_filename r0 = rule_filename rule)) as [->|Hne].
    + rewrite lookup_insert_eq. eauto.
    + rewrite lookup_insert_ne by done. auto.
  - rewrite lookup_insert_eq. eauto.
Qed.

(** With distinct names every rule is on disk with its own content. *)
Lemma written_own (rules : list CursorRule) (rule : CursorRule)
    (e : gmap string string) :
  NoDup (map rule_filename rules) -> rule ∈ rules ->
  written rules e !! rule_filename rule = Some (rule_content rule).
Proof.
  induction rules as [|r0 rules IH] using rev_ind;
    [by intros _ ?%elem_of_nil|].
  rewrite map_app, written_snoc. simpl.
  intros [Hnd [Hdisj _]]%NoDup_app [Hin| ->%list_elem_of_singleton]%elem_of_app.
  - rewrite lookup_insert_ne; [by apply IH|].
    intros Heq. apply (Hdisj (rule_filename rule)).
    + by apply list_elem_of_fmap_2.
    + rewrite <- Heq. set_solver.
  - by rewrite lookup_insert_eq.
Qed.

(** Only names of rules are written. *)
Lemma written_only (rules : list CursorRule) (n : string)
    (e : gmap string string) :
  n ∉ map rule_filename rules -> written rules e !! n = e !! n.
Proof.
  induction rules as [|r0 rules IH] using rev_ind; [done|].
  rewrite map_app, written_snoc. simpl.
  intros [Hn1 Hn2]%not_elem_of_app.
  rewrite lookup_insert_ne; [by apply IH|].
  intros Heq. apply Hn2. rewrite Heq. apply list_elem_of_here.
Qed.

Lemma lookup_written_into (f : FileSystem) (dir : string)
    (rules : list CursorRule) (n : string) :
  is_Some (dirs f !! dir) ->
  lookup_file (written_into f dir rules) dir n =
    match written rules ∅ !! n with
    | Some c => Some c
    | None => lookup_file f dir n
    end.
Proof.
  intros [e He]. unfold lookup_file, written_into, set_dirs. simpl.
  rewrite He, lookup_insert_eq, written_union, lookup_union.
  destruct (written rules ∅ !! n), (e !! n); done.
Qed.


Lemma newHashes_written (P : Platform) (env : Env) :
  newHashes P env = generateHash P <$> written (newRules P env) ∅.
Proof.
  unfold newHashes, written.
  rewrite <- (fmap_empty (generateHash P)) at 1.
  generalize (∅ : gmap string string) as e.
  induction (newRules P env) as [|rule rules IH]; intros e; [done|].
  simpl. rewrite <- fmap_insert. apply IH.
Qed.

Lemma desiredHash_own (P : Platform) (env : Env) (rule : CursorRule) :
  NoDup (map rule_filename (newRules P env)) -> rule ∈ newRules P env ->
  desiredHash P env (rule_filename rule) = generateHash P (rule_content rule).
Proof.
  intros Hnd Hin. unfold desiredHash.
  by rewrite newHashes_written, lookup_fmap, (written_own _ _ _ Hnd Hin).
Qed.

(** *** Verifying the written files *)

Lemma verifyRules_ok (dir : string) (names : list string) (w : World) :
  Forall (fun n => is_Some (lookup_file (fs w) dir n)) names ->
  verifyRules dir names w =
    ({| fs := fs w; db := db w;
        trace := trace w ++ map (EvAccess dir) names |}, Ok tt).
Proof.
  unfold verifyRules. revert w.
  induction names as [|n names IH]; intros w Hall.
  { simpl. rewrite app_nil_r. by destruct w. }
  apply Forall_cons in Hall as [[c Hc] Hall].
  cbn [for_each]. unfold bind at 1, rethrow, access. rewrite Hc.
  rewrite IH by done. simpl. by rewrite <- app_assoc.
Qed.

(** *** The write path as a whole *)

Lemma deploy_ok (P : Platform) (env : Env) (dir : string)
    (files : list string) (backup : bool) (by_ : option string)
    (w w' : World) (o : Outcome) :
  deploy P env dir files backup by_ w = (w', Ok o) ->
  let i := Db.next_id (map Db.id (Db.rule_deployments (db w))) in
  let total := N.of_nat (length (newRules P env)) in
  let bp := backup_of env dir files backup in
  exists wb fid,
    fs_frame dir (fs w) (fs wb) /\
    is_Some (dirs (fs wb) !! dir) /\
    fs w' = written_into (fs wb) dir (newRules P env) /\
    db w' = db_deployed P env by_ bp (db w) /\
    trace w' =
      trace w ++ [EvMkdir dir] ++ backup_events env dir files backup
        ++ [EvStoreRuleDeployment i total]
        ++ flat_map (write_events P env dir i) (newRules P env)
        ++ map (EvAccess dir) (map rule_filename (newRules P env))
        ++ [EvStoreFact fid "project-setup"] /\
    o = Deployed (0 <? length files) i total (or_default by_ "Unknown") bp
          (map rule_filename (newRules P env)) /\
    (backup && (0 <? length files) = true ->
     (backupPathOf env dir ∉ no_mkdir (fs w)) /\
     Forall (fun n => ~ cannot_copy (fs w) dir (backupPathOf env dir) n) files).
Proof.
  intros Hd i total bp. revert Hd. unfold deploy. unfold bind at 1.
  destruct (mkdir dir w) as [w0 [[]|e]] eqn:Hm; [|done].
  apply (mkdir_spec dir) in Hm as (Hdb0 & Hfr0 & Htr0 & Hnm0 & Hex0).
  unfold bind at 1.
  destruct ((if backup && (0 <? length files)
             then bp0 <- backupFiles env dir files;; ret (Some bp0)
             else ret None) w0) as [wb [obp|e]] eqn:Hb; [|done].
  assert (db wb = db w /\ fs_frame dir (fs w) (fs wb) /\
          is_Some (dirs (fs wb) !! dir) /\ obp = bp /\
          trace wb = trace w ++ [EvMkdir dir]
                       ++ backup_events env dir files backup /\
          (backup && (0 <? length files) = true ->
           (backupPathOf env dir ∉ no_mkdir (fs w)) /\
           Forall (fun n => ~ cannot_copy (fs w) dir (backupPathOf env dir) n)
                  files))
    as (Hdbb & Hfrb & Hexb & -> & Htrb & Hcp).
  { unfold bp, backup_of, backup_events. revert Hb.
    destruct (backup && (0 <? length files)).
    - unfold bind at 1.
      destruct (backupFiles env dir files w0) as [w1 [b|e]] eqn:Hbk; [|done].
      intros [= <- <-].
      apply backupFiles_spec in Hbk as (Hdb1 & Hfr1 & -> & Htr1 & Hnm1 & Hall).
      destruct Hfr0 as (Hnr & Hnw & Hnmk & Hl0 & He0).
      split_and!; [congruence| | |done| |].
      + eapply fs_frame_trans; [|exact Hfr1]. by repeat split.
      + destruct Hfr1 as (_ & _ & _ & _ & He1). by apply He1.
      + rewrite Htr1, Htr0. by rewrite <- app_assoc.
      + intros _. split; [by rewrite <- Hnmk|].
        eapply Forall_impl; [exact Hall|]. intros n Hn.
        unfold cannot_copy in *. by rewrite Hnr, Hnw in Hn.
    - intros [= <- <-]. split_and!; auto. done. }
  unfold bind at 1, dbStoreRuleDeployment. cbn [fst snd].
  rewrite Hdbb. fold i total.
  set (r := Db.storeRuleDeployment _ _ _ _ _ _).
  unfold bind at 1.
  destruct (writeRules P env dir (fst r) (newRules P env) [] _)
    as [w2 [deployedFiles|e]] eqn:Hwr; [|done].
  apply writeRules_spec in Hwr as (k & Hdb2 & Htr2 & Hfs2 & -> & ->).
  rewrite firstn_all in *. cbn [with_db fs db trace] in *.
  unfold bind at 1. cbn [app].
  rewrite verifyRules_ok; cycle 1.
  { apply Forall_forall. intros n [rule [-> Hin]]%list_elem_of_fmap.
    rewrite Hfs2, lookup_written_into by done.
    destruct (written_elem _ _ ∅ Hin) as [c ->]. eauto. }
  unfold bind at 1, dbStoreFact. cbn [fst snd fs db trace with_db].
  intros [= <- <-]. eexists wb, _. cbn [fs db trace].
  split_and!; try done.
  - by rewrite Hdb2.
  - rewrite Htr2, Htrb. cbn [with_db trace].
    rewrite <- !app_assoc. reflexivity.
Qed.
End WriteFacts.

(* ------------------------------------------------------------------ *)
(** ** Facts about the store *)

Module StoreFacts.
Import JsString Engine Observe.

Lemma next_id_above (ids : list N) (x : N) :
  x ∈ ids -> (x < Db.next_id ids)%N.
Proof.
  unfold Db.next_id. induction ids as [|y ids IH]; [by intros ?%elem_of_nil|].
  intros [->|Hin]%elem_of_cons; simpl; [lia|].
  specialize (IH Hin). lia.
Qed.

Lemma fold_recordFile (P : Platform) (env : Env) (i : N)
    (rules : list CursorRule) (d : Db.Database) :
  let d' := fold_left (recordFile P env i) rules d in
  Db.facts d' = Db.facts d /\
  Db.rule_deployments d' = Db.rule_deployments d /\
  exists recs,
    Db.rule_files d' = Db.rule_files d ++ recs /\
    map row_key recs
    = map (fun rule => (i, rule_filename rule,
                        desiredHash P env (rule_filename rule))) rules.
Proof.
  revert d. induction rules as [|rule rules IH]; intros d; simpl.
  { split_and!; [done..|]. exists []. by rewrite app_nil_r. }
  destruct (IH (recordFile P env i d rule)) as (Hf & Hd & recs & Hr & Hk).
  split_and!; [by rewrite Hf|by rewrite Hd|].
  eexists (_ :: recs). split.
  - rewrite Hr. unfold recordFile. simpl. by rewrite <- app_assoc.
  - simpl. by rewrite Hk.
Qed.

Lemma db_deployed_shape (P : Platform) (env : Env) (by_ bp : option string)
    (d : Db.Database) :
  let i := Db.next_id (map Db.id (Db.rule_deployments d)) in
  let d' := db_deployed P env by_ bp d in
  (exists row,
     Db.facts d' = Db.facts d ++ [row] /\
     Db.category row = "project-setup" /\
     Db.tags row = ["cursor-rules"; "deployment"; "project-setup";
                    "mdc-format"]) /\
  Db.rule_deployments d'
    = Db.rule_deployments d ++
        [{| Db.id := i; Db.templateVersion := TEMPLATE_VERSION;
            Db.deployedAt := current_timestamp env; Db.deployedBy := by_;
            Db.totalFiles := N.of_nat (length (newRules P env));
            Db.backupPath := bp |}] /\
  exists recs,
    Db.rule_files d' = Db.rule_files d ++ recs /\
    map row_key recs
    = map (fun rule => (i, rule_filename rule,
                        desiredHash P env (rule_filename rule)))
          (newRules P env).
Proof.
  intros i d'. unfold d', db_deployed. cbn [Db.storeFact snd fst].
  set (d1 := Db.storeRuleDeployment _ _ _ _ _ d).
  destruct (fold_recordFile P env (fst d1) (newRules P env) (snd d1))
    as (Hf & Hd & recs & Hr & Hk).
  cbn [Db.facts Db.rule_deployments Db.rule_files].
  split_and!.
  - eexists. split; [by rewrite Hf|done].
  - by rewrite Hd.
  - exists recs. by rewrite Hr.
Qed.
End StoreFacts.

(* ------------------------------------------------------------------ *)
(** ** The shipped templates and the dispatcher *)

Module Templates.
Import JsString JsStringFacts Engine Observe.

Lemma shipped_filenames_managed :
  Forall (fun n => endsWith n ".mdc" = true) shipped_filenames
  /\ NoDup shipped_filenames.
Proof.
  split; [by repeat constructor|].
  by apply (bool_decide_unpack _).
Qed.

(** Templates with the shipped names and bodies free of the timestamp
    token are of the kind the idempotence result asks for. *)
Lemma shipped_templates_static (P : Platform) :
  map rule_filename (CURSOR_RULES_TEMPLATES P) = shipped_filenames ->
  Forall (fun t => occurs "{timestamp}" (rule_content t) = false)
         (CURSOR_RULES_TEMPLATES P) ->
  templates_static P /\
  CURSOR_RULES_TEMPLATES P <> [] /\
  NoDup (map rule_filename (CURSOR_RULES_TEMPLATES P)).
Proof.
  intros Hnames Hbodies. destruct shipped_filenames_managed as [Hm Hnd].
  split_and!.
  - unfold templates_static. apply Forall_forall. intros t Hin. split.
    + rewrite Forall_forall in Hm. apply Hm. rewrite <- Hnames.
      by apply list_elem_of_fmap_2.
    + rewrite Forall_forall in Hbodies. by apply Hbodies.
  - intros Hnil. by rewrite Hnil in Hnames.
  - by rewrite Hnames.
Qed.

(** Left out, [force_update] is false and [backup_existing] is true. *)
Lemma callSetupProjectRules_defaults (P : Platform) (env : Env)
    (deployed_by workspace_path : option string) :
  callSetupProjectRules P env None None deployed_by workspace_path
  = setupProjectRules P env false true deployed_by workspace_path.
Proof. reflexivity. Qed.

Lemma callSetupProjectRules_no_backup (P : Platform) (env : Env)
    (force : bool) (deployed_by workspace_path : option string) :
  callSetupProjectRules P env (Some force) (Some false) deployed_by
    workspace_path
  = setupProjectRules P env force false deployed_by workspace_path.
Proof. reflexivity. Qed.

End Templates.

(* ------------------------------------------------------------------ *)
(** ** Where the rules directory is *)

Module Resolution.
Import JsString JsStringFacts PosixPath PosixPathFacts Engine Observe.



Example join_drops_the_trailing_separator :
  join_path ["/srv/app/"; ".cursor"; "rules"] = "/srv/app/.cursor/rules".
Proof. reflexivity. Qed.

Example join_resolves_dots :
  join_path ["/srv/./app/../web"; ".cursor"; "rules"]
  = "/srv/web/.cursor/rules".
Proof. reflexivity. Qed.

Example join_keeps_leading_parents :
  join_path ["../.."; ".cursor"; "rules"] = "../../.cursor/rules".
Proof. reflexivity. Qed.

(** The test is on the characters: a trailing separator hides the suffix. *)
Example suffix_behind_a_separator_is_not_seen :
  resolveRulesDir Fixtures.env1 (Some "/srv/app/.cursor/rules/")
  = "/srv/app/.cursor/rules/.cursor/rules".
Proof. reflexivity. Qed.


End Resolution.

(* ------------------------------------------------------------------ *)
(** ** The classification: up to date, warning, or write *)

Module Classification.
Import JsString JsStringFacts PosixPath Engine Observe EngineFacts WriteFacts.
Local Open Scope engine_scope.

Lemma existsb_true {A : Type} (f : A -> bool) (l : list A) (x : A) :
  x ∈ l -> f x = true -> existsb f l = true.
Proof.
  intros Hin Hf. apply existsb_exists. exists x.
  split; [by apply list_elem_of_In|done].
Qed.

Lemma existsb_false {A : Type} (f : A -> bool) (l : list A) :
  existsb f l = false <-> forall x, x ∈ l -> f x = false.
Proof.
  split.
  - intros H x Hin. destruct (f x) eqn:E; [|done].
    by rewrite (existsb_true f l x Hin E) in H.
  - intros H. destruct (existsb f l) eqn:E; [|done].
    apply existsb_exists in E as (x & Hin%list_elem_of_In & Hx).
    by rewrite (H x Hin) in Hx.
Qed.

Lemma nonempty_length {A : Type} (l : list A) (x : A) :
  x ∈ l -> (0 <? length l) = true.
Proof. destruct l; [by intros ?%elem_of_nil|done]. Qed.

(** A file without a hash in the inventory is never counted as modified. *)
Lemma isModified_absent (hashes : gmap string string) (rf : Db.RuleFile) :
  hashes !! Db.filename rf = None -> isModified hashes rf = false.
Proof. unfold isModified. by intros ->. Qed.

Lemma isModified_true (hashes : gmap string string) (rf : Db.RuleFile) :
  isModified hashes rf = true <->
  exists h, hashes !! Db.filename rf = Some h /\ truthy h = true
            /\ h <> Db.contentHash rf.
Proof.
  unfold isModified. destruct (hashes !! Db.filename rf) as [h|]; simpl.
  - rewrite andb_true_iff, negb_true_iff, bool_decide_eq_false.
    split.
    + intros [Ht Hne]. exists h. split_and!; [done..|]. congruence.
    + intros (h' & [= <-] & Ht & Hne). split; [done|]. congruence.
  - split; [done|]. by intros (h & ? & _).
Qed.

Lemma isOutdated_false (P : Platform) (env : Env)
    (hashes : gmap string string) (rule : CursorRule) :
  isOutdated P env hashes rule = false <->
  exists h, hashes !! rule_filename rule = Some h /\ truthy h = true
            /\ newHashes P env !! rule_filename rule = Some h.
Proof.
  unfold isOutdated. destruct (hashes !! rule_filename rule) as [h|]; simpl.
  - rewrite orb_false_iff, !negb_false_iff, bool_decide_eq_true.
    split.
    + intros [Ht Heq]. eauto.
    + intros (h' & [= <-] & Ht & Hn). done.
  - split; [done|]. by intros (h & ? & _).
Qed.

Lemma deploy_outcome (P : Platform) (env : Env) (dir : string)
    (files : list string) (backup : bool) (by_ : option string)
    (w w' : World) (o : Outcome) :
  deploy P env dir files backup by_ w = (w', Ok o) -> is_deployed o = true.
Proof. intros (wb & fid & _ & _ & _ & _ & _ & -> & _)%deploy_ok. done. Qed.

Lemma rethrow_ok {A : Type} (wrap : string -> string) (m : M A)
    (w w' : World) (a : A) :
  rethrow wrap m w = (w', Ok a) <-> m w = (w', Ok a).
Proof.
  unfold rethrow. destruct (m w) as [w1 [a1|e]]; split; congruence.
Qed.

(** C6: a managed file whose hash on disk differs from the hash the latest
    deployment recorded for it makes an unforced call end in the
    modification warning: the warning names the file and carries the
    latest deployment's timestamp and actor, the store is left as it was
    and no file of the rules directory is touched (the probe file apart). *)
Theorem drift_is_reported (P : Platform) (env : Env) (backup : bool)
    (by_ wp : option string) (w : World) (A content : string)
    (rf : Db.RuleFile) :
  let dir := resolveRulesDir env wp in
  writable (fs w) dir ->
  endsWith A ".mdc" = true ->
  readable (fs w) dir A = Some content ->
  truthy (generateHash P content) = true ->
  rf ∈ Db.getLatestRuleFiles (order_by P) (db w) ->
  Db.filename rf = A ->
  generateHash P content <> Db.contentHash rf ->
  exists w1 latest files,
    setupProjectRules P env false backup by_ wp w
      = (w1, Ok (ModificationWarning
                   (or_default (Some (Db.deployedAt latest)) "Unknown")
                   (or_default (Db.deployedBy latest) "Unknown")
                   files)) /\
    Db.getLatestRuleDeployment (order_by P) (db w) = Some latest /\
    A ∈ files /\
    db w1 = db w /\
    (forall n, n <> ".write_test" ->
               lookup_file (fs w1) dir n = lookup_file (fs w) dir n) /\
    trace w1 = trace w ++ [EvMkdir dir; EvWriteFile dir ".write_test" "test";
                           EvUnlink dir ".write_test"].
Proof.
  intros dir Hw HA Hread Htr Hrf Hname Hne.
  pose proof (setup_eq P env false backup by_ wp w Hw) as Heq.
  cbv zeta in Heq. fold dir in Heq.
  set (w1 := after_probe w dir) in *.
  set (hashes := diskHashes P (fs w1) dir) in *.
  set (latestFiles := Db.getLatestRuleFiles (order_by P) (db w)) in *.
  assert (A ∈ managedFiles (fs w1) dir) as Hin.
  { apply managedFiles_probed, managedFiles_elem. split; [done|].
    unfold readable in Hread. case_bool_decide; [done|]. by rewrite Hread. }
  assert (hashes !! A = Some (generateHash P content)) as Hh.
  { unfold hashes. rewrite diskHashes_lookup. unfold w1, after_probe. simpl.
    rewrite diskHash_probed. unfold diskHash.
    rewrite bool_decide_eq_true_2; [by rewrite Hread|].
    by apply managedFiles_probed. }
  assert (isModified hashes rf = true) as Hmod.
  { apply isModified_true. rewrite Hname. eauto. }
  assert (hasChanges hashes latestFiles = true) as Hch.
  { by apply (existsb_true _ _ rf). }
  assert (decision P env false (managedFiles (fs w1) dir) hashes latestFiles
          = Warn) as Hdec.
  { unfold decision. rewrite (nonempty_length _ A Hin), Hch. done. }
  rewrite Hdec in Heq.
  destruct (Db.getLatestRuleDeployment (order_by P) (db w))
    as [latest|] eqn:Hl; cycle 1.
  { exfalso. unfold latestFiles, Db.getLatestRuleFiles in Hrf.
    rewrite Hl in Hrf. by apply elem_of_nil in Hrf. }
  exists w1, latest, (map Db.filename
                   (filter (fun rf => isModified hashes rf = true) latestFiles)).
  split_and!; try done.
  - rewrite <- Hname. apply list_elem_of_fmap_2, list_elem_of_filter. done.
  - intros n Hn. unfold w1, after_probe. simpl. rewrite lookup_probed.
    by rewrite bool_decide_eq_false_2 by (by intros [_ ?]).
Qed.

Lemma drift_is_reported_witness :
  exists w1 latest files,
    setupProjectRules Fixtures.demo Fixtures.env2 false true None None
      Fixtures.edited
      = (w1, Ok (ModificationWarning
                   (or_default (Some (Db.deployedAt latest)) "Unknown")
                   (or_default (Db.deployedBy latest) "Unknown")
                   files)) /\
    Db.getLatestRuleDeployment Db.stable_order_by (db Fixtures.edited)
      = Some latest /\
    "a.mdc" ∈ files /\
    db w1 = db Fixtures.edited /\
    (forall n, n <> ".write_test" ->
               lookup_file (fs w1) Fixtures.rules_dir n
               = lookup_file (fs Fixtures.edited) Fixtures.rules_dir n) /\
    trace w1 = trace Fixtures.edited
                 ++ [EvMkdir Fixtures.rules_dir;
                     EvWriteFile Fixtures.rules_dir ".write_test" "test";
                     EvUnlink Fixtures.rules_dir ".write_test"].
Proof.
  apply (drift_is_reported Fixtures.demo Fixtures.env2 true None None
           Fixtures.edited "a.mdc" "ALPHA"
           {| Db.file_id := 1; Db.deploymentId := 1; Db.filename := "a.mdc";
              Db.contentHash := "sha256:alpha";
              Db.file_deployedAt := "2024-01-01 10:00:00" |}).
  - split; vm_compute; set_solver.
  - reflexivity.
  - reflexivity.
  - reflexivity.
  - vm_compute. apply list_elem_of_here.
  - reflexivity.
  - discriminate.
Defined.

Lemma nonempty_elem {A : Type} (l : list A) :
  l <> [] <-> exists x, x ∈ l.
Proof.
  destruct l as [|x l]; split; try done.
  - by intros [x ?%elem_of_nil].
  - intros _. exists x. apply list_elem_of_here.
Qed.

Lemma managedFiles_probed_nonempty (f : FileSystem) (dir : string) :
  (0 <? length (managedFiles (probed f dir) dir)) = true
  <-> managedFiles f dir <> [].
Proof.
  rewrite nonempty_elem. split.
  - destruct (managedFiles (probed f dir) dir) as [|x l] eqn:E; [done|].
    intros _. exists x. apply managedFiles_probed. rewrite E.
    apply list_elem_of_here.
  - intros [x Hx%managedFiles_probed]. by apply (nonempty_length _ x).
Qed.

(** C3 (as the code has it): an unforced call reports "already up to
    date" exactly when the inventory is not empty, every rendered
    template's desired hash equals the hash found on disk for it, and no
    file recorded by the latest deployment is on disk with another hash
    than the recorded one. *)
Theorem up_to_date_iff (P : Platform) (env : Env) (backup : bool)
    (by_ wp : option string) (w : World) :
  let dir := resolveRulesDir env wp in
  writable (fs w) dir ->
  (exists w1, setupProjectRules P env false backup by_ wp w
              = (w1, Ok AlreadyUpToDate))
  <->
  (managedFiles (fs w) dir <> [] /\
   (forall rule, rule ∈ newRules P env ->
      exists h, diskHash P (fs w) dir (rule_filename rule) = Some h /\
                truthy h = true /\
                newHashes P env !! rule_filename rule = Some h) /\
   (forall rf h, rf ∈ Db.getLatestRuleFiles (order_by P) (db w) ->
      diskHash P (fs w) dir (Db.filename rf) = Some h ->
      truthy h = true -> h = Db.contentHash rf)).
Proof.
  intros dir Hw.
  pose proof (setup_eq P env false backup by_ wp w Hw) as Heq.
  cbv zeta in Heq. fold dir in Heq. rewrite Heq. clear Heq.
  set (w1 := after_probe w dir).
  set (hashes := diskHashes P (fs w1) dir).
  set (latestFiles := Db.getLatestRuleFiles (order_by P) (db w)).
  assert (forall n, hashes !! n = diskHash P (fs w) dir n) as Hh.
  { intros n. unfold hashes. rewrite diskHashes_lookup.
    apply diskHash_probed. }
  assert (hasChanges hashes latestFiles = false <->
          forall rf h, rf ∈ latestFiles ->
            diskHash P (fs w) dir (Db.filename rf) = Some h ->
            truthy h = true -> h = Db.contentHash rf) as Hch.
  { unfold hasChanges. rewrite existsb_false. split.
    - intros H rf h Hin Hd Ht. specialize (H rf Hin).
      destruct (decide (h = Db.contentHash rf)) as [|Hne]; [done|].
      assert (isModified hashes rf = true) as Hm.
      { apply isModified_true. exists h. by rewrite Hh. }
      congruence.
    - intros H rf Hin. destruct (isModified hashes rf) eqn:E; [|done].
      apply isModified_true in E as (h & Hl & Ht & Hne).
      rewrite Hh in Hl. by specialize (H rf h Hin Hl Ht). }
  assert (hasNewTemplate P env hashes = false <->
          forall rule, rule ∈ newRules P env ->
            exists h, diskHash P (fs w) dir (rule_filename rule) = Some h /\
                      truthy h = true /\
                      newHashes P env !! rule_filename rule = Some h) as Hnt.
  { unfold hasNewTemplate. rewrite existsb_false. split.
    - intros H rule Hin. specialize (H rule Hin).
      apply isOutdated_false in H as (h & Hl & Ht & Hn).
      exists h. by rewrite <- Hh.
    - intros H rule Hin. apply isOutdated_false.
      destruct (H rule Hin) as (h & Hl & Ht & Hn). exists h.
      by rewrite Hh. }
  unfold decision. simpl negb. rewrite andb_true_r.
  pose proof (managedFiles_probed_nonempty (fs w) dir) as Hne.
  change (fs w1) with (probed (fs w) dir).
  destruct (0 <? length (managedFiles (probed (fs w) dir) dir)) eqn:Elen.
  - destruct (hasChanges hashes latestFiles) eqn:Ec; simpl.
    + split; [by intros [? [=]]|].
      intros (_ & _ & H3). apply Hch in H3. done.
    + destruct (hasNewTemplate P env hashes) eqn:En; simpl.
      * split.
        -- intros [w2 H]. apply rethrow_ok, deploy_outcome in H. done.
        -- intros (_ & H2 & _). apply Hnt in H2. done.
      * split; [|by eauto]. intros _. split_and!.
        -- by apply Hne.
        -- by apply Hnt.
        -- by apply Hch.
  - split.
    + intros [w2 H]. apply rethrow_ok, deploy_outcome in H. done.
    + intros (H1 & _). apply Hne in H1. done.
Qed.

Lemma up_to_date_iff_witness :
  (exists w1, setupProjectRules Fixtures.demo Fixtures.env2 false true None None
                Fixtures.deployed_once = (w1, Ok AlreadyUpToDate)).
Proof.
  apply (up_to_date_iff Fixtures.demo Fixtures.env2 true None None
           Fixtures.deployed_once).
  - split; vm_compute; set_solver.
  - split_and!.
    + by vm_compute.
    + intros rule Hin. vm_compute in Hin.
      inversion Hin as [|? ? ? Hin2]; subst;
        [|inversion Hin2 as [|? ? ? Hin3]; subst; [|inversion Hin3]];
        eexists; split_and!; reflexivity.
    + intros rf h Hin. vm_compute in Hin.
      inversion Hin as [|? ? ? Hin2]; subst;
        [|inversion Hin2 as [|? ? ? Hin3]; subst; [|inversion Hin3]];
        intros Hd; vm_compute in Hd; by injection Hd as <-.
Defined.

(** C3, the case the specification singles out: [a.mdc] on disk equals
    the rendered template, every other file matches too, yet the latest
    deployment recorded another hash for [a.mdc]; the call warns, it does
    not report "up to date". *)
Lemma matching_disk_with_stale_record_warns :
  hasNewTemplate Fixtures.demo Fixtures.env2
    (diskHashes Fixtures.demo (fs Fixtures.stale_record) Fixtures.rules_dir)
    = false /\
  snd (setupProjectRules Fixtures.demo Fixtures.env2 false true None None
         Fixtures.stale_record)
    = Ok (ModificationWarning "2023-12-01 08:00:00" "ann" ["a.mdc"]) /\
  snd (setupProjectRules Fixtures.demo Fixtures.env2 false true None None
         Fixtures.stale_record)
    <> Ok AlreadyUpToDate.
Proof. split_and!; [by vm_compute..|]. vm_compute. discriminate. Qed.

(** C10 (as the code has it): a file the latest deployment recorded but
    for which the inventory has no hash (absent, unreadable, or not a
    managed name) is never counted as modified and never listed in a
    warning; when it is one of the rendered templates and no other
    recorded file was modified, the unforced call takes the write path. *)
Theorem absent_file_never_drifts (P : Platform) (env : Env) (backup : bool)
    (by_ wp : option string) (w : World) (F : string) :
  let dir := resolveRulesDir env wp in
  let w1 := after_probe w dir in
  let hashes := diskHashes P (fs w1) dir in
  let latestFiles := Db.getLatestRuleFiles (order_by P) (db w) in
  writable (fs w) dir ->
  managedFiles (fs w) dir <> [] ->
  diskHash P (fs w) dir F = None ->
  (forall rf, rf ∈ latestFiles -> Db.filename rf = F ->
              isModified hashes rf = false) /\
  (forall w2 o, setupProjectRules P env false backup by_ wp w = (w2, Ok o) ->
                F ∉ warned_files o) /\
  (F ∈ map rule_filename (newRules P env) ->
   hasChanges hashes latestFiles = false ->
   setupProjectRules P env false backup by_ wp w
     = rethrow setup_failed
         (deploy P env dir (managedFiles (fs w1) dir) backup by_) w1).
Proof.
  intros dir w1 hashes latestFiles Hw Hne Habs.
  assert (hashes !! F = None) as Hh.
  { unfold hashes. rewrite diskHashes_lookup. unfold w1, after_probe. simpl.
    by rewrite diskHash_probed. }
  pose proof (setup_eq P env false backup by_ wp w Hw) as Heq.
  cbv zeta in Heq. fold dir w1 hashes latestFiles in Heq.
  assert ((0 <? length (managedFiles (fs w1) dir)) = true) as Hlen.
  { by apply managedFiles_probed_nonempty. }
  split_and!.
  - intros rf _ Hname. apply isModified_absent. by rewrite Hname.
  - intros w2 o. rewrite Heq.
    destruct (decision P env false (managedFiles (fs w1) dir) hashes
                latestFiles).
    + intros [= <- <-]. apply not_elem_of_nil.
    + intros [= <- <-]. simpl.
      intros [rf [Hname [Hmod _]%list_elem_of_filter]]%list_elem_of_fmap.
      rewrite isModified_absent in Hmod; [done|]. by rewrite <- Hname.
    + intros Hd%rethrow_ok%deploy_outcome. destruct o; try done.
      apply not_elem_of_nil.
  - intros [rule [Hname Hin]]%list_elem_of_fmap Hch. rewrite Heq.
    assert (hasNewTemplate P env hashes = true) as Hnt.
    { apply (existsb_true _ _ rule Hin). unfold isOutdated.
      by rewrite <- Hname, Hh. }
    unfold decision. by rewrite Hlen, Hch, Hnt.
Qed.

Lemma absent_file_never_drifts_witness :
  snd (setupProjectRules Fixtures.demo Fixtures.env2 false false None None
         Fixtures.a_missing)
  = snd (rethrow setup_failed
           (deploy Fixtures.demo Fixtures.env2 Fixtures.rules_dir ["b.mdc"]
              false None)
           (after_probe Fixtures.a_missing Fixtures.rules_dir)).
Proof.
  destruct (absent_file_never_drifts Fixtures.demo Fixtures.env2 false None
              None Fixtures.a_missing "a.mdc") as (_ & _ & H).
  - split; vm_compute; set_solver.
  - by vm_compute.
  - reflexivity.
  - rewrite H; [reflexivity| |reflexivity].
    vm_compute. apply list_elem_of_here.
Defined.

(** C10 does not hold for every recorded file: the latest deployment
    recorded [a.mdc], the file is gone, [b.mdc] is still there and is the
    only template; nothing is written, the call answers "up to date". *)
Lemma absent_untemplated_file_is_ignored :
  (exists rf, rf ∈ Db.getLatestRuleFiles Db.stable_order_by
                     (db Fixtures.a_missing)
              /\ Db.filename rf = "a.mdc") /\
  lookup_file (fs Fixtures.a_missing) Fixtures.rules_dir "a.mdc" = None /\
  managedFiles (fs Fixtures.a_missing) Fixtures.rules_dir = ["b.mdc"] /\
  snd (setupProjectRules Fixtures.demo_single Fixtures.env2 false true None
         None Fixtures.a_missing) = Ok AlreadyUpToDate.
Proof.
  split_and!; [|by vm_compute..].
  eexists. split; [vm_compute; apply list_elem_of_here|reflexivity].
Qed.
End Classification.

(* ------------------------------------------------------------------ *)
(** ** What a call records, and when *)

Module Recording.
Import JsString JsStringFacts PosixPath Engine Observe EngineFacts WriteFacts
       StoreFacts Classification.
Local Open Scope engine_scope.

Lemma writable_dec (f : FileSystem) (dir : string) :
  Decision (writable f dir).
Proof. unfold writable. apply _. Qed.

(** A call that returns has passed the probe, and either stopped there or
    went through the write path. *)
Lemma setup_ok_cases (P : Platform) (env : Env) (force backup : bool)
    (by_ wp : option string) (w w' : World) (o : Outcome) :
  let dir := resolveRulesDir env wp in
  let w1 := after_probe w dir in
  setupProjectRules P env force backup by_ wp w = (w', Ok o) ->
  writable (fs w) dir /\
  ((w' = w1 /\ is_deployed o = false) \/
   (deploy P env dir (managedFiles (fs w1) dir) backup by_ w1 = (w', Ok o)
    /\ is_deployed o = true)).
Proof.
  intros dir w1 Hs.
  destruct (writable_dec (fs w) dir) as [Hw|Hnw]; cycle 1.
  { destruct (setup_unwritable P env force backup by_ wp w Hnw)
      as (w2 & e & He & _). congruence. }
  split; [done|].
  rewrite (setup_eq P env force backup by_ wp w Hw) in Hs.
  fold dir w1 in Hs.
  destruct (decision P env force _ _ _).
  - left. by injection Hs as <- <-.
  - left. by injection Hs as <- <-.
  - right. apply rethrow_ok in Hs. split; [done|].
    by apply deploy_outcome in Hs.
Qed.

(** C9: a call that ends in a deployment has added exactly one row to the
    fact store, of category [project-setup] and tagged [cursor-rules] and
    [deployment]; the fact store is not what it was before the call. *)
Theorem deployment_adds_one_fact (P : Platform) (env : Env)
    (force backup : bool) (by_ wp : option string) (w w' : World)
    (o : Outcome) :
  setupProjectRules P env force backup by_ wp w = (w', Ok o) ->
  is_deployed o = true ->
  (exists row,
     Db.facts (db w') = Db.facts (db w) ++ [row] /\
     Db.category row = "project-setup" /\
     "cursor-rules" ∈ Db.tags row /\
     "deployment" ∈ Db.tags row) /\
  length (Db.facts (db w')) = S (length (Db.facts (db w))) /\
  Db.facts (db w') <> Db.facts (db w).
Proof.
  intros Hs Hd.
  apply setup_ok_cases in Hs as [Hw [[_ Hn]|[Hdep _]]]; [congruence|].
  apply deploy_ok in Hdep as (wb & fid & _ & _ & _ & Hdb & _).
  cbn [after_probe db] in Hdb.
  destruct (db_deployed_shape P env by_
              (backup_of env (resolveRulesDir env wp)
                 (managedFiles
                    (fs (after_probe w (resolveRulesDir env wp)))
                    (resolveRulesDir env wp)) backup) (db w))
    as ((row & Hf & Hc & Ht) & _).
  rewrite <- Hdb in Hf.
  split_and!.
  - exists row. rewrite Ht. split_and!; [done..| |]; set_solver.
  - rewrite Hf, length_app. simpl. lia.
  - rewrite Hf. intros Heq.
    apply (f_equal length) in Heq. rewrite length_app in Heq. simpl in Heq.
    lia.
Qed.

Lemma deployment_adds_one_fact_witness :
  length (Db.facts (db Fixtures.deployed_once)) = 1.
Proof.
  destruct (deployment_adds_one_fact Fixtures.demo Fixtures.env1 false true
              None None Fixtures.fresh Fixtures.deployed_once
              (Deployed false 1 2 "Unknown" None ["a.mdc"; "b.mdc"]))
    as (_ & H & _); [by vm_compute|reflexivity|].
  exact H.
Defined.

(** C1 (as the code has it): in a call that ends in a deployment the
    effects come in this order: the probe, the backup if any, the
    deployment row, then for each rule its file and directly after it its
    file row with the desired hash, then the presence checks, then the
    fact.  The deployment row is written before the first rule file. *)
Theorem history_is_recorded_while_writing (P : Platform) (env : Env)
    (force backup : bool) (by_ wp : option string) (w w' : World)
    (o : Outcome) :
  let dir := resolveRulesDir env wp in
  let files := managedFiles (fs (after_probe w dir)) dir in
  let i := Db.next_id (map Db.id (Db.rule_deployments (db w))) in
  let rules := newRules P env in
  setupProjectRules P env force backup by_ wp w = (w', Ok o) ->
  is_deployed o = true ->
  (exists fid,
     trace w' =
       trace w
         ++ [EvMkdir dir; EvWriteFile dir ".write_test" "test";
             EvUnlink dir ".write_test"; EvMkdir dir]
         ++ backup_events env dir files backup
         ++ [EvStoreRuleDeployment i (N.of_nat (length rules))]
         ++ flat_map (write_events P env dir i) rules
         ++ map (EvAccess dir) (map rule_filename rules)
         ++ [EvStoreFact fid "project-setup"]) /\
  (NoDup (map rule_filename rules) ->
   forall rule, rule ∈ rules ->
     desiredHash P env (rule_filename rule)
     = generateHash P (rule_content rule)).
Proof.
  intros dir files i rules Hs Hd.
  apply setup_ok_cases in Hs as [Hw [[_ Hn]|[Hdep _]]]; [congruence|].
  apply deploy_ok in Hdep as (wb & fid & _ & _ & _ & _ & Htr & _).
  split.
  - exists fid. rewrite Htr. cbn [after_probe trace db].
    rewrite <- !app_assoc. reflexivity.
  - intros Hnd rule Hin. by apply desiredHash_own.
Qed.

Lemma history_is_recorded_while_writing_witness :
  exists fid,
    trace Fixtures.deployed_once =
      [EvMkdir Fixtures.rules_dir;
       EvWriteFile Fixtures.rules_dir ".write_test" "test";
       EvUnlink Fixtures.rules_dir ".write_test";
       EvMkdir Fixtures.rules_dir;
       EvStoreRuleDeployment 1 2;
       EvWriteFile Fixtures.rules_dir "a.mdc" "alpha";
       EvStoreRuleFile 1 "a.mdc" "sha256:alpha";
       EvWriteFile Fixtures.rules_dir "b.mdc" "beta";
       EvStoreRuleFile 1 "b.mdc" "sha256:beta";
       EvAccess Fixtures.rules_dir "a.mdc";
       EvAccess Fixtures.rules_dir "b.mdc";
       EvStoreFact fid "project-setup"].
Proof.
  destruct (history_is_recorded_while_writing Fixtures.demo Fixtures.env1
              false true None None Fixtures.fresh Fixtures.deployed_once
              (Deployed false 1 2 "Unknown" None ["a.mdc"; "b.mdc"]))
    as ([fid H] & _); [by vm_compute|reflexivity|].
  exists fid. rewrite H. reflexivity.
Defined.

(** C1, as stated, fails: when [b.mdc] cannot be written the call throws
    after [a.mdc], and the store already holds the deployment row and the
    file row of [a.mdc], while [b.mdc] never reached the disk. *)
Lemma deployment_row_precedes_the_files :
  let r := setupProjectRules Fixtures.demo Fixtures.env1 false true None None
             Fixtures.b_locked in
  snd r = Throw ("Failed to setup project rules: Error: Failed to write "
                 +:+ "rule file: /home/u/proj/.cursor/rules/b.mdc. "
                 +:+ "Error: EACCES: open") /\
  map Db.id (Db.rule_deployments (db (fst r))) = [1%N] /\
  lookup_file (fs (fst r)) Fixtures.rules_dir "b.mdc" = None /\
  trace (fst r) =
    [EvMkdir Fixtures.rules_dir;
     EvWriteFile Fixtures.rules_dir ".write_test" "test";
     EvUnlink Fixtures.rules_dir ".write_test";
     EvMkdir Fixtures.rules_dir;
     EvStoreRuleDeployment 1 2;
     EvWriteFile Fixtures.rules_dir "a.mdc" "alpha";
     EvStoreRuleFile 1 "a.mdc" "sha256:alpha"].
Proof. by vm_compute. Qed.

Lemma countFiles_app (d : Db.Database) (recs : list Db.RuleFile) (dep : N) :
  countFiles {| Db.facts := Db.facts d;
                Db.rule_deployments := Db.rule_deployments d;
                Db.rule_files := Db.rule_files d ++ recs |} dep
  = countFiles d dep
    + length (filter (fun rf => Db.deploymentId rf = dep) recs).
Proof. unfold countFiles. simpl. by rewrite filter_app, length_app. Qed.

Lemma filter_all {A : Type} (Q : A -> Prop) `{!forall x, Decision (Q x)}
    (l : list A) :
  Forall Q l -> filter Q l = l.
Proof.
  induction 1 as [|x l Hx _ IH]; [done|].
  by rewrite filter_cons_True, IH.
Qed.

Lemma filter_none {A : Type} (Q : A -> Prop) `{!forall x, Decision (Q x)}
    (l : list A) :
  Forall (fun x => ~ Q x) l -> filter Q l = [].
Proof.
  induction 1 as [|x l Hx _ IH]; [done|].
  by rewrite filter_cons_False.
Qed.

Lemma recs_deployment (P : Platform) (env : Env) (i : N)
    (recs : list Db.RuleFile) (rules : list CursorRule) :
  map row_key recs
    = map (fun rule => (i, rule_filename rule,
                        desiredHash P env (rule_filename rule))) rules ->
  Forall (fun rf => Db.deploymentId rf = i) recs /\
  length recs = length rules.
Proof.
  revert rules. induction recs as [|rf recs IH]; intros [|rule rules];
    simpl; try done.
  intros [= Hi Hn Hh Hrest]. destruct (IH rules Hrest) as [Hall Hlen].
  split; [by constructor|]. by rewrite Hlen.
Qed.

(** The counts of a store that gained one deployment with its file rows. *)
Lemma counts_agree_deployed (P : Platform) (env : Env)
    (by_ bp : option string) (d : Db.Database) :
  counts_agree d -> references_ok d ->
  counts_agree (db_deployed P env by_ bp d) /\
  references_ok (db_deployed P env by_ bp d).
Proof.
  intros Hc Hr.
  destruct (db_deployed_shape P env by_ bp d)
    as (_ & Hdep & recs & Hfiles & Hkey).
  apply recs_deployment in Hkey as [Hall Hlen].
  set (i := Db.next_id (map Db.id (Db.rule_deployments d))) in *.
  set (d' := db_deployed P env by_ bp d) in *.
  assert (forall row, row ∈ Db.rule_deployments d -> Db.id row <> i) as Hfresh.
  { intros row Hin. assert (Db.id row < i)%N; [|lia].
    apply next_id_above. by apply list_elem_of_fmap_2. }
  assert (forall dep, countFiles d' dep
            = countFiles d dep
              + length (filter (fun rf => Db.deploymentId rf = dep) recs))
    as Hcount.
  { intros dep. unfold countFiles. by rewrite Hfiles, filter_app, length_app. }
  split.
  - intros row. rewrite Hdep.
    intros [Hin| ->%list_elem_of_singleton]%elem_of_app.
    + rewrite Hcount, filter_none; [simpl; rewrite Nat.add_0_r; by apply Hc|].
      eapply Forall_impl; [exact Hall|]. simpl. intros rf -> Heq.
      by apply (Hfresh row).
    + simpl. rewrite Hcount, (filter_all _ recs) by done.
      assert (countFiles d i = 0) as ->; [|by rewrite Hlen].
      unfold countFiles.
      rewrite filter_none; [done|].
      apply Forall_forall. intros rf Hin Heq.
      destruct (Hr rf Hin) as (row & Hrow & Hid).
      apply (Hfresh row Hrow). congruence.
  - intros rf. rewrite Hfiles, Hdep.
    intros [Hin|Hin]%elem_of_app.
    + destruct (Hr rf Hin) as (row & Hrow & Hid).
      exists row. split; [|done]. apply elem_of_app. by left.
    + eexists. split; [apply elem_of_app; right; apply list_elem_of_here|].
      simpl. rewrite Forall_forall in Hall. by rewrite (Hall rf Hin).
Qed.

(** C2 (as the code has it): whenever a call returns, with whichever of
    the three outcomes, every deployment row's file count equals the number
    of file rows that reference it, provided that held before the call and
    every file row belonged to a deployment row. *)
Theorem counts_agree_after_return (P : Platform) (env : Env)
    (force backup : bool) (by_ wp : option string) (w w' : World)
    (o : Outcome) :
  counts_agree (db w) -> references_ok (db w) ->
  setupProjectRules P env force backup by_ wp w = (w', Ok o) ->
  counts_agree (db w') /\ references_ok (db w').
Proof.
  intros Hc Hr Hs.
  apply setup_ok_cases in Hs as [Hw [[-> _]|[Hdep _]]]; [done|].
  apply deploy_ok in Hdep as (wb & fid & _ & _ & _ & -> & _).
  by apply counts_agree_deployed.
Qed.

Lemma counts_agree_after_return_witness :
  counts_agree (db Fixtures.deployed_once)
  /\ references_ok (db Fixtures.deployed_once).
Proof.
  apply (counts_agree_after_return Fixtures.demo Fixtures.env1 false true
           None None Fixtures.fresh Fixtures.deployed_once
           (Deployed false 1 2 "Unknown" None ["a.mdc"; "b.mdc"])).
  - intros row Hin. by apply elem_of_nil in Hin.
  - intros rf Hin. by apply elem_of_nil in Hin.
  - by vm_compute.
Defined.

(** C2, as stated, fails: after the call that throws at [b.mdc] the store
    holds a deployment row that counts two files and one file row. *)
Lemma failed_write_leaves_a_wrong_count :
  let r := setupProjectRules Fixtures.demo Fixtures.env1 false true None None
             Fixtures.b_locked in
  (exists e, snd r = Throw e) /\
  counts_agree (db Fixtures.b_locked) /\
  map Db.totalFiles (Db.rule_deployments (db (fst r))) = [2%N] /\
  countFiles (db (fst r)) 1 = 1 /\
  ~ counts_agree (db (fst r)).
Proof.
  split_and!.
  - eexists. by vm_compute.
  - intros row Hin. by apply elem_of_nil in Hin.
  - by vm_compute.
  - by vm_compute.
  - intros H.
    specialize (H {| Db.id := 1; Db.templateVersion := "2.0.0";
                     Db.deployedAt := "2024-01-01 10:00:00";
                     Db.deployedBy := None; Db.totalFiles := 2;
                     Db.backupPath := None |}).
    assert (2%N = N.of_nat 1) as Habs; [|done].
    apply H. vm_compute. apply list_elem_of_here.
Qed.

(** *** The backup comes first *)


Lemma writeRules_succeeds (P : Platform) (env : Env) (dir : string)
    (i : N) (rules : list CursorRule) (acc : list string) (w : World) :
  is_Some (dirs (fs w) !! dir) ->
  Forall (fun rule => (dir, rule_filename rule) ∉ no_write (fs w)) rules ->
  exists w' files, writeRules P env dir i rules acc w = (w', Ok files).
Proof.
  revert acc w. induction rules as [|rule rules IH]; intros acc w Hex Hall.
  { by exists w, acc. }
  apply Forall_cons in Hall as [Hr Hall]. destruct Hex as [e He].
  cbn [writeRules]. unfold bind at 1, rethrow, writeFile.
  rewrite bool_decide_eq_false_2 by done. rewrite He.
  unfold bind at 1, dbStoreRuleFile. cbn [fst snd]. apply IH.
  - simpl. rewrite lookup_insert_eq. eauto.
  - done.
Qed.

Lemma deploy_succeeds_without_backup (P : Platform) (env : Env)
    (dir : string) (files : list string) (backup : bool)
    (by_ : option string) (w : World) :
  backup && (0 <? length files) = false ->
  (dir ∉ no_mkdir (fs w)) ->
  Forall (fun rule => (dir, rule_filename rule) ∉ no_write (fs w))
         (newRules P env) ->
  exists w' o, deploy P env dir files backup by_ w = (w', Ok o).
Proof.
  intros Hb Hnm Hall. unfold deploy. unfold bind at 1.
  destruct (mkdir dir w) as [w0 [[]|e]] eqn:Hm; cycle 1.
  { apply (mkdir_spec dir) in Hm as (_ & _ & _ & ?). done. }
  apply (mkdir_spec dir) in Hm as (Hdb0 & Hfr0 & Htr0 & _ & Hex0).
  rewrite Hb. unfold bind at 1. cbn [ret].
  unfold bind at 1, dbStoreRuleDeployment. cbn [fst snd].
  destruct Hfr0 as (Hnr & Hnw & Hnmk & _).
  set (r := Db.storeRuleDeployment _ _ _ _ _ _).
  destruct (writeRules_succeeds P env dir (fst r) (newRules P env) []
              (with_db w0 (snd r)
                 (EvStoreRuleDeployment (fst r)
                    (N.of_nat (length (newRules P env))))))
    as (w2 & deployedFiles & Hwr).
  { done. }
  { simpl. by rewrite Hnw. }
  unfold bind at 1. rewrite Hwr.
  pose proof Hwr as Hspec.
  apply writeRules_spec in Hspec as (k & _ & _ & Hfs2 & -> & ->).
  rewrite firstn_all in Hfs2. cbn [with_db fs] in Hfs2.
  unfold bind at 1. cbn [app].
  rewrite verifyRules_ok; cycle 1.
  { apply Forall_forall. intros m [rule [-> Hin]]%list_elem_of_fmap.
    rewrite Hfs2, lookup_written_into by done.
    destruct (written_elem _ _ ∅ Hin) as [c ->]. eauto. }
  unfold bind at 1, dbStoreFact. cbn [fst snd]. eauto.
Qed.



End Recording.

(* ------------------------------------------------------------------ *)
(** ** Which deployment is the latest *)

Module History.
Import JsString Engine Observe.

Lemma ltb_not_le (a b : string) :
  String.ltb a b = true -> String.le b a -> False.
Proof.
  unfold String.ltb, String.le, String.leb.
  rewrite (String.compare_antisym a b).
  destruct (String.compare b a); simpl; try done.
Qed.

Lemma before_total {A : Type} (key : A -> string) (desc : bool) (x y : A) :
  before key desc x y \/ before key desc y x.
Proof. unfold before. destruct desc; apply (total String.le). Qed.

Lemma before_trans {A : Type} (key : A -> string) (desc : bool) (x y z : A) :
  before key desc x y -> before key desc y z -> before key desc x z.
Proof.
  unfold before. destruct desc; intros H1 H2.
  - by transitivity (key y).
  - by transitivity (key y).
Qed.

Lemma insert_by_cases {A : Type} (key : A -> string) (desc : bool) (x y : A) :
  (if desc then String.leb (key y) (key x) else String.leb (key x) (key y))
  = true <-> before key desc x y.
Proof.
  unfold before, String.le. destruct desc; by rewrite Is_true_true.
Qed.

Lemma insert_by_perm {A : Type} (key : A -> string) (desc : bool) (x : A)
    (l : list A) :
  Permutation (x :: l) (Db.insert_by key desc x l).
Proof.
  induction l as [|y l IH]; [done|]. simpl.
  destruct (if desc then _ else _); [done|].
  rewrite <- IH. apply perm_swap.
Qed.

Lemma insert_by_sorted {A : Type} (key : A -> string) (desc : bool) (x : A)
    (l : list A) :
  StronglySorted (before key desc) l ->
  StronglySorted (before key desc) (Db.insert_by key desc x l).
Proof.
  induction 1 as [|y l Hs IH Hall]; simpl.
  { by repeat constructor. }
  destruct (if desc then _ else _) eqn:E.
  - apply insert_by_cases in E. constructor.
    + by constructor.
    + constructor; [done|].
      eapply Forall_impl; [exact Hall|]. intros z Hz.
      by apply (before_trans key desc x y z).
  - assert (before key desc y x) as Hyx.
    { destruct (before_total key desc x y) as [Hxy|]; [|done].
      apply insert_by_cases in Hxy. congruence. }
    constructor; [done|].
    rewrite <- (insert_by_perm key desc x l). by constructor.
Qed.

Lemma sorted_in_order {A : Type} (key : A -> string) (desc : bool)
    (l : list A) :
  StronglySorted (before key desc) l -> Db.in_order key desc l.
Proof.
  induction 1 as [|y l Hs IH Hall]; intros i j a b Hij Ha Hb.
  { by rewrite lookup_nil in Ha. }
  destruct j as [|j]; [lia|]. simpl in Hb.
  destruct i as [|i]; simpl in Ha.
  - injection Ha as <-. rewrite Forall_forall in Hall.
    apply (Hall b). by eapply list_elem_of_lookup_2.
  - apply (IH i j a b); [lia|done..].
Qed.

(** The insertion sort is an engine as the queries allow it. *)
Lemma stable_order_by_ok : Db.order_by_ok Db.stable_order_by.
Proof.
  intros A key desc rows. unfold Db.stable_order_by.
  induction rows as [|x rows [IHp IHs]]; simpl.
  { split; [done|]. intros i j a b _ Ha. by rewrite lookup_nil in Ha. }
  assert (StronglySorted (before key desc)
            (fold_right (fun x acc => Db.insert_by key desc x acc) [] rows))
    as Hs.
  { clear. induction rows as [|x rows IH]; simpl; [constructor|].
    by apply insert_by_sorted. }
  split.
  - rewrite <- insert_by_perm. by constructor.
  - by apply sorted_in_order, insert_by_sorted.
Qed.

Lemma newest_first_order_by_ok : Db.order_by_ok Db.newest_first_order_by.
Proof.
  intros A key desc rows. unfold Db.newest_first_order_by.
  destruct (stable_order_by_ok A key desc (rev rows)) as [Hp Ho].
  split; [|done]. rewrite <- Hp. apply Permutation_rev.
Qed.

Section Latest.
Variable order_by : Db.OrderBy.
Hypothesis engine_ok : Db.order_by_ok order_by.

Lemma ordered_elem {A : Type} (key : A -> string) (desc : bool)
    (rows : list A) (x : A) :
  x ∈ order_by A key desc rows <-> x ∈ rows.
Proof. destruct (engine_ok A key desc rows) as [Hp _]. by rewrite <- Hp. Qed.

Lemma latest_none (d : Db.Database) :
  Db.getLatestRuleDeployment order_by d = None <-> Db.rule_deployments d = [].
Proof.
  unfold Db.getLatestRuleDeployment.
  destruct (engine_ok _ Db.deployedAt true (Db.rule_deployments d)) as [Hp _].
  split.
  - intros Hh. apply head_None in Hh. rewrite Hh in Hp.
    by apply Permutation_nil_r in Hp.
  - intros Hnil. rewrite Hnil in *. apply Permutation_nil in Hp.
    by rewrite Hp.
Qed.

Lemma latest_greatest (d : Db.Database) (row : Db.RuleDeployment) :
  Db.getLatestRuleDeployment order_by d = Some row ->
  row ∈ Db.rule_deployments d /\
  forall other, other ∈ Db.rule_deployments d ->
    String.le (Db.deployedAt other) (Db.deployedAt row).
Proof.
  unfold Db.getLatestRuleDeployment. intros Hh.
  destruct (engine_ok _ Db.deployedAt true (Db.rule_deployments d))
    as [Hp Ho].
  set (sorted := order_by _ Db.deployedAt true (Db.rule_deployments d)) in *.
  assert (sorted !! 0 = Some row) as H0.
  { destruct sorted; [done|]. by injection Hh as ->. }
  split.
  - rewrite Hp. by eapply list_elem_of_lookup_2.
  - intros other Hin. rewrite Hp in Hin.
    apply list_elem_of_lookup_1 in Hin as [j Hj].
    destruct j as [|j].
    + assert (other = row) as -> by congruence. done.
    + apply (Ho 0 (S j) row other); [lia|done..].
Qed.

Lemma latest_unique (d : Db.Database) (row : Db.RuleDeployment) :
  row ∈ Db.rule_deployments d ->
  (forall other, other ∈ Db.rule_deployments d -> other <> row ->
     String.ltb (Db.deployedAt other) (Db.deployedAt row) = true) ->
  Db.getLatestRuleDeployment order_by d = Some row.
Proof.
  intros Hin Hmax.
  destruct (Db.getLatestRuleDeployment order_by d) as [h|] eqn:Hh; cycle 1.
  { apply latest_none in Hh. rewrite Hh in Hin. by apply elem_of_nil in Hin. }
  apply latest_greatest in Hh as [Hhin Hge].
  destruct (decide (h = row)) as [->|Hne]; [done|].
  exfalso. apply (ltb_not_le (Db.deployedAt h) (Db.deployedAt row)).
  - by apply Hmax.
  - by apply Hge.
Qed.

Lemma latest_files_elem (d : Db.Database) (row : Db.RuleDeployment)
    (rf : Db.RuleFile) :
  Db.getLatestRuleDeployment order_by d = Some row ->
  rf ∈ Db.getLatestRuleFiles order_by d
  <-> rf ∈ Db.rule_files d /\ Db.deploymentId rf = Db.id row.
Proof.
  intros Hl. unfold Db.getLatestRuleFiles, Db.getRuleFiles. rewrite Hl.
  by rewrite ordered_elem, list_elem_of_filter, (comm and).
Qed.

End Latest.




(** What two engines agree on is the timestamp. *)
Lemma latest_timestamp_is_determined (engine engine' : Db.OrderBy)
    (d : Db.Database) (row row' : Db.RuleDeployment) :
  Db.order_by_ok engine -> Db.order_by_ok engine' ->
  Db.getLatestRuleDeployment engine d = Some row ->
  Db.getLatestRuleDeployment engine' d = Some row' ->
  Db.deployedAt row = Db.deployedAt row'.
Proof.
  intros Hok Hok' Hl Hl'.
  destruct (latest_greatest _ Hok d row Hl) as [Hin Hge].
  destruct (latest_greatest _ Hok' d row' Hl') as [Hin' Hge'].
  apply (anti_symm String.le); auto.
Qed.

(** ... and the row is not: on the two rows recorded in the same second
    the two engines differ. *)
Lemma equal_timestamps_either_way :
  Db.id <$> Db.getLatestRuleDeployment Db.stable_order_by
              Fixtures.same_second = Some 1%N /\
  Db.id <$> Db.getLatestRuleDeployment Db.newest_first_order_by
              Fixtures.same_second = Some 2%N.
Proof. split; by vm_compute. Qed.

End History.

(* ------------------------------------------------------------------ *)
(** ** Calling twice *)

Module Idempotence.
Import JsString JsStringFacts PosixPath Engine Observe EngineFacts WriteFacts
       StoreFacts Classification Recording History.
Local Open Scope engine_scope.

Lemma probed_idem (f : FileSystem) (dir : string) :
  probed (probed f dir) dir = probed f dir.
Proof.
  unfold probed, set_dirs. simpl. f_equal.
  rewrite lookup_insert_eq. simpl.
  by rewrite insert_insert_eq, delete_delete_eq.
Qed.

Lemma probed_id (f : FileSystem) (dir : string) :
  is_Some (dirs f !! dir) -> lookup_file f dir ".write_test" = None ->
  probed f dir = f.
Proof.
  intros [e He]. unfold lookup_file, probed. rewrite He. simpl. intros Hn.
  rewrite delete_id by done. rewrite insert_id by done. apply set_dirs_id.
Qed.

Lemma render_static (env : Env) (t : CursorRule) :
  occurs "{timestamp}" (rule_content t) = false -> render env t = t.
Proof.
  intros H. unfold render. rewrite replaceAll_absent by done. by destruct t.
Qed.

Lemma newRules_static (P : Platform) (env : Env) :
  templates_static P -> newRules P env = CURSOR_RULES_TEMPLATES P.
Proof.
  unfold templates_static, newRules.
  induction 1 as [|t l [_ Ht] _ IH]; [done|].
  simpl. by rewrite render_static, IH.
Qed.

Lemma newHashes_static (P : Platform) (env env' : Env) :
  templates_static P -> newHashes P env = newHashes P env'.
Proof.
  intros Hs. unfold newHashes. by rewrite !newRules_static.
Qed.

Lemma decision_static (P : Platform) (env env' : Env) (force : bool)
    (files : list string) (hashes : gmap string string)
    (latestFiles : list Db.RuleFile) :
  templates_static P ->
  decision P env force files hashes latestFiles
  = decision P env' force files hashes latestFiles.
Proof.
  intros Hs. unfold decision, hasNewTemplate, isOutdated.
  by rewrite (newHashes_static P env env' Hs), !newRules_static.
Qed.

Lemma resolveRulesDir_cwd (env env' : Env) (wp : option string) :
  cwd env' = cwd env -> resolveRulesDir env' wp = resolveRulesDir env wp.
Proof. intros H. unfold resolveRulesDir. by rewrite H. Qed.

(** The state a deployment leaves behind is one the next call finds in
    order. *)
Lemma deployed_state_is_current (P : Platform) (env env' : Env)
    (dir : string) (files : list string) (backup : bool)
    (by_ : option string) (w w1 : World) (o1 : Outcome) :
  templates_static P -> CURSOR_RULES_TEMPLATES P <> [] ->
  digest_nonempty P -> Db.order_by_ok (order_by P) ->
  references_ok (db w) -> clock_ahead (db w) env ->
  (forall rule, rule ∈ CURSOR_RULES_TEMPLATES P ->
                (dir, rule_filename rule) ∉ no_read (fs w)) ->
  lookup_file (fs w) dir ".write_test" = None ->
  deploy P env dir files backup by_ w = (w1, Ok o1) ->
  writable (fs w) dir ->
  writable (fs w1) dir /\
  probed (fs w1) dir = fs w1 /\
  decision P env' false (managedFiles (fs w1) dir) (diskHashes P (fs w1) dir)
    (Db.getLatestRuleFiles (order_by P) (db w1)) = NoOp.
Proof.
  intros Hstat Hne Hdig Hok Href Hclock Hread Hprobe Hdep Hw.
  pose proof (newRules_static P env Hstat) as Hrules.
  apply deploy_ok in Hdep
    as (wb & fid & Hfr & Hexb & Hfs & Hdb & _ & -> & _).
  rewrite Hrules in Hfs.
  set (rules := CURSOR_RULES_TEMPLATES P) in *.
  destruct Hfr as (Hnr & Hnw & Hnmk & Hlook & _).
  assert (no_read (fs w1) = no_read (fs w) /\
          no_write (fs w1) = no_write (fs w) /\
          no_mkdir (fs w1) = no_mkdir (fs w)) as (Hnr1 & Hnw1 & Hnmk1).
  { rewrite Hfs. unfold written_into, set_dirs. simpl. done. }
  assert (is_Some (dirs (fs w1) !! dir)) as Hex1.
  { rewrite Hfs. unfold written_into. destruct Hexb as [e He].
    rewrite He. simpl. rewrite lookup_insert_eq. eauto. }
  assert (forall n, lookup_file (fs w1) dir n =
                    match written rules ∅ !! n with
                    | Some c => Some c
                    | None => lookup_file (fs w) dir n
                    end) as Hl1.
  { intros n. rewrite Hfs, lookup_written_into by done. by rewrite Hlook. }
  assert (forall rule, rule ∈ rules ->
            endsWith (rule_filename rule) ".mdc" = true) as Hmdc.
  { intros rule Hin. unfold templates_static in Hstat.
    rewrite Forall_forall in Hstat. by destruct (Hstat rule Hin). }
  assert (forall rule, rule ∈ rules ->
            exists c, written rules ∅ !! rule_filename rule = Some c /\
                      diskHash P (fs w1) dir (rule_filename rule)
                      = Some (generateHash P c) /\
                      newHashes P env' !! rule_filename rule
                      = Some (generateHash P c) /\
                      desiredHash P env (rule_filename rule)
                      = generateHash P c) as Hrule.
  { intros rule Hin. destruct (written_elem rules rule ∅ Hin) as [c Hc].
    exists c. split_and!; [done| | |].
    - unfold diskHash. rewrite bool_decide_eq_true_2; cycle 1.
      { apply managedFiles_elem. split; [by apply Hmdc|].
        rewrite Hl1, Hc. eauto. }
      unfold readable. rewrite Hnr1.
      rewrite bool_decide_eq_false_2 by (by apply Hread).
      by rewrite Hl1, Hc.
    - rewrite newHashes_written, lookup_fmap, newRules_static by done.
      fold rules. by rewrite Hc.
    - unfold desiredHash.
      rewrite newHashes_written, lookup_fmap, Hrules. fold rules.
      by rewrite Hc. }
  split_and!.
  - destruct Hw as [Hw1 Hw2]. split; [by rewrite Hnmk1|by rewrite Hnw1].
  - apply probed_id; [done|]. rewrite Hl1, Hprobe.
    rewrite written_only; [done|].
    intros [rule [Hname Hin]]%list_elem_of_fmap.
    specialize (Hmdc rule Hin). rewrite <- Hname in Hmdc. done.
  - (* the classification of the next call *)
    set (hashes := diskHashes P (fs w1) dir).
    set (latestFiles := Db.getLatestRuleFiles (order_by P) (db w1)).
    assert (forall n, hashes !! n = diskHash P (fs w1) dir n) as Hh.
    { intros n. apply diskHashes_lookup. }
    assert ((0 <? length (managedFiles (fs w1) dir)) = true) as Hlen.
    { destruct rules as [|rule rest] eqn:E; [done|].
      apply (nonempty_length _ (rule_filename rule)).
      apply managedFiles_elem.
      assert (rule ∈ rules) as Hin by (rewrite E; apply list_elem_of_here).
      rewrite <- E in *.
      split; [by apply Hmdc|].
      destruct (Hrule rule Hin) as (c & Hc & _). rewrite Hl1, Hc. eauto. }
    assert (hasNewTemplate P env' hashes = false) as Hnt.
    { unfold hasNewTemplate. apply existsb_false. intros rule Hin.
      rewrite newRules_static in Hin by done.
      apply isOutdated_false.
      destruct (Hrule rule Hin) as (c & _ & Hd & Hn & _).
      exists (generateHash P c). rewrite Hh. split_and!; [done| |done].
      apply Hdig. }
    assert (hasChanges hashes latestFiles = false) as Hch.
    { unfold hasChanges. apply existsb_false. intros rf Hin.
      destruct (db_deployed_shape P env by_
                  (backup_of env dir files backup) (db w))
        as (_ & Hrows & recs & Hfiles & Hkey).
      rewrite <- Hdb in Hrows, Hfiles. rewrite Hrules in Hkey, Hrows.
      fold rules in Hkey, Hrows.
      set (i := Db.next_id (map Db.id (Db.rule_deployments (db w)))) in *.
      set (row := {| Db.id := i; Db.templateVersion := TEMPLATE_VERSION;
                     Db.deployedAt := current_timestamp env;
                     Db.deployedBy := by_;
                     Db.totalFiles := N.of_nat (length rules);
                     Db.backupPath := backup_of env dir files backup |}) in *.
      assert (Db.getLatestRuleDeployment (order_by P) (db w1) = Some row)
        as Hlatest.
      { apply latest_unique; [done| |].
        - rewrite Hrows. apply elem_of_app. right. apply list_elem_of_here.
        - intros other. rewrite Hrows.
          intros [Hold| ->%list_elem_of_singleton]%elem_of_app Hne';
            [|done].
          by apply Hclock. }
      destruct (proj1 (latest_files_elem _ Hok _ row rf Hlatest) Hin)
        as [Hin' Hrf].
      rewrite Hfiles in Hin'. apply elem_of_app in Hin' as [Hold|Hnew].
      { exfalso. destruct (Href rf Hold) as (r0 & Hr0 & Hid0).
        assert (Db.id r0 < i)%N.
        { apply next_id_above. by apply list_elem_of_fmap_2. }
        simpl in Hrf. lia. }
      assert (row_key rf ∈ map row_key recs) as Hk
        by (by apply list_elem_of_fmap_2).
      rewrite Hkey in Hk.
      apply list_elem_of_fmap in Hk as (rule & Hk & Hrin).
      unfold row_key in Hk. injection Hk as _ Hname Hhash.
      destruct (Hrule rule Hrin) as (c & _ & Hd & _ & Hdes).
      unfold isModified. rewrite Hh, Hname, Hd, Hhash, Hdes.
      rewrite bool_decide_eq_true_2 by done. by rewrite andb_false_r. }
    unfold decision. by rewrite Hlen, Hch, Hnt.
Qed.

(** C5 (as the code has it): an unforced call that returned is followed, on
    the state it left and with the same arguments, by a call that changes
    neither a file nor the store; it answers "up to date" after a
    deployment or an "up to date", and repeats the warning after a
    warning.  The templates are the shipped kind (managed names, no
    timestamp token, at least one), the digest is never empty, the engine
    orders as asked, the clock of the store was ahead of every recorded
    deployment, and the template files can be read. *)
Theorem second_call_changes_nothing (P : Platform) (env1 env2 : Env)
    (backup : bool) (by_ wp : option string) (w w1 : World) (o1 : Outcome) :
  let dir := resolveRulesDir env1 wp in
  templates_static P -> CURSOR_RULES_TEMPLATES P <> [] ->
  digest_nonempty P -> Db.order_by_ok (order_by P) ->
  references_ok (db w) -> clock_ahead (db w) env1 ->
  (forall rule, rule ∈ CURSOR_RULES_TEMPLATES P ->
                (dir, rule_filename rule) ∉ no_read (fs w)) ->
  cwd env2 = cwd env1 ->
  setupProjectRules P env1 false backup by_ wp w = (w1, Ok o1) ->
  exists w2,
    setupProjectRules P env2 false backup by_ wp w1
      = (w2, Ok (if is_warning o1 then o1 else AlreadyUpToDate)) /\
    fs w2 = fs w1 /\ db w2 = db w1 /\
    trace w2 = trace w1 ++ [EvMkdir dir; EvWriteFile dir ".write_test" "test";
                            EvUnlink dir ".write_test"].
Proof.
  intros dir Hstat Hne Hdig Hok Href Hclock Hread Hcwd Hs.
  assert (writable (fs w) dir) as Hw.
  { by apply setup_ok_cases in Hs as [Hw _]. }
  rewrite (setup_eq P env1 false backup by_ wp w Hw) in Hs.
  fold dir in Hs.
  set (wp1 := after_probe w dir) in *.
  assert (writable (fs wp1) dir) as Hwp1 by done.
  assert (forall w', writable (fs w') dir ->
            setupProjectRules P env2 false backup by_ wp w' =
            match decision P env1 false
                    (managedFiles (fs (after_probe w' dir)) dir)
                    (diskHashes P (fs (after_probe w' dir)) dir)
                    (Db.getLatestRuleFiles (order_by P) (db w')) with
            | NoOp => (after_probe w' dir, Ok AlreadyUpToDate)
            | Warn =>
                (after_probe w' dir,
                 Ok (modificationWarning
                       (Db.getLatestRuleDeployment (order_by P) (db w'))
                       (Db.getLatestRuleFiles (order_by P) (db w'))
                       (diskHashes P (fs (after_probe w' dir)) dir)))
            | Write =>
                rethrow setup_failed
                  (deploy P env2 dir
                     (managedFiles (fs (after_probe w' dir)) dir) backup by_)
                  (after_probe w' dir)
            end) as Hsecond.
  { intros w' Hw'.
    pose proof (setup_eq P env2 false backup by_ wp w') as Heq.
    cbv zeta in Heq. rewrite (resolveRulesDir_cwd env1 env2 wp Hcwd) in Heq.
    fold dir in Heq. rewrite (Heq Hw').
    by rewrite (decision_static P env2 env1). }
  destruct (decision P env1 false (managedFiles (fs wp1) dir)
              (diskHashes P (fs wp1) dir)
              (Db.getLatestRuleFiles (order_by P) (db w))) eqn:Hdec.
  - (* already up to date *)
    injection Hs as <- <-. rewrite (Hsecond wp1 Hwp1).
    assert (fs (after_probe wp1 dir) = fs wp1) as Hfs.
    { unfold wp1, after_probe. simpl. apply probed_idem. }
    rewrite Hfs. change (db wp1) with (db w). rewrite Hdec.
    exists (after_probe wp1 dir). by split_and!.
  - (* the warning is repeated *)
    injection Hs as <- <-. rewrite (Hsecond wp1 Hwp1).
    assert (fs (after_probe wp1 dir) = fs wp1) as Hfs.
    { unfold wp1, after_probe. simpl. apply probed_idem. }
    rewrite Hfs. change (db wp1) with (db w). rewrite Hdec.
    exists (after_probe wp1 dir). by split_and!.
  - (* a deployment, then nothing to do *)
    apply rethrow_ok in Hs.
    pose proof (deploy_outcome _ _ _ _ _ _ _ _ _ Hs) as Hdpl.
    destruct (deployed_state_is_current P env1 env1 dir
                (managedFiles (fs wp1) dir) backup by_ wp1 w1 o1)
      as (Hw1 & Hid & Hnoop); try done.
    { unfold wp1, after_probe. simpl. rewrite lookup_probed.
      by rewrite bool_decide_eq_true_2. }
    rewrite (Hsecond w1 Hw1).
    assert (fs (after_probe w1 dir) = fs w1) as Hfs by done.
    rewrite Hfs, Hnoop.
    exists (after_probe w1 dir). destruct o1; try done.
Qed.

Lemma demo_static : templates_static Fixtures.demo.
Proof. by repeat constructor. Qed.

Lemma demo_digest_nonempty : digest_nonempty Fixtures.demo.
Proof. intros content. reflexivity. Qed.

Lemma second_call_changes_nothing_witness :
  exists w2,
    setupProjectRules Fixtures.demo Fixtures.env2 false true None None
      Fixtures.deployed_once = (w2, Ok AlreadyUpToDate) /\
    fs w2 = fs Fixtures.deployed_once /\
    db w2 = db Fixtures.deployed_once /\
    trace w2 = trace Fixtures.deployed_once
                 ++ [EvMkdir Fixtures.rules_dir;
                     EvWriteFile Fixtures.rules_dir ".write_test" "test";
                     EvUnlink Fixtures.rules_dir ".write_test"].
Proof.
  apply (second_call_changes_nothing Fixtures.demo Fixtures.env1 Fixtures.env2
           true None None Fixtures.fresh Fixtures.deployed_once
           (Deployed false 1 2 "Unknown" None ["a.mdc"; "b.mdc"])).
  - apply demo_static.
  - discriminate.
  - apply demo_digest_nonempty.
  - apply stable_order_by_ok.
  - intros rf Hin. by apply elem_of_nil in Hin.
  - intros row Hin. by apply elem_of_nil in Hin.
  - intros rule _. apply not_elem_of_empty.
  - reflexivity.
  - by vm_compute.
Defined.

(** C5, as stated, fails in two ways.  When the first call itself ended in
    the warning, nothing is modified between the two calls and the second
    call warns again instead of answering "up to date".  And when a
    template file can be written but not read (no backup requested), the
    first call deploys and so does the second, adding a deployment row
    each time. *)
Lemma second_call_is_not_always_up_to_date :
  (let first := setupProjectRules Fixtures.demo Fixtures.env2 false true None
                  None Fixtures.edited in
   let second := setupProjectRules Fixtures.demo Fixtures.env2 false true
                   None None (fst first) in
   snd first = Ok (ModificationWarning "2024-01-01 10:00:00" "Unknown"
                     ["a.mdc"]) /\
   snd second = Ok (ModificationWarning "2024-01-01 10:00:00" "Unknown"
                      ["a.mdc"]) /\
   snd second <> Ok AlreadyUpToDate /\
   db (fst second) = db Fixtures.edited /\
   fs (fst second) = fs (fst first)) /\
  (let first := setupProjectRules Fixtures.demo Fixtures.env2 false false
                  None None Fixtures.a_unreadable in
   let second := setupProjectRules Fixtures.demo Fixtures.env2 false false
                   None None (fst first) in
   snd first = Ok (Deployed true 2 2 "Unknown" None ["a.mdc"; "b.mdc"]) /\
   snd second = Ok (Deployed true 3 2 "Unknown" None ["a.mdc"; "b.mdc"]) /\
   map Db.id (Db.rule_deployments (db (fst second))) = [1; 2; 3]%N).
Proof.
  split; split_and!; by vm_compute.
Qed.

End Idempotence.

(* ------------------------------------------------------------------ *)
(** ** Facts about [LIKE] *)

Module SqliteFacts.
Import JsString Sqlite JsStringFacts.

Lemma like_percent (p t : string) :
  like (String "%" p) t
  = like p t || match t with
                | EmptyString => false
                | String _ t' => like (String "%" p) t'
                end.
Proof. by destruct t. Qed.

Lemma like_all (t : string) : like "%" t = true.
Proof.
  induction t as [|c t IH]; [done|].
  rewrite like_percent, IH. by rewrite orb_true_r.
Qed.

Lemma like_skip (p a t : string) :
  like p t = true -> like (String "%" p) (a +:+ t) = true.
Proof.
  intros H. induction a as [|c a IH].
  - rewrite sapp_nil_l, like_percent, H. done.
  - rewrite sapp_cons, like_percent, IH. by rewrite orb_true_r.
Qed.

Lemma lower_idem (c : ascii) : lower (lower c) = lower c.
Proof. by destruct c as [[] [] [] [] [] [] [] []]. Qed.

Lemma lower_percent (c : ascii) :
  Ascii.eqb (lower c) "%" = Ascii.eqb c "%".
Proof. by destruct c as [[] [] [] [] [] [] [] []]. Qed.

Lemma lower_underscore (c : ascii) :
  Ascii.eqb (lower c) "_" = Ascii.eqb c "_".
Proof. by destruct c as [[] [] [] [] [] [] [] []]. Qed.

(** A pattern matches itself, whatever wildcards it holds, and whatever
    follows it if the rest of the pattern matches that. *)
Lemma like_prefix (x p t : string) :
  like p t = true -> like (x +:+ p) (x +:+ t) = true.
Proof.
  intros H. induction x as [|c x IH].
  - by rewrite !sapp_nil_l.
  - rewrite !sapp_cons.
    destruct (Ascii.eqb c "%") eqn:E.
    + apply Ascii.eqb_eq in E as ->.
      rewrite like_percent. cbn [like] in IH.
      rewrite like_percent. rewrite IH. by rewrite !orb_true_r.
    + cbn [like]. rewrite E, IH, Ascii.eqb_refl. by rewrite orb_true_r.
Qed.

Lemma like_contains (x a b : string) :
  like ("%" +:+ x +:+ "%") (a +:+ x +:+ b) = true.
Proof.
  change ("%" +:+ x +:+ "%") with (String "%" (x +:+ "%")).
  apply like_skip, like_prefix, like_all.
Qed.

(** Letter case does not matter, neither in the pattern nor in the text. *)
Lemma like_toLowerCase_l (p t : string) :
  like (toLowerCase p) t = like p t.
Proof.
  revert t. induction p as [|c p IH]; intros t; [done|].
  cbn [toLowerCase]. fold (lower c).
  cbn [like]. rewrite lower_percent, lower_underscore, lower_idem.
  destruct (Ascii.eqb c "%").
  - induction t as [|d t IHt]; [by rewrite IH|]. by rewrite IH, IHt.
  - destruct t; [done|]. by rewrite IH.
Qed.

Lemma like_toLowerCase_r (p t : string) :
  like p (toLowerCase t) = like p t.
Proof.
  revert t. induction p as [|c p IH]; intros t; [by destruct t|].
  cbn [like].
  destruct (Ascii.eqb c "%").
  - induction t as [|d t IHt]; [done|].
    cbn [toLowerCase]. rewrite <- IHt.
    change (String ?x (toLowerCase t)) with (toLowerCase (String d t)).
    by rewrite IH.
  - destruct t as [|d t]; [done|]. cbn [toLowerCase]. fold (lower d).
    by rewrite lower_idem, IH.
Qed.

Lemma occurs_char (c d : ascii) (s : string) :
  occurs (String c "") (String d s)
  = Ascii.eqb c d || occurs (String c "") s.
Proof.
  cbn [occurs String.prefix].
  destruct (ascii_dec c d) as [->|Hne].
  - rewrite Ascii.eqb_refl. by destruct s.
  - by rewrite (proj2 (Ascii.eqb_neq c d) Hne).
Qed.

Lemma like_percent_split (p t : string) :
  like (String "%" p) t = true ->
  exists a s, t = a +:+ s /\ like p s = true.
Proof.
  induction t as [|c t IH]; rewrite like_percent.
  - rewrite orb_false_r. intros H. by exists "", "".
  - intros [H|H]%orb_true_iff.
    + by exists "", (String c t).
    + destruct (IH H) as (a & s & -> & Hs).
      exists (String c a), s. by rewrite sapp_cons.
Qed.

Lemma toLowerCase_app (a b : string) :
  toLowerCase (a +:+ b) = toLowerCase a +:+ toLowerCase b.
Proof.
  induction a as [|c a IH]; [by rewrite !sapp_nil_l|].
  rewrite sapp_cons. cbn [toLowerCase]. by rewrite sapp_cons, IH.
Qed.

(** A pattern without wildcards matches what it spells, letter case
    apart. *)
Lemma like_literal (p rest s : string) :
  occurs "%" p = false -> occurs "_" p = false ->
  like (p +:+ rest) s = true ->
  exists u s', s = u +:+ s' /\ toLowerCase u = toLowerCase p
               /\ like rest s' = true.
Proof.
  revert s. induction p as [|c p IH]; intros s Hp Hu.
  { rewrite sapp_nil_l. intros H. by exists "", s. }
  rewrite occurs_char in Hp, Hu.
  apply orb_false_iff in Hp as [Hc Hp].
  apply orb_false_iff in Hu as [Hc' Hu].
  rewrite sapp_cons. cbn [like].
  rewrite Ascii.eqb_sym, Hc.
  destruct s as [|d s]; [done|].
  rewrite (Ascii.eqb_sym c "_"), Hc'. cbn [orb].
  intros [Hcd Hl]%andb_true_iff.
  destruct (IH s Hp Hu Hl) as (u & s' & -> & Hfold & Hrest).
  exists (String d u), s'. rewrite sapp_cons. split; [done|].
  split; [|done]. cbn [toLowerCase]. fold (lower c) (lower d).
  apply Ascii.eqb_eq in Hcd. by rewrite Hfold, Hcd.
Qed.

End SqliteFacts.

(* ------------------------------------------------------------------ *)
(** ** The fact store (src/database.ts 220-389) *)

Module FactStore.
Import JsString Sqlite JsStringFacts SqliteFacts Observe Views.
Import Recording.

Lemma sql_limit_elem {A : Type} (limit : Z) (rows : list A) (x : A) :
  x ∈ sql_limit limit rows -> x ∈ rows.
Proof.
  unfold sql_limit. destruct (limit <? 0)%Z; [done|].
  intros H. apply list_elem_of_lookup in H as [i H].
  apply lookup_take_Some in H as [H _]. by eapply list_elem_of_lookup_2.
Qed.

Lemma sql_limit_length {A : Type} (limit : Z) (rows : list A) :
  (0 <= limit)%Z -> length (sql_limit limit rows) <= Z.to_nat limit.
Proof.
  intros H. unfold sql_limit.
  destruct (limit <? 0)%Z eqn:E; [apply Z.ltb_lt in E; lia|].
  rewrite length_take. lia.
Qed.

Lemma sql_limit_all {A : Type} (limit : Z) (rows : list A) :
  within limit (length rows) -> sql_limit limit rows = rows.
Proof.
  unfold sql_limit, within. intros [H|H].
  - by apply Z.ltb_lt in H as ->.
  - destruct (limit <? 0)%Z; [done|]. by apply take_ge.
Qed.

Lemma sql_limit_in_order {A : Type} (key : A -> string) (desc : bool)
    (limit : Z) (rows : list A) :
  Db.in_order key desc rows -> Db.in_order key desc (sql_limit limit rows).
Proof.
  unfold sql_limit. destruct (limit <? 0)%Z; [done|].
  intros H i j x y Hij Hx Hy.
  apply lookup_take_Some in Hx as [Hx _].
  apply lookup_take_Some in Hy as [Hy _].
  by apply (H i j).
Qed.

Lemma sql_limit_head {A : Type} (limit : Z) (rows : list A) :
  limit <> 0%Z -> head (sql_limit limit rows) = head rows.
Proof.
  intros H. unfold sql_limit. destruct (limit <? 0)%Z eqn:E; [done|].
  apply Z.ltb_ge in E.
  destruct (Z.to_nat limit) as [|n] eqn:En; [lia|]. by destruct rows.
Qed.

Section Queries.
Variable order_by : Db.OrderBy.
Hypothesis order_by_ok : Db.order_by_ok order_by.

Lemma getFacts_elem (cat : option string) (tgs : option (list string))
    (search : option string) (limit : Z) (db : Db.Database)
    (row : Db.StoredFact) :
  row ∈ Db.getFacts order_by cat tgs search limit db ->
  row ∈ Db.facts db /\ Db.selected cat tgs search row = true.
Proof.
  unfold Db.getFacts. intros H%sql_limit_elem.
  apply (History.ordered_elem order_by order_by_ok) in H.
  by apply list_elem_of_filter in H as [? ?].
Qed.

Lemma getFacts_all (cat : option string) (tgs : option (list string))
    (search : option string) (limit : Z) (db : Db.Database) :
  within limit
    (length (filter (fun row => Db.selected cat tgs search row = true)
                    (Db.facts db))) ->
  Permutation
    (filter (fun row => Db.selected cat tgs search row = true)
            (Db.facts db))
    (Db.getFacts order_by cat tgs search limit db).
Proof.
  intros H. unfold Db.getFacts.
  destruct (order_by_ok _ Db.createdAt true
              (filter (fun row => Db.selected cat tgs search row = true)
                      (Db.facts db))) as [Hp _].
  rewrite sql_limit_all; [done|].
  by rewrite <- Hp.
Qed.
End Queries.


Lemma selected_category (c : string) (row : Db.StoredFact) :
  Db.selected (Some c) None None row = true
  <-> (truthy c = true -> Db.category row = c).
Proof.
  unfold Db.selected. simpl. rewrite !andb_true_r.
  destruct (truthy c); [|done].
  rewrite bool_decide_eq_true. split.
  - intros [= ->]. done.
  - intros ->; done.
Qed.

Lemma join_member (sep x : string) (l : list string) :
  x ∈ l -> exists a b, join sep l = a +:+ x +:+ b.
Proof.
  induction l as [|y l IH]; intros Hin; [by apply elem_of_nil in Hin|].
  destruct l as [|z l].
  - apply list_elem_of_singleton in Hin as ->. exists "", "".
    by rewrite sapp_nil_l, sapp_empty_r.
  - apply elem_of_cons in Hin as [->|Hin].
    + exists "", (sep +:+ join sep (z :: l)). by rewrite sapp_nil_l.
    + destruct (IH Hin) as (a & b & E).
      exists (y +:+ sep +:+ a), b.
      change (join sep (y :: z :: l)) with (y +:+ sep +:+ join sep (z :: l)).
      rewrite E. by rewrite !sapp_assoc.
Qed.

Lemma tag_matches (t : string) (l : list string) :
  t ∈ l -> unescaped t ->
  like (Db.tag_pattern t) (Json.stringify l) = true.
Proof.
  intros Hin Ht.
  destruct (join_member "," (Json.quoteJSONString t)
              (map Json.quoteJSONString l)) as (a & b & E).
  { by apply list_elem_of_fmap_2. }
  unfold Json.stringify. rewrite E.
  unfold Json.quoteJSONString. rewrite Ht.
  unfold Db.tag_pattern.
  change ("%" +:+ ?x) with (String "%" x).
  change ("[" +:+ ?x) with (String "[" x).
  rewrite <- sapp_cons. rewrite !sapp_assoc.
  apply like_skip.
  change (String Json.quote ?x) with (String Json.quote "" +:+ x).
  rewrite !sapp_assoc.
  apply like_prefix, like_prefix, like_prefix, like_all.
Qed.





Lemma head_strict_max {A : Type} (order_by : Db.OrderBy)
    (key : A -> string) (rows : list A) (x : A) :
  Db.order_by_ok order_by ->
  x ∈ rows ->
  (forall y, y ∈ rows -> y = x \/ String.ltb (key y) (key x) = true) ->
  head (order_by A key true rows) = Some x.
Proof.
  intros Hok Hin Hmax. destruct (Hok A key true rows) as [Hp Ho].
  destruct (order_by A key true rows) as [|h sorted] eqn:E.
  { apply Permutation_nil_r in Hp. subst.
    by apply elem_of_nil in Hin. }
  simpl. f_equal.
  assert (h ∈ rows) as Hh by (rewrite Hp; apply list_elem_of_here).
  destruct (Hmax h Hh) as [->|Hlt]; [done|]. exfalso.
  rewrite Hp in Hin. apply elem_of_cons in Hin as [->|Hin].
  { by apply (History.ltb_not_le (key h) (key h)). }
  apply list_elem_of_lookup_1 in Hin as [j Hj].
  apply (History.ltb_not_le (key h) (key x)); [done|].
  by apply (Ho 0 (S j) h x); [lia|..].
Qed.

Lemma stored_row_selected (now : string) (cat fct : string)
    (ctx : option string) (tgs : list string) (db : Db.Database) :
  stored now cat fct ctx tgs db
  ∈ filter (fun row => Db.selected (Some cat) None None row = true)
      (Db.facts (snd (Db.storeFact now cat fct ctx tgs db))).
Proof.
  apply list_elem_of_filter. split.
  - apply selected_category. done.
  - simpl. apply elem_of_app. right. by apply list_elem_of_singleton.
Qed.

Lemma stored_row_recalled (order_by : Db.OrderBy) (now : string)
    (cat fct : string) (ctx : option string) (tgs : list string)
    (db : Db.Database) (limit : Z) :
  Db.order_by_ok order_by ->
  within limit (S (length (Db.facts db))) ->
  stored now cat fct ctx tgs db
  ∈ Db.getFacts order_by (Some cat) None None limit
      (snd (Db.storeFact now cat fct ctx tgs db)).
Proof.
  intros Hok Hw. rewrite <- (getFacts_all _ Hok).
  - apply stored_row_selected.
  - destruct Hw as [Hw|Hw]; [by left|right].
    etrans; [apply length_filter|]. simpl.
    rewrite length_app. simpl. lia.
Qed.

Lemma stored_id_identifies (order_by : Db.OrderBy) (now : string)
    (cat fct : string) (ctx : option string) (tgs : list string)
    (db : Db.Database) (c t s : _) (limit : Z) (other : Db.StoredFact) :
  Db.order_by_ok order_by ->
  other ∈ Db.getFacts order_by c t s limit
            (snd (Db.storeFact now cat fct ctx tgs db)) ->
  Db.fact_id other = fst (Db.storeFact now cat fct ctx tgs db) ->
  other = stored now cat fct ctx tgs db.
Proof.
  intros Hok Hin Hid.
  apply (getFacts_elem _ Hok) in Hin as [Hin _]. simpl in Hin.
  apply elem_of_app in Hin as [Hin|Hin].
  - exfalso.
    pose proof (StoreFacts.next_id_above (map Db.fact_id (Db.facts db))
                  (Db.fact_id other)) as Hlt.
    simpl in Hid. rewrite Hid in Hlt.
    assert (Db.next_id (map Db.fact_id (Db.facts db))
            < Db.next_id (map Db.fact_id (Db.facts db)))%N; [|lia].
    apply Hlt. rewrite <- Hid. by apply list_elem_of_fmap_2.
  - by apply list_elem_of_singleton in Hin.
Qed.

(** X3: the id [storeFact] returns is the id of the row it
    inserted and of no other row a later [getFacts] returns; asking for
    the category just stored returns that row unless the limit is smaller
    than the table; and if every older fact was created strictly earlier,
    the new row comes first under any limit other than zero. *)
Theorem stored_fact_is_recalled (order_by : Db.OrderBy) (now : string)
    (cat fct : string) (ctx : option string) (tgs : list string)
    (db : Db.Database) (limit : Z) :
  Db.order_by_ok order_by ->
  let r := Db.storeFact now cat fct ctx tgs db in
  let row := stored now cat fct ctx tgs db in
  let rows := Db.getFacts order_by (Some cat) None None limit (snd r) in
  Db.fact_id row = fst r /\
  (forall other, other ∈ rows -> Db.fact_id other = fst r -> other = row) /\
  (within limit (S (length (Db.facts db))) -> row ∈ rows) /\
  (limit <> 0%Z -> facts_older db now -> head rows = Some row).
Proof.
  intros Hok r row rows.
  split_and!; [done| | |].
  - intros other. by apply stored_id_identifies.
  - by apply stored_row_recalled.
  - intros Hl Hold. unfold rows, Db.getFacts.
    rewrite sql_limit_head by done.
    apply head_strict_max; [done|apply stored_row_selected|].
    intros y [_ Hy]%list_elem_of_filter. simpl in Hy.
    apply elem_of_app in Hy as [Hy|Hy].
    + right. by apply Hold.
    + left. by apply list_elem_of_singleton in Hy.
Qed.

Lemma stored_fact_is_recalled_witness :
  head (Db.getFacts Db.stable_order_by (Some "decisions") None None 1
          (snd (Db.storeFact "2024-02-01 12:00:00" "decisions"
                  "Ship weekly" None ["process"] Samples.notebook)))
  = Some (stored "2024-02-01 12:00:00" "decisions" "Ship weekly" None
            ["process"] Samples.notebook).
Proof.
  apply (stored_fact_is_recalled Db.stable_order_by "2024-02-01 12:00:00"
           "decisions" "Ship weekly" None ["process"] Samples.notebook 1
           History.stable_order_by_ok).
  - lia.
  - intros row Hin. vm_compute in Hin.
    repeat (apply elem_of_cons in Hin as [->|Hin]; [reflexivity|]).
    by apply elem_of_nil in Hin.
Defined.

(** X4: a fact that carries a tag is found by a tag search that
    names this tag, whatever other tags are asked for as well, provided
    the tag holds no character [JSON.stringify] escapes, the fact passes
    the category and text conditions, and the limit lets the whole table
    through. *)
Theorem tagged_fact_is_found (order_by : Db.OrderBy)
    (cat search : option string) (wanted : list string) (limit : Z)
    (db : Db.Database) (row : Db.StoredFact) (t : string) :
  Db.order_by_ok order_by ->
  row ∈ Db.facts db ->
  t ∈ Db.tags row -> unescaped t -> t ∈ wanted ->
  Db.selected cat None search row = true ->
  within limit (length (Db.facts db)) ->
  row ∈ Db.getFacts order_by cat (Some wanted) search limit db.
Proof.
  intros Hok Hin Ht Hu Hw Hsel Hlim.
  assert (Db.selected cat (Some wanted) search row = true) as E.
  { rewrite <- Hsel. unfold Db.selected. f_equal.
    destruct wanted as [|w wanted]; [done|].
    apply (Classification.existsb_true _ _ t); [done|].
    by apply tag_matches. }
  rewrite <- (getFacts_all _ Hok).
  - by apply list_elem_of_filter.
  - destruct Hlim as [Hlim|Hlim]; [by left|right].
    etrans; [apply length_filter|]. done.
Qed.

Lemma tagged_fact_is_found_witness :
  Samples.note3 ∈ Db.getFacts Db.stable_order_by None
                    (Some ["testing"; "frontend"]) None 20
                    Samples.notebook.
Proof.
  apply (tagged_fact_is_found Db.stable_order_by None None
           ["testing"; "frontend"] 20 Samples.notebook Samples.note3
           "frontend" History.stable_order_by_ok).
  - vm_compute. do 2 apply list_elem_of_further. apply list_elem_of_here.
  - apply list_elem_of_here.
  - reflexivity.
  - apply list_elem_of_further, list_elem_of_here.
  - reflexivity.
  - right. vm_compute. lia.
Defined.

Lemma selected_search_fold (cat : option string)
    (tgs : option (list string)) (s s' : string) (row : Db.StoredFact) :
  toLowerCase s = toLowerCase s' ->
  Db.selected cat tgs (Some s) row = Db.selected cat tgs (Some s') row.
Proof.
  intros E. unfold Db.selected. f_equal. f_equal.
  assert (truthy s = truthy s') as ->.
  { destruct s, s'; try done. }
  assert (forall t, like (Db.search_pattern s) t
                    = like (Db.search_pattern s') t) as El.
  { intros t. rewrite <- (like_toLowerCase_l (Db.search_pattern s)).
    rewrite <- (like_toLowerCase_l (Db.search_pattern s')).
    unfold Db.search_pattern.
    change ("%" +:+ ?x) with (String "%" x). cbn [toLowerCase].
    f_equal. f_equal.
    assert (forall a b, toLowerCase (a +:+ b)
                        = toLowerCase a +:+ toLowerCase b) as Happ.
    { intros a b. induction a as [|c a IH]; [by rewrite !sapp_nil_l|].
      rewrite sapp_cons. cbn [toLowerCase]. by rewrite sapp_cons, IH. }
    by rewrite !Happ, E. }
  destruct (truthy s'); [|done].
  rewrite El. f_equal. destruct (Db.context row); simpl; [apply El|done].
Qed.

(** X5: the text search does not distinguish upper and lower
    case ASCII letters: two search strings that differ in letter case only
    give the same result, and a fact whose text or context contains the
    search string in any letter case is found (if it passes the other
    conditions and the limit lets the table through). *)
Theorem search_ignores_letter_case (order_by : Db.OrderBy)
    (cat : option string) (tgs : option (list string)) (s s' : string)
    (limit : Z) (db : Db.Database) :
  toLowerCase s = toLowerCase s' ->
  Db.getFacts order_by cat tgs (Some s) limit db
  = Db.getFacts order_by cat tgs (Some s') limit db /\
  (forall row a b,
     Db.order_by_ok order_by ->
     row ∈ Db.facts db ->
     Db.fact row = a +:+ s' +:+ b \/ Db.context row = Some (a +:+ s' +:+ b) ->
     Db.selected cat tgs None row = true ->
     within limit (length (Db.facts db)) ->
     row ∈ Db.getFacts order_by cat tgs (Some s) limit db).
Proof.
  intros E.
  assert (Db.getFacts order_by cat tgs (Some s) limit db
          = Db.getFacts order_by cat tgs (Some s') limit db) as Eg.
  { unfold Db.getFacts. f_equal. f_equal.
    apply list_filter_iff. intros row.
    by rewrite (selected_search_fold cat tgs s s'). }
  split; [done|]. intros row a b Hok Hin Hhas Hsel Hlim.
  rewrite Eg. rewrite <- (getFacts_all _ Hok).
  - apply list_elem_of_filter. split; [|done].
    revert Hsel. unfold Db.selected.
    intros Hsel. apply andb_true_iff in Hsel as [Hsel Ht].
    apply andb_true_iff in Hsel as [Hc _].
    rewrite Hc, Ht, andb_true_r. cbn [andb].
    destruct (truthy s'); [|done].
    unfold Db.search_pattern.
    destruct Hhas as [-> | ->].
    + by rewrite like_contains.
    + cbn [like_opt]. rewrite like_contains. by rewrite orb_true_r.
  - destruct Hlim as [Hlim|Hlim]; [by left|right].
    etrans; [apply length_filter|]. done.
Qed.

Lemma search_ignores_letter_case_witness :
  Db.getFacts Db.stable_order_by None None (Some "REDUX") 20
    Samples.notebook
  = Db.getFacts Db.stable_order_by None None (Some "redux") 20
      Samples.notebook.
Proof.
  by apply (search_ignores_letter_case Db.stable_order_by None None
              "REDUX" "redux" 20 Samples.notebook).
Defined.


Lemma split_on_nonempty (sep : ascii) (s : string) : split_on sep s <> [].
Proof.
  destruct s as [|c s]; [done|]. simpl.
  destruct (Ascii.eqb c sep); [done|]. by destruct (split_on sep s).
Qed.

Lemma split_on_app (sep : ascii) (a b : string) :
  split_on sep (a +:+ String sep b) = split_on sep a ++ split_on sep b.
Proof.
  induction a as [|c a IH].
  - rewrite sapp_nil_l. simpl. by rewrite Ascii.eqb_refl.
  - rewrite sapp_cons. simpl. rewrite IH.
    destruct (Ascii.eqb c sep); [done|].
    pose proof (split_on_nonempty sep a).
    by destruct (split_on sep a).
Qed.

Lemma split_on_free (sep : ascii) (s : string) :
  occurs (String sep "") s = false -> split_on sep s = [s].
Proof.
  induction s as [|c s IH]; [done|].
  rewrite occurs_char. intros [Hc Hs]%orb_false_iff. simpl.
  rewrite Ascii.eqb_sym, Hc. by rewrite IH.
Qed.

Lemma escape_cases (c : ascii) :
  (Json.escape c = String c "" /\ c <> Json.quote) \/
  exists x r, Json.escape c = String "\" (String x r).
Proof.
  destruct c as [[] [] [] [] [] [] [] []]; vm_compute;
    first [ left; split; [reflexivity|discriminate]
          | right; eexists _, _; reflexivity ].
Qed.

Lemma escape_all_length (s : string) :
  String.length s <= String.length (Json.escape_all s).
Proof.
  induction s as [|c s IH]; [done|]. cbn [Json.escape_all String.length].
  rewrite slength_app.
  destruct (escape_cases c) as [[-> _]|(x & r & ->)]; simpl; lia.
Qed.

Lemma unescaped_cons (c : ascii) (s : string) :
  unescaped (String c s) -> c <> Json.quote /\ unescaped s.
Proof.
  unfold unescaped. cbn [Json.escape_all].
  destruct (escape_cases c) as [[-> Hq]|(x & r & E)].
  - rewrite sapp_cons, sapp_nil_l. by intros [= ?].
  - rewrite E, !sapp_cons. intros [= <- Hs]. exfalso.
    pose proof (escape_all_length s) as Hlen.
    rewrite <- Hs in Hlen at 1. simpl in Hlen.
    rewrite slength_app in Hlen. lia.
Qed.

Lemma unescaped_quote_free (s : string) :
  unescaped s -> occurs (String Json.quote "") s = false.
Proof.
  induction s as [|c s IH]; [done|].
  intros [Hq Hs]%unescaped_cons. rewrite occurs_char, (IH Hs).
  rewrite orb_false_r. apply Ascii.eqb_neq. congruence.
Qed.

(** The text of the tags column, cut at the double quotes: the opening
    bracket, then the tags with commas between them, then the closing
    bracket. *)
Lemma split_joined (pre : string) (e : string) (rest : list string) :
  occurs (String Json.quote "") pre = false ->
  Forall unescaped (e :: rest) ->
  split_on Json.quote
    (pre +:+ join "," (map Json.quoteJSONString (e :: rest)) +:+ "]")
  = pre :: e :: flat_map (fun e' => [","; e']) rest ++ ["]"].
Proof.
  revert pre e. induction rest as [|e2 rest IH]; intros pre e Hpre Hall.
  - apply Forall_cons in Hall as [He _]. cbn [map join flat_map app].
    unfold Json.quoteJSONString. rewrite He.
    rewrite sapp_cons, split_on_app, sapp_assoc, sapp_cons, sapp_nil_l.
    rewrite split_on_app.
    rewrite (split_on_free _ pre Hpre).
    rewrite (split_on_free _ e (unescaped_quote_free e He)).
    by rewrite (split_on_free _ "]").
  - apply Forall_cons in Hall as [He Hall].
    change (join "," (map Json.quoteJSONString (e :: e2 :: rest)))
      with (Json.quoteJSONString e +:+ ","
            +:+ join "," (map Json.quoteJSONString (e2 :: rest))).
    unfold Json.quoteJSONString at 1. rewrite He.
    rewrite !sapp_assoc, sapp_cons, split_on_app.
    rewrite !sapp_assoc, sapp_cons, sapp_nil_l, split_on_app.
    rewrite (split_on_free _ pre Hpre).
    rewrite (split_on_free _ e (unescaped_quote_free e He)).
    rewrite (IH "," e2); [done|done|done].
Qed.

Lemma inner_piece {A : Type} (x y t : A) (inner sA sB : list A) :
  x :: inner ++ [y] = sA ++ t :: sB -> sA <> [] -> sB <> [] ->
  t ∈ inner.
Proof.
  intros E HA HB. destruct sA as [|a sA]; [done|].
  injection E as _ E.
  destruct (exists_last HB) as (sB0 & z & ->).
  change (t :: sB0 ++ [z]) with ((t :: sB0) ++ [z]) in E.
  rewrite app_assoc in E. apply app_inj_tail in E as [-> _].
  apply elem_of_app. right. apply list_elem_of_here.
Qed.

Lemma toLowerCase_quote_free (u p : string) :
  toLowerCase u = toLowerCase p ->
  occurs (String Json.quote "") p = false ->
  occurs (String Json.quote "") u = false.
Proof.
  revert p. induction u as [|c u IH]; intros [|d p]; try done.
  cbn [toLowerCase]. fold (lower c) (lower d). intros [= Hc Hu].
  rewrite !occurs_char. intros [Hd Hp]%orb_false_iff.
  rewrite (IH p Hu Hp), orb_false_r.
  apply Ascii.eqb_neq in Hd. apply Ascii.eqb_neq. intros <-.
  apply Hd. clear -Hc.
  destruct d as [[] [] [] [] [] [] [] []]; vm_compute in Hc; try discriminate;
    reflexivity.
Qed.

Lemma toLowerCase_comma (t : string) :
  toLowerCase "," = toLowerCase t -> t = ",".
Proof.
  destruct t as [|c [|d t]]; try done.
  cbn [toLowerCase]. intros [= Hc]. f_equal.
  destruct c as [[] [] [] [] [] [] [] []]; vm_compute in Hc; try discriminate;
    reflexivity.
Qed.

Lemma toLowerCase_cons_quote (u p : string) (c : ascii) :
  toLowerCase (String c u) = toLowerCase (String Json.quote p) ->
  c = Json.quote /\ toLowerCase u = toLowerCase p.
Proof.
  cbn [toLowerCase]. intros [= Hc Hu]. split; [|done].
  destruct c as [[] [] [] [] [] [] [] []]; vm_compute in Hc; try discriminate;
    reflexivity.
Qed.

(** A match of the tag pattern sits on a whole tag. *)
Lemma tag_pattern_sound (t : string) (l : list string) :
  Forall unescaped l ->
  occurs "%" t = false -> occurs "_" t = false ->
  occurs (String Json.quote "") t = false ->
  t <> "" -> t <> "," ->
  like (Db.tag_pattern t) (Json.stringify l) = true ->
  exists tag, tag ∈ l /\ toLowerCase tag = toLowerCase t.
Proof.
  intros Hall Hp Hu Hq Hne Hcomma. unfold Db.tag_pattern.
  change ("%" +:+ ?x) with (String "%" x).
  intros (a & s & Htext & Hl)%like_percent_split.
  change (String Json.quote (t +:+ String Json.quote "%"))
    with (String Json.quote "" +:+ (t +:+ String Json.quote "%")) in Hl.
  apply like_literal in Hl as (q1 & s1 & -> & Hq1 & Hl); [|done..].
  apply like_literal in Hl as (t' & s2 & -> & Ht' & Hl); [|done..].
  change (String Json.quote "%") with (String Json.quote "" +:+ "%") in Hl.
  apply like_literal in Hl as (q2 & s3 & -> & Hq2 & _); [|done..].
  destruct q1 as [|c1 [|? ?]]; try done.
  destruct q2 as [|c2 [|? ?]]; try done.
  apply toLowerCase_cons_quote in Hq1 as [-> _].
  apply toLowerCase_cons_quote in Hq2 as [-> _].
  assert (occurs (String Json.quote "") t' = false) as Hq'.
  { by apply (toLowerCase_quote_free t' t). }
  assert (t' <> "") as Hne'.
  { intros ->. by destruct t. }
  assert (split_on Json.quote (Json.stringify l)
          = split_on Json.quote a ++ t' :: split_on Json.quote s3) as Hs.
  { rewrite Htext. rewrite !sapp_cons, !sapp_nil_l.
    rewrite split_on_app. f_equal.
    rewrite split_on_app. by rewrite (split_on_free _ t' Hq'). }
  destruct l as [|e rest].
  { exfalso. change (split_on Json.quote (Json.stringify [])) with ["[]"] in Hs.
    pose proof (split_on_nonempty Json.quote a) as Ha.
    destruct (split_on Json.quote a) as [|? [|? ?]]; done. }
  unfold Json.stringify in Hs.
  rewrite (split_joined "[" e rest) in Hs by done.
  change ("[" :: e :: ?x ++ ["]"]) with ("[" :: (e :: x) ++ ["]"]) in Hs.
  apply inner_piece in Hs; [|apply split_on_nonempty..].
  assert (t' ∈ e :: rest \/ t' = ",") as [Hin| ->].
  { apply elem_of_cons in Hs as [->|Hs]; [left; apply list_elem_of_here|].
    apply list_elem_of_In, in_flat_map in Hs as (e' & He' & Hs).
    apply list_elem_of_In in He'.
    apply list_elem_of_In in Hs.
    apply elem_of_cons in Hs as [->|Hs]; [by right|].
    apply list_elem_of_singleton in Hs as ->. left.
    by apply list_elem_of_further. }
  - by exists t'.
  - exfalso. by apply Hcomma, toLowerCase_comma.
Qed.

Lemma tag_pattern_fold (t tag : string) :
  toLowerCase tag = toLowerCase t ->
  forall text, like (Db.tag_pattern t) text = like (Db.tag_pattern tag) text.
Proof.
  intros E text.
  rewrite <- (like_toLowerCase_l (Db.tag_pattern t)).
  rewrite <- (like_toLowerCase_l (Db.tag_pattern tag)).
  f_equal. unfold Db.tag_pattern.
  change ("%" +:+ ?x) with (String "%" x). cbn [toLowerCase].
  by rewrite !toLowerCase_app, E.
Qed.

Lemma existsb_exists {A : Type} (f : A -> bool) (l : list A) :
  existsb f l = true <-> exists x, x ∈ l /\ f x = true.
Proof.
  rewrite List.existsb_exists. split; intros (x & H1 & H2); exists x;
    (split; [by apply list_elem_of_In|done]).
Qed.

(** X6: when no tag of a fact holds a character [JSON.stringify]
    escapes, and the tags asked for are free of wildcards and double
    quotes and are neither empty nor a comma, the fact passes the tag
    condition exactly if one of its tags equals one of the tags asked for,
    upper and lower case ASCII letters taken as equal. *)
Theorem tag_search_is_exact (cat search : option string)
    (wanted : list string) (row : Db.StoredFact) :
  Forall unescaped (Db.tags row) ->
  Forall exact_tag wanted ->
  wanted <> [] ->
  Db.selected cat (Some wanted) search row = true
  <-> Db.selected cat None search row = true /\
      exists t tag, t ∈ wanted /\ tag ∈ Db.tags row /\
                    toLowerCase tag = toLowerCase t.
Proof.
  intros Hrow Hwanted Hne. unfold Db.selected.
  destruct wanted as [|w wanted]; [done|].
  rewrite andb_true_r, andb_true_iff, existsb_exists.
  split.
  - intros [Hrest (t & Ht & Hl)]. split; [done|].
    rewrite Forall_forall in Hwanted.
    destruct (Hwanted t Ht) as (H1 & H2 & H3 & H4 & H5).
    destruct (tag_pattern_sound t (Db.tags row)) as (tag & Hin & Hf);
      try done.
    by exists t, tag.
  - intros [Hrest (t & tag & Ht & Hin & Hf)]. split; [done|].
    exists t. split; [done|].
    rewrite (tag_pattern_fold t tag Hf).
    apply tag_matches; [done|].
    rewrite Forall_forall in Hrow. by apply Hrow.
Qed.

Lemma tag_search_is_exact_witness :
  Db.selected None (Some ["redux"]) None Samples.note3 = true.
Proof.
  apply (tag_search_is_exact None None ["redux"] Samples.note3).
  - by repeat constructor.
  - constructor; [|constructor]. by split_and!.
  - done.
  - split; [reflexivity|]. exists "redux", "Redux".
    split_and!; [apply list_elem_of_here| |reflexivity].
    apply list_elem_of_further, list_elem_of_here.
Defined.

(** X7: a fact returned for a search string that is not empty and
    holds neither [%] nor [_] contains that string, letter case apart, in
    its text or in its context. *)
Theorem search_results_contain_the_text (order_by : Db.OrderBy)
    (cat : option string) (tgs : option (list string)) (s : string)
    (limit : Z) (db : Db.Database) (row : Db.StoredFact) :
  Db.order_by_ok order_by ->
  truthy s = true ->
  occurs "%" s = false -> occurs "_" s = false ->
  row ∈ Db.getFacts order_by cat tgs (Some s) limit db ->
  exists a u b,
    toLowerCase u = toLowerCase s /\
    (Db.fact row = a +:+ u +:+ b
     \/ Db.context row = Some (a +:+ u +:+ b)).
Proof.
  intros Hok Hs Hp Hu Hin.
  apply (getFacts_elem _ Hok) in Hin as [_ Hsel].
  unfold Db.selected in Hsel. rewrite Hs in Hsel.
  apply andb_true_iff in Hsel as [Hsel _].
  apply andb_true_iff in Hsel as [_ Hsel].
  assert (forall text, like (Db.search_pattern s) text = true ->
            exists a u b, toLowerCase u = toLowerCase s
                          /\ text = a +:+ u +:+ b) as Hfind.
  { intros text. unfold Db.search_pattern.
    change ("%" +:+ ?x) with (String "%" x).
    intros (a & rest & -> & Hl)%like_percent_split.
    apply like_literal in Hl as (u & b & -> & Hf & _); [|done..].
    by exists a, u, b. }
  apply orb_true_iff in Hsel as [Hl|Hl].
  - destruct (Hfind _ Hl) as (a & u & b & Hf & E). exists a, u, b. auto.
  - destruct (Db.context row) as [c|]; [|done]. simpl in Hl.
    destruct (Hfind _ Hl) as (a & u & b & Hf & ->). exists a, u, b. auto.
Qed.

Lemma search_results_contain_the_text_witness :
  exists a u b,
    toLowerCase u = toLowerCase "redux" /\
    (Db.fact Samples.note3 = a +:+ u +:+ b
     \/ Db.context Samples.note3 = Some (a +:+ u +:+ b)).
Proof.
  apply (search_results_contain_the_text Db.stable_order_by None None
           "redux" 20 Samples.notebook Samples.note3
           History.stable_order_by_ok); [reflexivity..|].
  vm_compute. apply list_elem_of_here.
Defined.

(** X8: [updateFact] keeps the ids, the creation times and the
    order of the facts and leaves the two history tables alone; rows with
    another id are unchanged; in the row with the given id the fields that
    are given are replaced, the others kept, and [updated_at] is set; with
    no field given, or an id that is not in the table, nothing changes. *)
Theorem updateFact_touches_one_row (now : string) (i : N)
    (updates : Db.FactUpdates) (db : Db.Database) :
  let db' := Db.updateFact now i updates db in
  map Db.fact_id (Db.facts db') = map Db.fact_id (Db.facts db) /\
  map Db.createdAt (Db.facts db') = map Db.createdAt (Db.facts db) /\
  Db.rule_deployments db' = Db.rule_deployments db /\
  Db.rule_files db' = Db.rule_files db /\
  (forall k row, Db.facts db !! k = Some row -> Db.fact_id row <> i ->
                 Db.facts db' !! k = Some row) /\
  (forall k row, Db.facts db !! k = Some row -> Db.fact_id row = i ->
     Db.no_updates updates = false ->
     exists row',
       Db.facts db' !! k = Some row' /\
       Db.category row'
         = default (Db.category row) (Db.new_category updates) /\
       Db.fact row' = default (Db.fact row) (Db.new_fact updates) /\
       Db.context row'
         = from_option Some (Db.context row) (Db.new_context updates) /\
       Db.tags row' = default (Db.tags row) (Db.new_tags updates) /\
       Db.updatedAt row' = now) /\
  (Db.no_updates updates = true -> db' = db) /\
  (i ∉ map Db.fact_id (Db.facts db) -> db' = db).
Proof.
  intros db'. unfold db', Db.updateFact.
  destruct (Db.no_updates updates) eqn:En.
  { split_and!; try done. }
  cbn [Db.facts Db.rule_deployments Db.rule_files].
  split_and!; try done.
  - rewrite <- list_fmap_compose. apply list_fmap_ext.
    intros k row _. simpl. by destruct (bool_decide _).
  - rewrite <- list_fmap_compose. apply list_fmap_ext.
    intros k row _. simpl. by destruct (bool_decide _).
  - intros k row Hk Hne. rewrite list_lookup_fmap, Hk. simpl.
    by rewrite bool_decide_eq_false_2.
  - intros k row Hk He _. eexists. rewrite list_lookup_fmap, Hk. simpl.
    rewrite bool_decide_eq_true_2 by done.
    split; [done|]. simpl. split_and!; try done.
  - intros Hnot. destruct db as [fs ds rs]. simpl in *. f_equal.
    induction fs as [|row fs IH]; [done|]. simpl in *.
    apply not_elem_of_cons in Hnot as [Hne Hnot].
    rewrite bool_decide_eq_false_2 by done. f_equal. by apply IH.
Qed.

Lemma updateFact_touches_one_row_witness :
  exists row',
    Db.facts (Db.updateFact "2024-03-01 08:00:00" 2
                {| Db.new_category := Some "history";
                   Db.new_fact := None; Db.new_context := None;
                   Db.new_tags := Some [] |} Samples.notebook) !! 1
    = Some row' /\
    Db.category row' = "history" /\
    Db.fact row' = "Use SQLite for storage" /\
    Db.context row' = Some "keeps the server self-contained" /\
    Db.tags row' = [] /\
    Db.updatedAt row' = "2024-03-01 08:00:00".
Proof.
  destruct (updateFact_touches_one_row "2024-03-01 08:00:00" 2
              {| Db.new_category := Some "history"; Db.new_fact := None;
                 Db.new_context := None; Db.new_tags := Some [] |}
              Samples.notebook) as (_ & _ & _ & _ & _ & H & _).
  exact (H 1 Samples.note2 eq_refl eq_refl eq_refl).
Defined.

(** X9: after [deleteFact] no row has the given id, every other
    row is still there in its old order, the history tables are
    untouched, deleting again or deleting an absent id changes nothing,
    and no later [getFacts] returns a row with that id, while what it
    returns was a row of the table before. *)
Theorem deleted_fact_is_gone (order_by : Db.OrderBy) (i : N)
    (db : Db.Database) :
  let db' := Db.deleteFact i db in
  (i ∉ map Db.fact_id (Db.facts db')) /\
  (forall row, row ∈ Db.facts db'
               <-> row ∈ Db.facts db /\ Db.fact_id row <> i) /\
  sublist (Db.facts db') (Db.facts db) /\
  Db.rule_deployments db' = Db.rule_deployments db /\
  Db.rule_files db' = Db.rule_files db /\
  Db.deleteFact i db' = db' /\
  (i ∉ map Db.fact_id (Db.facts db) -> db' = db) /\
  (Db.order_by_ok order_by ->
   forall cat tgs search limit row,
     row ∈ Db.getFacts order_by cat tgs search limit db' ->
     Db.fact_id row <> i /\
     (within limit (length (Db.facts db)) ->
      row ∈ Db.getFacts order_by cat tgs search limit db)).
Proof.
  intros db'. unfold db', Db.deleteFact.
  cbn [Db.facts Db.rule_deployments Db.rule_files].
  assert (forall row, row ∈ filter (fun row => Db.fact_id row <> i)
                              (Db.facts db)
                      <-> row ∈ Db.facts db /\ Db.fact_id row <> i) as Hel.
  { intros row. rewrite list_elem_of_filter. tauto. }
  split_and!; try done.
  - intros (row & Hid & Hin)%list_elem_of_fmap.
    apply Hel in Hin as [_ Hne]. by apply Hne.
  - apply sublist_filter.
  - f_equal. apply filter_all. apply Forall_forall.
    intros row Hin. by apply Hel in Hin as [_ ?].
  - intros Hnot. destruct db as [fs ds rs]. simpl in *. f_equal.
    apply filter_all, Forall_forall. intros row Hin Heq.
    apply Hnot. rewrite <- Heq. by apply list_elem_of_fmap_2.
  - intros Hok cat tgs search limit row Hin.
    destruct (getFacts_elem _ Hok _ _ _ _ _ _ Hin) as [Hin' Hsel].
    simpl in Hin'. apply Hel in Hin' as [Hin' Hne]. split; [done|].
    intros Hlim. rewrite <- (getFacts_all _ Hok).
    + by apply list_elem_of_filter.
    + destruct Hlim as [Hlim|Hlim]; [by left|right].
      etrans; [apply length_filter|]. done.
Qed.

Lemma deleted_fact_is_gone_witness :
  (2%N ∉ map Db.fact_id (Db.facts (Db.deleteFact 2 Samples.notebook))) /\
  Db.deleteFact 2 (Db.deleteFact 2 Samples.notebook)
  = Db.deleteFact 2 Samples.notebook.
Proof.
  destruct (deleted_fact_is_gone Db.stable_order_by 2 Samples.notebook)
    as (H1 & _ & _ & _ & _ & H2 & _).
  by split.
Defined.


Lemma in_order_sorted {A : Type} (key : A -> string) (desc : bool)
    (l : list A) :
  Db.in_order key desc l -> StronglySorted (before key desc) l.
Proof.
  induction l as [|x l IH]; intros H; constructor.
  - apply IH. intros i j a b Hij Ha Hb.
    apply (H (S i) (S j) a b); [lia|done..].
  - apply Forall_forall. intros y Hy.
    apply list_elem_of_lookup_1 in Hy as [j Hj].
    apply (H 0 (S j) x y); [lia|done..].
Qed.

Lemma ordered_strings_unique (l1 l2 : list string) :
  Db.in_order (fun c => c) false l1 -> Db.in_order (fun c => c) false l2 ->
  Permutation l1 l2 -> l1 = l2.
Proof.
  intros H1%in_order_sorted H2%in_order_sorted Hp.
  apply (StronglySorted_unique_strong
           (before (fun c : string => c) false)); [|done..].
  intros x y _ _ Hxy Hyx. unfold before in *.
  by apply (anti_symm String.le).
Qed.

Lemma le_ne_ltb (x y : string) :
  String.le x y -> x <> y -> String.ltb x y = true.
Proof.
  unfold String.le, String.leb, String.ltb. intros Hle Hne.
  destruct (String.compare x y) eqn:E; try done.
  by apply String.compare_eq_iff in E.
Qed.

Lemma ordered_nodup_increasing (l : list string) :
  Db.in_order (fun c => c) false l -> NoDup l -> strictly_increasing l.
Proof.
  intros Ho Hn i j x y Hij Hx Hy. apply le_ne_ltb.
  - by apply (Ho i j x y).
  - intros ->. assert (i = j); [|lia]. by eapply NoDup_lookup.
Qed.



Lemma set_add_elem (s : list string) (t x : string) :
  x ∈ set_add s t <-> x ∈ s \/ x = t.
Proof.
  unfold set_add. case_bool_decide.
  - split; [by left|]. by intros [?| ->].
  - rewrite elem_of_app, list_elem_of_singleton. done.
Qed.

Lemma set_add_nodup (s : list string) (t : string) :
  NoDup s -> NoDup (set_add s t).
Proof.
  unfold set_add. intros Hn. case_bool_decide; [done|].
  apply NoDup_app. split_and!; [done| |apply NoDup_singleton].
  intros x Hx ->%list_elem_of_singleton. done.
Qed.

Lemma add_all_spec (ts s : list string) :
  NoDup s ->
  NoDup (fold_left set_add ts s) /\
  forall x, x ∈ fold_left set_add ts s <-> x ∈ s \/ x ∈ ts.
Proof.
  revert s. induction ts as [|t ts IH]; intros s Hn; simpl.
  { split; [done|]. intros x. rewrite elem_of_nil. tauto. }
  destruct (IH (set_add s t) (set_add_nodup s t Hn)) as [Hn' Hel].
  split; [done|]. intros x. rewrite Hel, set_add_elem, elem_of_cons. tauto.
Qed.

Lemma add_rows_spec {A : Type} (proj : A -> list string) (rows : list A)
    (s : list string) :
  NoDup s ->
  let all := fold_left (fun set row => fold_left set_add (proj row) set)
                       rows s in
  NoDup all /\
  forall x, x ∈ all <-> x ∈ s \/ exists row, row ∈ rows /\ x ∈ proj row.
Proof.
  revert s. induction rows as [|ts rows IH]; intros s Hn; simpl.
  { split; [done|]. intros x. split; [by left|].
    intros [?|(ts & Hts & _)]; [done|]. by apply elem_of_nil in Hts. }
  destruct (add_all_spec (proj ts) s Hn) as [Hn' Hel'].
  destruct (IH _ Hn') as [Hn'' Hel]. split; [done|].
  intros x. rewrite Hel, Hel'. split.
  - intros [[?|?]|(ts' & Hin & Hx)]; [by left| |].
    + right. exists ts. split; [apply list_elem_of_here|done].
    + right. exists ts'. split; [by apply list_elem_of_further|done].
  - intros [?|(ts' & Hin & Hx)]; [by left; left|].
    apply elem_of_cons in Hin as [->|Hin]; [by left; right|].
    right. by exists ts'.
Qed.

(** X10: [getCategories] lists exactly the categories that occur
    in the table, each once, in strictly ascending order; the list does
    not depend on how the engine orders equal keys. *)
Theorem categories_are_distinct_and_sorted (order_by : Db.OrderBy)
    (db : Db.Database) :
  Db.order_by_ok order_by ->
  let cats := Db.getCategories order_by db in
  (forall c, c ∈ cats <-> exists row, row ∈ Db.facts db
                                        /\ Db.category row = c) /\
  NoDup cats /\
  strictly_increasing cats /\
  (forall engine, Db.order_by_ok engine ->
                  Db.getCategories engine db = cats).
Proof.
  intros Hok cats. unfold cats, Db.getCategories.
  set (distinct := remove_dups (map Db.category (Db.facts db))).
  destruct (Hok string (fun c => c) false distinct) as [Hp Ho].
  assert (NoDup (order_by string (fun c => c) false distinct)) as Hn.
  { rewrite <- Hp. apply NoDup_remove_dups. }
  split_and!; [|done| |].
  - intros c. rewrite <- Hp. unfold distinct.
    rewrite elem_of_remove_dups, list_elem_of_fmap.
    split; intros (row & ? & ?); by exists row.
  - by apply ordered_nodup_increasing.
  - intros engine Hok'.
    destruct (Hok' string (fun c => c) false distinct) as [Hp' Ho'].
    apply ordered_strings_unique; [done..|].
    by rewrite <- Hp, <- Hp'.
Qed.

Lemma categories_are_distinct_and_sorted_witness :
  Db.getCategories Db.newest_first_order_by Samples.notebook
  = Db.getCategories Db.stable_order_by Samples.notebook.
Proof.
  apply (categories_are_distinct_and_sorted Db.stable_order_by
           Samples.notebook History.stable_order_by_ok).
  apply History.newest_first_order_by_ok.
Defined.



End FactStore.

(* ------------------------------------------------------------------ *)
(** ** More about the reconciliation and its history *)

Module Deployments.
Import JsString PosixPath Engine Observe Views.
Import JsStringFacts SqliteFacts EngineFacts WriteFacts StoreFacts
       Classification Recording.
Local Open Scope engine_scope.

(** *** What every step of the engine does to the store *)

Lemma keeps_ret {A : Type} (I : Db.Database -> Prop) (a : A) :
  keeps I (ret a).
Proof. intros w w' r HI [= <- <-]. done. Qed.

Lemma keeps_bind {A B : Type} (I : Db.Database -> Prop) (m : M A)
    (k : A -> M B) :
  keeps I m -> (forall a, keeps I (k a)) -> keeps I (bind m k).
Proof.
  intros Hm Hk w w' r HI. unfold bind.
  destruct (m w) as [w1 [a|e]] eqn:E.
  - intros Hr. by apply (Hk a w1 w' r); [apply (Hm w w1 (Ok a))|].
  - intros [= <- <-]. by apply (Hm w w1 (Throw e)).
Qed.

Lemma keeps_rethrow {A : Type} (I : Db.Database -> Prop)
    (wrap : string -> string) (m : M A) :
  keeps I m -> keeps I (rethrow wrap m).
Proof.
  intros Hm w w' r HI. unfold rethrow.
  destruct (m w) as [w1 [a|e]] eqn:E; intros [= <- <-].
  - by apply (Hm w w1 (Ok a)).
  - by apply (Hm w w1 (Throw e)).
Qed.

Lemma keeps_for_each {A : Type} (I : Db.Database -> Prop)
    (f : A -> M unit) (l : list A) :
  (forall x, keeps I (f x)) -> keeps I (for_each f l).
Proof.
  intros Hf. induction l as [|x l IH]; simpl.
  - apply keeps_ret.
  - apply keeps_bind; [apply Hf|]. by intros _.
Qed.

Lemma keeps_same {A : Type} (I : Db.Database -> Prop) (m : M A) :
  (forall w w' r, m w = (w', r) -> db w' = db w) -> keeps I m.
Proof. intros Hm w w' r HI Hr. by rewrite (Hm w w' r Hr). Qed.

Lemma mkdir_db (dir : string) (w w' : World) (r : Result unit) :
  mkdir dir w = (w', r) -> db w' = db w.
Proof. intros H. by destruct (mkdir_spec dir dir w w' r H) as [? _]. Qed.

Lemma writeFile_db (dir n c : string) (w w' : World) (r : Result unit) :
  writeFile dir n c w = (w', r) -> db w' = db w.
Proof.
  intros H. apply writeFile_spec in H. destruct r.
  - by destruct H as (e & _ & _ & ->).
  - by destruct H as [-> _].
Qed.

Lemma access_db (dir n : string) (w w' : World) (r : Result unit) :
  access dir n w = (w', r) -> db w' = db w.
Proof.
  unfold access. destruct (lookup_file _ _ _); by intros [= <- <-].
Qed.

Lemma checkWritable_db (dir : string) (w w' : World) (r : Result unit) :
  checkWritable dir w = (w', r) -> db w' = db w.
Proof.
  destruct r as [[]|e].
  - intros H. destruct (writable_dec (fs w) dir) as [Hw|Hnw].
    + rewrite (checkWritable_ok dir w Hw) in H. by injection H as <-.
    + exfalso. unfold checkWritable in H. apply rethrow_ok in H.
      apply Hnw. unfold bind in H.
      destruct (mkdir dir w) as [w1 [[]|e1]] eqn:E1; [|done].
      destruct (mkdir_spec dir dir w w1 _ E1) as (_ & Hf & _ & Hm & _).
      destruct (writeFile dir ".write_test" "test" w1) as [w2 [[]|e2]] eqn:E2;
        [|done].
      apply writeFile_spec in E2 as (ent & _ & Hnw' & _).
      split; [done|]. destruct Hf as (_ & <- & _). done.
  - intros H. by destruct (checkWritable_throw dir w w' e H) as [? _].
Qed.

Lemma backupFiles_db (env : Env) (dir : string) (files : list string)
    (w w' : World) (r : Result string) :
  backupFiles env dir files w = (w', r) -> db w' = db w.
Proof. intros H. by destruct (backupFiles_spec env dir files w w' r H). Qed.

Section Keeps.
Variable I : Db.Database -> Prop.
Hypothesis keeps_storeFact :
  forall now cat fct ctx tgs d,
    I d -> I (snd (Db.storeFact now cat fct ctx tgs d)).
Hypothesis keeps_storeRuleDeployment :
  forall now version total by_ backup d,
    I d -> I (snd (Db.storeRuleDeployment now version total by_ backup d)).
Hypothesis keeps_storeRuleFile :
  forall now dep name hash d,
    I d -> I (snd (Db.storeRuleFile now dep name hash d)).

Lemma keeps_writeRules (P : Platform) (env : Env) (dir : string) (i : N)
    (rules : list CursorRule) (acc : list string) :
  keeps I (writeRules P env dir i rules acc).
Proof.
  revert acc. induction rules as [|rule rules IH]; intros acc; simpl.
  - apply keeps_ret.
  - apply keeps_bind.
    + apply keeps_rethrow, keeps_same. apply writeFile_db.
    + intros _. apply keeps_bind; [|intros _; apply IH].
      intros w w' r HI [= <- <-]. simpl. by apply keeps_storeRuleFile.
Qed.

Lemma keeps_deploy (P : Platform) (env : Env) (dir : string)
    (files : list string) (backup : bool) (by_ : option string) :
  keeps I (deploy P env dir files backup by_).
Proof.
  unfold deploy.
  apply keeps_bind; [apply keeps_same, mkdir_db|]. intros _.
  apply keeps_bind.
  { destruct (backup && (0 <? length files)).
    - apply keeps_bind; [apply keeps_same, backupFiles_db|].
      intros bp. apply keeps_ret.
    - apply keeps_ret. }
  intros bp. apply keeps_bind.
  { intros w w' r HI [= <- <-]. simpl.
    by apply keeps_storeRuleDeployment. }
  intros i. apply keeps_bind; [apply keeps_writeRules|].
  intros names. apply keeps_bind.
  { apply keeps_for_each. intros n.
    apply keeps_rethrow, keeps_same, access_db. }
  intros _. apply keeps_bind; [|intros _; apply keeps_ret].
  intros w w' r HI [= <- <-]. simpl. by apply keeps_storeFact.
Qed.

Lemma keeps_setup (P : Platform) (env : Env) (force backup : bool)
    (by_ wp : option string) :
  keeps I (setupProjectRules P env force backup by_ wp).
Proof.
  unfold setupProjectRules. apply keeps_rethrow.
  apply keeps_bind; [apply keeps_same, checkWritable_db|]. intros _.
  apply keeps_bind.
  { apply keeps_same. intros w w' r. rewrite inventory_eq.
    by intros [= <- <-]. }
  intros inv. apply keeps_bind.
  { apply keeps_same. by intros w w' r [= <- <-]. }
  intros latest. apply keeps_bind.
  { apply keeps_same. by intros w w' r [= <- <-]. }
  intros latestFiles.
  destruct ((0 <? length inv.1) && negb force); [|apply keeps_deploy].
  destruct (negb _ && negb _); [apply keeps_ret|].
  destruct (hasChanges _ _); [apply keeps_ret|apply keeps_deploy].
Qed.
End Keeps.

Lemma extends_refl (d : Db.Database) : extends d d.
Proof. by split_and!. Qed.

(** X12: whatever the arguments and however the call ends, also
    when it throws, [setupProjectRules] leaves every row of the three
    tables in place: each table after the call starts with the table
    before the call. *)
Theorem history_only_grows (P : Platform) (env : Env)
    (force backup : bool) (by_ wp : option string) (w : World) :
  extends (db w)
    (db (fst (setupProjectRules P env force backup by_ wp w))).
Proof.
  destruct (setupProjectRules P env force backup by_ wp w) as [w2 r] eqn:E.
  simpl.
  apply (keeps_setup (extends (db w))) with (w := w) (w' := w2) (r := r)
      (P := P) (env := env) (force := force) (backup := backup)
      (by_ := by_) (wp := wp); [| | |apply extends_refl|done].
  - intros now cat fct ctx tgs d (Hf & Hd & Hr). split_and!; [|done..].
    simpl. by apply prefix_app_r.
  - intros now v t b bp d (Hf & Hd & Hr). split_and!; [done| |done].
    simpl. by apply prefix_app_r.
  - intros now dep n h d (Hf & Hd & Hr). split_and!; [done..|].
    simpl. by apply prefix_app_r.
Qed.

Lemma history_only_grows_witness :
  extends (db Fixtures.b_locked)
    (db (fst (setupProjectRules Fixtures.demo Fixtures.env1 false true None
                None Fixtures.b_locked))).
Proof.
  exact (history_only_grows Fixtures.demo Fixtures.env1 false true None
           None Fixtures.b_locked).
Defined.

Lemma nodup_next_id (ids : list N) :
  NoDup ids -> NoDup (ids ++ [Db.next_id ids]).
Proof.
  intros Hn. apply NoDup_app. split_and!; [done| |apply NoDup_singleton].
  intros x Hx ->%list_elem_of_singleton.
  pose proof (next_id_above ids _ Hx). lia.
Qed.

(** X13: if no two rows of a table share an id before a call of
    [setupProjectRules], none do after it, however the call ends. *)
Theorem ids_stay_unique (P : Platform) (env : Env)
    (force backup : bool) (by_ wp : option string) (w : World) :
  ids_unique (db w) ->
  ids_unique (db (fst (setupProjectRules P env force backup by_ wp w))).
Proof.
  intros Hu.
  destruct (setupProjectRules P env force backup by_ wp w) as [w2 r] eqn:E.
  simpl.
  apply (keeps_setup ids_unique) with (w := w) (w' := w2) (r := r)
      (P := P) (env := env) (force := force) (backup := backup)
      (by_ := by_) (wp := wp); [| | |done..].
  - intros now cat fct ctx tgs d (Hf & Hd & Hr). split_and!; [|done..].
    simpl. rewrite map_app. by apply nodup_next_id.
  - intros now v t b bp d (Hf & Hd & Hr). split_and!; [done| |done].
    simpl. rewrite map_app. by apply nodup_next_id.
  - intros now dep n h d (Hf & Hd & Hr). split_and!; [done..|].
    simpl. rewrite map_app. by apply nodup_next_id.
Qed.

Lemma ids_stay_unique_witness :
  ids_unique
    (db (fst (setupProjectRules Fixtures.demo Fixtures.env2 true true None
                None Fixtures.deployed_once))).
Proof.
  apply (ids_stay_unique Fixtures.demo Fixtures.env2 true true None None
           Fixtures.deployed_once).
  unfold ids_unique.
  split_and!; apply (bool_decide_unpack _); vm_compute; exact I.
Defined.

(** X14: [getRuleDeploymentHistory] returns rows of the
    deployment table, newest first, at most [limit] of them when the limit
    is not negative; its first row is the one [getLatestRuleDeployment]
    returns (for a limit other than zero); with a negative limit or one
    that covers the table every deployment is returned; and a deployment
    that is left out is not newer than any that is returned. *)
Theorem deployment_history_is_newest_first (order_by : Db.OrderBy)
    (limit : Z) (d : Db.Database) :
  Db.order_by_ok order_by ->
  let rows := Db.getRuleDeploymentHistory order_by limit d in
  (forall row, row ∈ rows -> row ∈ Db.rule_deployments d) /\
  ((0 <= limit)%Z -> length rows <= Z.to_nat limit) /\
  Db.in_order Db.deployedAt true rows /\
  (limit <> 0%Z -> head rows = Db.getLatestRuleDeployment order_by d) /\
  (within limit (length (Db.rule_deployments d)) ->
   Permutation (Db.rule_deployments d) rows) /\
  (forall row kept, row ∈ Db.rule_deployments d -> row ∉ rows ->
     kept ∈ rows ->
     String.le (Db.deployedAt row) (Db.deployedAt kept)).
Proof.
  intros Hok rows. unfold rows, Db.getRuleDeploymentHistory.
  destruct (Hok _ Db.deployedAt true (Db.rule_deployments d)) as [Hp Ho].
  set (sorted := order_by _ Db.deployedAt true (Db.rule_deployments d)) in *.
  split_and!.
  - intros row Hin%FactStore.sql_limit_elem. by rewrite Hp.
  - apply FactStore.sql_limit_length.
  - by apply FactStore.sql_limit_in_order.
  - intros Hl. by apply FactStore.sql_limit_head.
  - intros Hw. rewrite FactStore.sql_limit_all; [done|]. by rewrite <- Hp.
  - intros row kept Hin Hout Hk. unfold Sqlite.sql_limit in *.
    destruct (limit <? 0)%Z; [by rewrite Hp in Hin|].
    rewrite Hp in Hin. rewrite <- (take_drop (Z.to_nat limit) sorted) in Hin.
    apply elem_of_app in Hin as [Hin|Hin]; [done|].
    apply list_elem_of_lookup_1 in Hin as [j Hj].
    apply list_elem_of_lookup_1 in Hk as [i Hi].
    rewrite lookup_drop in Hj.
    apply lookup_take_Some in Hi as [Hi Hlt].
    apply (Ho i (Z.to_nat limit + j) kept row); [lia|done..].
Qed.

Lemma deployment_history_is_newest_first_witness :
  length (Db.getRuleDeploymentHistory Db.stable_order_by 1
            Fixtures.same_second) <= 1.
Proof.
  by apply (deployment_history_is_newest_first Db.stable_order_by 1
              Fixtures.same_second History.stable_order_by_ok).
Defined.

(** X15: after a call that reports deployment [i], and if every
    earlier file row belonged to a deployment row, [getRuleFiles i]
    returns one row per rendered template with the hash recorded for it,
    ordered by file name, as many as the call reports; and when the
    template names are distinct, each template's file on disk holds the
    rendered content and its row holds the hash of that content. *)
Theorem deployed_files_can_be_read_back (P : Platform) (env : Env)
    (force backup : bool) (by_ wp : option string) (w w' : World)
    (updated : bool) (i n : N) (who : string) (bp : option string)
    (names : list string) :
  let dir := resolveRulesDir env wp in
  let files := Db.getRuleFiles (order_by P) i (db w') in
  Db.order_by_ok (order_by P) ->
  references_ok (db w) ->
  setupProjectRules P env force backup by_ wp w
    = (w', Ok (Deployed updated i n who bp names)) ->
  Permutation
    (map (fun rf => (Db.filename rf, Db.contentHash rf)) files)
    (map (fun rule => (rule_filename rule,
                       desiredHash P env (rule_filename rule)))
         (newRules P env)) /\
  Db.in_order Db.filename false files /\
  N.of_nat (length files) = n /\
  (NoDup (map rule_filename (newRules P env)) ->
   forall rule, rule ∈ newRules P env ->
     lookup_file (fs w') dir (rule_filename rule)
       = Some (rule_content rule) /\
     exists rf, rf ∈ files /\
                Db.filename rf = rule_filename rule /\
                Db.contentHash rf = generateHash P (rule_content rule)).
Proof.
  intros dir files Hok Href Hs.
  destruct (setup_ok_cases P env force backup by_ wp w w' _ Hs)
    as [Hw [[_ Hd]|[Hd _]]]; [done|].
  fold dir in Hd. set (w1 := after_probe w dir) in *.
  destruct (deploy_ok P env dir _ backup by_ w1 w' _ Hd)
    as (wb & fid & Hframe & Hdir & Hfs & Hdb & _ & Ho & _).
  injection Ho as _ -> -> _ _ _.
  change (db w1) with (db w) in Hdb.
  destruct (db_deployed_shape P env by_
              (backup_of env dir (managedFiles (fs w1) dir) backup) (db w))
    as (_ & Hdep & recs & Hfiles & Hkey).
  cbv zeta in Hdep, Hfiles, Hkey. rewrite <- Hdb in Hdep, Hfiles.
  set (i := Db.next_id (map Db.id (Db.rule_deployments (db w)))) in *.
  destruct (recs_deployment P env i recs _ Hkey) as [Hall Hlen].
  assert (filter (fun rf => Db.deploymentId rf = i) (Db.rule_files (db w'))
          = recs) as Hsel.
  { rewrite Hfiles, filter_app, (filter_all _ recs) by done.
    rewrite filter_none; [done|].
    apply Forall_forall. intros rf Hin Heq.
    destruct (Href rf Hin) as (row & Hrow & Hid).
    assert (Db.id row < i)%N; [|lia].
    apply next_id_above. by apply list_elem_of_fmap_2. }
  destruct (Hok _ Db.filename false recs) as [Hp Ho].
  assert (map (fun rf => (Db.filename rf, Db.contentHash rf)) recs
          = map (fun rule => (rule_filename rule,
                              desiredHash P env (rule_filename rule)))
                (newRules P env)) as Hpairs.
  { apply (f_equal (map (fun k : N * string * string => (k.1.2, k.2))))
      in Hkey.
    rewrite <- !list_fmap_compose in Hkey. exact Hkey. }
  unfold files, Db.getRuleFiles. rewrite Hsel.
  split_and!.
  - rewrite <- Hpairs. by apply Permutation_map, Permutation_sym.
  - done.
  - rewrite <- Hp. by rewrite Hlen.
  - intros Hnd rule Hin. split.
    + rewrite Hfs, lookup_written_into by done.
      by rewrite (written_own _ rule ∅ Hnd Hin).
    + assert ((rule_filename rule, desiredHash P env (rule_filename rule))
              ∈ map (fun rf => (Db.filename rf, Db.contentHash rf)) recs)
        as Hmem.
      { rewrite Hpairs. by apply (list_elem_of_fmap_2
                 (fun rule => (rule_filename rule,
                               desiredHash P env (rule_filename rule)))). }
      apply list_elem_of_fmap in Hmem as (rf & [= Hn Hh] & Hrf).
      exists rf. split_and!; [by rewrite <- Hp|done|].
      rewrite <- Hh. by apply desiredHash_own.
Qed.

Lemma deployed_files_can_be_read_back_witness :
  N.of_nat (length (Db.getRuleFiles Db.stable_order_by 1
                      (db Fixtures.deployed_once))) = 2%N.
Proof.
  refine (proj1 (proj2 (proj2
    (deployed_files_can_be_read_back Fixtures.demo Fixtures.env1 false true
       None None Fixtures.fresh Fixtures.deployed_once false 1 2 "Unknown"
       None ["a.mdc"; "b.mdc"] History.stable_order_by_ok _ _)))).
  - intros rf Hin. by apply elem_of_nil in Hin.
  - vm_compute. reflexivity.
Defined.

Lemma decision_forced (P : Platform) (env : Env) (files : list string)
    (hashes : gmap string string) (latestFiles : list Db.RuleFile) :
  decision P env true files hashes latestFiles = Write.
Proof. unfold decision. by rewrite andb_false_r. Qed.

(** X16: with [forceUpdate] a call that returns has deployed,
    never answers "up to date" and never warns: one deployment row is
    added and (template names being distinct) every template is on disk
    with its rendered content, whatever was there before; and the forced
    call without backup does return when the directory and the template
    files can be written. *)
Theorem forced_update_overrides_drift (P : Platform) (env : Env)
    (backup : bool) (by_ wp : option string) (w : World) :
  let dir := resolveRulesDir env wp in
  (forall w' o,
     setupProjectRules P env true backup by_ wp w = (w', Ok o) ->
     is_deployed o = true /\
     (exists row, Db.rule_deployments (db w')
                  = Db.rule_deployments (db w) ++ [row]) /\
     (NoDup (map rule_filename (newRules P env)) ->
      forall rule, rule ∈ newRules P env ->
        lookup_file (fs w') dir (rule_filename rule)
        = Some (rule_content rule))) /\
  (writable (fs w) dir ->
   Forall (fun rule => (dir, rule_filename rule) ∉ no_write (fs w))
          (newRules P env) ->
   exists w' o,
     setupProjectRules P env true false by_ wp w = (w', Ok o)).
Proof.
  intros dir. split.
  - intros w' o Hs.
    destruct (writable_dec (fs w) dir) as [Hw|Hnw]; cycle 1.
    { destruct (setup_unwritable P env true backup by_ wp w Hnw)
        as (w2 & e & He & _). congruence. }
    rewrite (setup_eq P env true backup by_ wp w Hw) in Hs.
    fold dir in Hs. rewrite decision_forced in Hs.
    apply rethrow_ok in Hs.
    set (w1 := after_probe w dir) in *.
    destruct (deploy_ok P env dir _ backup by_ w1 w' o Hs)
      as (wb & fid & Hframe & Hdir & Hfs & Hdb & _ & -> & _).
    split_and!; [done| |].
    + destruct (db_deployed_shape P env by_
                  (backup_of env dir (managedFiles (fs w1) dir) backup)
                  (db w1)) as (_ & Hdep & _).
      cbv zeta in Hdep. rewrite <- Hdb in Hdep. eauto.
    + intros Hnd rule Hin.
      rewrite Hfs, lookup_written_into by done.
      by rewrite (written_own _ rule ∅ Hnd Hin).
  - intros Hw Hall.
    rewrite (setup_eq P env true false by_ wp w Hw).
    fold dir. rewrite decision_forced.
    destruct (deploy_succeeds_without_backup P env dir
                (managedFiles (fs (after_probe w dir)) dir) false by_
                (after_probe w dir)) as (w' & o & Hd).
    + done.
    + by destruct Hw.
    + done.
    + exists w', o. by apply rethrow_ok.
Qed.

Lemma forced_update_overrides_drift_witness :
  exists w' o,
    setupProjectRules Fixtures.demo Fixtures.env2 true false None None
      Fixtures.edited = (w', Ok o).
Proof.
  apply (forced_update_overrides_drift Fixtures.demo Fixtures.env2 false
           None None Fixtures.edited).
  - split; vm_compute; set_solver.
  - vm_compute. repeat constructor; set_solver.
Defined.

(** X17: when the rules directory cannot be created or written,
    the call throws "Failed to setup project rules: Error: Cannot write to
    rules directory: <dir>. Error: <cause>"; the store and the content of
    every file are as before, and at most the directory was created. *)
Theorem unwritable_directory_is_reported (P : Platform) (env : Env)
    (force backup : bool) (by_ wp : option string) (w : World) :
  let dir := resolveRulesDir env wp in
  let cause := if bool_decide (dir ∈ no_mkdir (fs w))
               then "EACCES: mkdir" else "EACCES: open" in
  ~ writable (fs w) dir ->
  exists w',
    setupProjectRules P env force backup by_ wp w
    = (w', Throw ("Failed to setup project rules: Error: "
                  +:+ "Cannot write to rules directory: " +:+ dir
                  +:+ ". Error: " +:+ cause)) /\
    db w' = db w /\
    (forall d n, lookup_file (fs w') d n = lookup_file (fs w) d n) /\
    (trace w' = trace w \/ trace w' = trace w ++ [EvMkdir dir]).
Proof.
  intros dir cause Hnw.
  unfold setupProjectRules. fold dir.
  unfold rethrow at 1, bind at 1, checkWritable, rethrow at 1, bind at 1.
  unfold mkdir at 1. unfold cause.
  case_bool_decide as Hmk.
  { exists w. split_and!; [done..|by left]. }
  assert ((dir, ".write_test") ∈ no_write (fs w)) as Hnwr.
  { destruct (decide ((dir, ".write_test") ∈ no_write (fs w))); [done|].
    exfalso. apply Hnw. by split. }
  destruct (dirs (fs w) !! dir) as [entries|] eqn:Hd.
  - unfold bind at 1, writeFile at 1. cbn [with_fs fs].
    rewrite bool_decide_eq_true_2 by done.
    eexists. split_and!; [done..| |by right].
    done.
  - unfold bind at 1, writeFile at 1. cbn [with_fs fs set_dirs no_write].
    rewrite bool_decide_eq_true_2 by done.
    eexists. split_and!; [done|done| |by right].
    intros d n. cbn [fs with_fs]. unfold lookup_file. cbn [dirs set_dirs].
    destruct (decide (d = dir)) as [->|Hne].
    + rewrite lookup_insert_eq, Hd. apply lookup_empty.
    + by rewrite lookup_insert_ne.
Qed.

Lemma unwritable_directory_is_reported_witness :
  snd (setupProjectRules Fixtures.demo Fixtures.env1 false true None None
         Samples.read_only)
  = Throw ("Failed to setup project rules: Error: Cannot write to rules "
           +:+ "directory: /home/u/proj/.cursor/rules. "
           +:+ "Error: EACCES: mkdir").
Proof.
  destruct (unwritable_directory_is_reported Fixtures.demo Fixtures.env1
              false true None None Samples.read_only) as (w' & -> & _).
  - intros [Hmk _]. apply Hmk. vm_compute. set_solver.
  - reflexivity.
Defined.

Lemma lookup_written_into_other (f : FileSystem) (dir d n : string)
    (rules : list CursorRule) :
  d <> dir ->
  lookup_file (written_into f dir rules) d n = lookup_file f d n.
Proof.
  intros Hne. unfold written_into, lookup_file. cbn [dirs set_dirs].
  destruct (dirs f !! dir); [|done]. by rewrite lookup_insert_ne.
Qed.

Lemma copy_loop_content (dir todir : string) (names : list string)
    (w w' : World) :
  todir <> dir ->
  for_each (fun n => copyFile dir n todir n) names w = (w', Ok tt) ->
  forall n,
    lookup_file (fs w') todir n
    = if bool_decide (n ∈ names) then lookup_file (fs w) dir n
      else lookup_file (fs w) todir n.
Proof.
  intros Hne. revert w. induction names as [|x names IH]; intros w.
  { intros [= <-] n. by rewrite bool_decide_eq_false_2 by apply not_elem_of_nil. }
  cbn [for_each]. unfold bind at 1.
  destruct (copyFile dir x todir x w) as [w1 [[]|e]] eqn:Hc; [|done].
  intros Hrest n. rewrite (IH w1 Hrest n).
  assert (forall m, lookup_file (fs w1) dir m = lookup_file (fs w) dir m)
    as Hdir.
  { by destruct (copyFile_spec dir x todir w w1 _ Hc)
      as (_ & (_ & _ & _ & ? & _) & _). }
  assert (lookup_file (fs w1) todir n
          = if bool_decide (n = x) then lookup_file (fs w) dir x
            else lookup_file (fs w) todir n) as Hto.
  { revert Hc. unfold copyFile.
    destruct (bool_decide ((dir, x) ∈ no_read (fs w))); [done|].
    destruct (lookup_file (fs w) dir x) as [c|] eqn:Hx; [|done].
    destruct (bool_decide ((todir, x) ∈ no_write (fs w))); [done|].
    destruct (dirs (fs w) !! todir) as [entries|] eqn:Ht; [|done].
    intros [= <-]. unfold lookup_file at 1. cbn [fs with_fs dirs set_dirs].
    rewrite lookup_insert_eq.
    case_bool_decide as Hn.
    - subst n. by rewrite lookup_insert_eq.
    - rewrite lookup_insert_ne by (by intros <-).
      unfold lookup_file. by rewrite Ht. }
  rewrite Hdir, Hto.
  destruct (decide (n = x)) as [->|Hnx].
  - rewrite (bool_decide_eq_true_2 (x ∈ x :: names))
      by apply list_elem_of_here.
    rewrite (bool_decide_eq_true_2 (x = x)) by done.
    destruct (bool_decide (x ∈ names)); reflexivity.
  - rewrite (bool_decide_eq_false_2 (n = x)) by done.
    rewrite (bool_decide_ext (n ∈ x :: names) (n ∈ names)); [done|].
    rewrite elem_of_cons. tauto.
Qed.

Lemma deploy_backup_content (P : Platform) (env : Env) (dir : string)
    (files : list string) (backup : bool) (by_ : option string)
    (w w' : World) (o : Outcome) :
  deploy P env dir files backup by_ w = (w', Ok o) ->
  backup && (0 <? length files) = true ->
  backupPathOf env dir <> dir ->
  forall f, f ∈ files ->
    lookup_file (fs w') (backupPathOf env dir) f = lookup_file (fs w) dir f.
Proof.
  intros Hd Hb Hne f Hf. revert Hd. unfold deploy. unfold bind at 1.
  destruct (mkdir dir w) as [w0 [[]|e]] eqn:Hm; [|done].
  apply (mkdir_spec dir) in Hm as (Hdb0 & Hfr0 & _).
  rewrite Hb. unfold bind at 1, bind at 1.
  destruct (backupFiles env dir files w0) as [wb [b|e]] eqn:Hbk; [|done].
  assert (is_Some (dirs (fs wb) !! dir)
          \/ dirs (fs wb) !! dir = None) as _ by (destruct (_ !! _); eauto).
  assert (lookup_file (fs wb) (backupPathOf env dir) f
          = lookup_file (fs w) dir f) as Hcopy.
  { revert Hbk. unfold backupFiles. fold (backupPathOf env dir).
    unfold bind at 1.
    destruct (mkdir (backupPathOf env dir) w0) as [w1 [[]|e]] eqn:Hm1;
      [|done].
    apply (mkdir_spec dir) in Hm1 as (_ & Hfr1 & _).
    unfold bind at 1.
    destruct (for_each _ files w1) as [w2 [[]|e]] eqn:Hloop; [|done].
    intros [= <- _].
    rewrite (copy_loop_content dir _ files w1 w2 Hne Hloop f).
    rewrite bool_decide_eq_true_2 by done.
    destruct Hfr1 as (_ & _ & _ & -> & _).
    by destruct Hfr0 as (_ & _ & _ & -> & _). }
  cbn [ret]. unfold bind at 1, dbStoreRuleDeployment. cbn [fst snd].
  set (r := Db.storeRuleDeployment _ _ _ _ _ _).
  unfold bind at 1.
  destruct (writeRules P env dir (fst r) (newRules P env) [] _)
    as [w2 [deployedFiles|e]] eqn:Hwr; [|done].
  apply writeRules_spec in Hwr as (k & _ & _ & Hfs2 & _ & _).
  cbn [with_db fs] in Hfs2.
  unfold bind at 1.
  destruct (verifyRules dir deployedFiles w2) as [w3 [[]|e]] eqn:Hv; [|done].
  assert (fs w3 = fs w2) as Hfs3.
  { clear -Hv. revert w2 Hv. unfold verifyRules.
    induction deployedFiles as [|n l IH]; intros w2; cbn [for_each].
    { by intros [= <-]. }
    unfold bind at 1, rethrow at 1, access at 1.
    destruct (lookup_file (fs w2) dir n); [|done].
    intros Hrest. by rewrite (IH _ Hrest). }
  unfold bind at 1, dbStoreFact. cbn [fst snd fs db trace with_db].
  intros [= <- _]. cbn [fs with_db].
  by rewrite Hfs3, Hfs2, lookup_written_into_other.
Qed.

(** X18: when a call reports a backup path, that path is the
    backup directory of the call, there were managed files, and for each
    of them the copy in the backup directory holds what the file held
    before the call (the backup directory being another directory than
    the rules directory). *)
Theorem backup_holds_the_old_content (P : Platform) (env : Env)
    (force backup : bool) (by_ wp : option string) (w w' : World)
    (updated : bool) (i n : N) (who bpath : string)
    (names : list string) :
  let dir := resolveRulesDir env wp in
  backupPathOf env dir <> dir ->
  setupProjectRules P env force backup by_ wp w
    = (w', Ok (Deployed updated i n who (Some bpath) names)) ->
  bpath = backupPathOf env dir /\
  managedFiles (fs w) dir <> [] /\
  forall f, f ∈ managedFiles (fs w) dir ->
    is_Some (lookup_file (fs w) dir f) /\
    lookup_file (fs w') bpath f = lookup_file (fs w) dir f.
Proof.
  intros dir Hne Hs.
  destruct (setup_ok_cases P env force backup by_ wp w w' _ Hs)
    as [Hw [[_ Hd]|[Hd _]]]; [done|].
  fold dir in Hd. set (w1 := after_probe w dir) in *.
  destruct (deploy_ok P env dir _ backup by_ w1 w' _ Hd)
    as (wb & fid & _ & _ & _ & _ & _ & Ho & _).
  injection Ho as Hu Hi Hn Hwho Hbp Hnames.
  unfold backup_of in Hbp.
  change (probed (fs w) dir) with (fs w1) in Hbp.
  destruct (backup && (0 <? length (managedFiles (fs w1) dir))) eqn:Hb;
    [|done].
  injection Hbp as ->.
  apply andb_true_iff in Hb as [-> Hlen].
  assert (managedFiles (fs w) dir <> []) as Hnonempty.
  { by apply managedFiles_probed_nonempty. }
  split_and!; [done..|].
  intros f Hf. split.
  { by apply managedFiles_elem in Hf as [_ ?]. }
  rewrite (deploy_backup_content P env dir _ true by_ w1 w' _ Hd);
    [|by rewrite Hlen|done|by apply managedFiles_probed].
  unfold w1, after_probe. cbn [fs]. rewrite lookup_probed.
  rewrite bool_decide_eq_false_2; [done|].
  intros [_ ->]. by apply managedFiles_elem in Hf as [[=] _].
Qed.

Lemma backup_holds_the_old_content_witness :
  lookup_file
    (fs (fst (setupProjectRules Fixtures.demo Fixtures.env2 true true None
                None Fixtures.edited)))
    "/home/u/proj/.cursor/rules/backups/backup-2024-01-01T10-00-05-250Z"
    "a.mdc"
  = Some "ALPHA".
Proof.
  destruct (backup_holds_the_old_content Fixtures.demo Fixtures.env2 true
              true None None Fixtures.edited
              (fst (setupProjectRules Fixtures.demo Fixtures.env2 true true
                      None None Fixtures.edited))
              true 2 2 "Unknown"
              "/home/u/proj/.cursor/rules/backups/backup-2024-01-01T10-00-05-250Z"
              ["a.mdc"; "b.mdc"]) as (_ & _ & H).
  - intros E. apply (f_equal String.length) in E. vm_compute in E.
    discriminate E.
  - vm_compute. reflexivity.
  - destruct (H "a.mdc") as [_ ->].
    + vm_compute. apply list_elem_of_here.
    + vm_compute. reflexivity.
Defined.
Lemma dashed_char (c : ascii) :
  let c' := if Ascii.eqb c ":" || Ascii.eqb c "." then "-"%char else c in
  Ascii.eqb ":" c' = false /\ Ascii.eqb "." c' = false /\
  Ascii.eqb c' ":" || Ascii.eqb c' "." = false.
Proof.
  intros c'. unfold c'.
  destruct (Ascii.eqb c ":") eqn:E1; [done|].
  destruct (Ascii.eqb c ".") eqn:E2; [done|].
  cbn [orb]. rewrite (Ascii.eqb_sym ":" c), (Ascii.eqb_sym "." c), E1, E2.
  done.
Qed.

(** X19: the timestamp in a backup directory's name, made by
    replacing [:] and [.] with [-], has the length of the original,
    contains neither a colon nor a dot, is left alone by a second
    replacement, and equals the original when that had neither. *)
Theorem backup_names_are_plain (s : string) :
  String.length (dash_colons_dots s) = String.length s /\
  occurs ":" (dash_colons_dots s) = false /\
  occurs "." (dash_colons_dots s) = false /\
  dash_colons_dots (dash_colons_dots s) = dash_colons_dots s /\
  (occurs ":" s = false -> occurs "." s = false -> dash_colons_dots s = s).
Proof.
  induction s as [|c s (IH1 & IH2 & IH3 & IH4 & IH5)]; [done|].
  cbn [dash_colons_dots String.length].
  destruct (dashed_char c) as (H1 & H2 & H3). cbv zeta in H1, H2, H3.
  rewrite !occurs_char, IH1, IH2, IH3, H1, H2.
  cbn [dash_colons_dots]. rewrite IH4, H3.
  split_and!; try done.
  rewrite !orb_false_iff. intros [Ec Hc] [Ed Hd].
  rewrite (Ascii.eqb_sym ":" c) in Ec. rewrite (Ascii.eqb_sym "." c) in Ed.
  rewrite Ec, Ed. cbn [orb]. f_equal. by apply IH5.
Qed.

Lemma backup_names_are_plain_witness :
  dash_colons_dots "2024-01-01T10-00-05-250Z" = "2024-01-01T10-00-05-250Z".
Proof. by apply (backup_names_are_plain "2024-01-01T10-00-05-250Z"). Defined.
End Deployments.

(* ------------------------------------------------------------------ *)
(** ** The tool dispatcher *)

Module Dispatch.
Import JsString Engine Tools Observe Views.

Lemma dispatch_remember (P : Platform) (env : Env) (args : Arguments) :
  dispatch P env "remember_fact" args
  = fun w =>
      if negb (truthy_opt (category args)) || negb (truthy_opt (fact args))
      then (w, inl (Mcp {| code := InvalidParams;
                           message := "Category and fact are required" |}))
      else
        match dbStoreFact env (default "" (category args))
                (default "" (fact args)) (context args)
                (default [] (tags args)) w with
        | (w', Ok factId) => (w', inr (FactStored factId))
        | (w', Throw error) => (w', inl (Other error))
        end.
Proof. reflexivity. Qed.

Lemma dispatch_recall (P : Platform) (env : Env) (args : Arguments)
    (w : World) :
  dispatch P env "recall_facts" args w
  = (w, inr (Facts (Db.getFacts (order_by P) (category args) (tags args)
                      (search args) (limit_or_default (limit args))
                      (db w)))).
Proof. reflexivity. Qed.




(** X20: [remember_fact] with a category or a fact that is
    missing or empty is refused with [InvalidParams] and changes nothing;
    with both present it appends exactly one fact row with the given
    category, text, context and tags (no tags when none are given),
    reports that row's id, and touches neither the history tables nor the
    file system. *)
Theorem remember_fact_needs_category_and_fact (P : Platform) (env : Env)
    (args : Arguments) (w : World) :
  (truthy_opt (category args) && truthy_opt (fact args) = false ->
   callTool P env "remember_fact" args w
   = (w, inl {| code := InvalidParams;
                message := "Category and fact are required" |})) /\
  (forall c f, category args = Some c -> fact args = Some f ->
     truthy c = true -> truthy f = true ->
     let row := stored (current_timestamp env) c f (context args)
                  (default [] (tags args)) (db w) in
     exists w',
       callTool P env "remember_fact" args w
       = (w', inr (FactStored (Db.fact_id row))) /\
       Db.facts (db w') = Db.facts (db w) ++ [row] /\
       Db.rule_deployments (db w') = Db.rule_deployments (db w) /\
       Db.rule_files (db w') = Db.rule_files (db w) /\
       fs w' = fs w).
Proof.
  unfold callTool. rewrite dispatch_remember. split.
  - intros H. apply andb_false_iff in H.
    destruct H as [-> | ->]; [done|]. by rewrite orb_true_r.
  - intros c f -> -> Hc Hf. simpl. rewrite Hc, Hf. simpl.
    eexists. split; [reflexivity|]. done.
Qed.

Lemma remember_fact_needs_category_and_fact_witness :
  callTool Fixtures.demo Fixtures.env1 "remember_fact"
    {| category := Some "decisions"; fact := Some ""; context := None;
       tags := None; search := None; limit := None; force_update := None;
       backup_existing := None; deployed_by := None;
       workspace_path := None |} Fixtures.fresh
  = (Fixtures.fresh,
     inl {| code := InvalidParams;
            message := "Category and fact are required" |}).
Proof.
  by apply (remember_fact_needs_category_and_fact Fixtures.demo
              Fixtures.env1).
Defined.

(** X21: a fact stored by [remember_fact] is returned by a
    following [recall_facts] for its category with the default limit, as
    the only row with the reported id and with the category, text, context
    and tags that were given, as long as the store held fewer than twenty
    facts. *)
Theorem remembered_fact_can_be_recalled (P : Platform) (env : Env)
    (args : Arguments) (w w1 : World) (factId : N) :
  Db.order_by_ok (order_by P) ->
  callTool P env "remember_fact" args w = (w1, inr (FactStored factId)) ->
  length (Db.facts (db w)) < 20 ->
  exists rows row,
    callTool P env "recall_facts"
      {| category := category args; fact := None; context := None;
         tags := None; search := None; limit := None;
         force_update := None; backup_existing := None;
         deployed_by := None; workspace_path := None |} w1
    = (w1, inr (Facts rows)) /\
    row ∈ rows /\
    Db.fact_id row = factId /\
    Some (Db.category row) = category args /\
    Some (Db.fact row) = fact args /\
    Db.context row = context args /\
    Db.tags row = default [] (tags args) /\
    (forall other, other ∈ rows -> Db.fact_id other = factId ->
                   other = row).
Proof.
  intros Hok. unfold callTool at 1. rewrite dispatch_remember.
  destruct (negb (truthy_opt (category args))
            || negb (truthy_opt (fact args))) eqn:Hv; [done|].
  apply orb_false_iff in Hv as [Hc Hf].
  destruct (category args) as [c|] eqn:Ec; [|done].
  destruct (fact args) as [f|] eqn:Ef; [|done].
  simpl. intros [= <- <-] Hlen.
  unfold callTool. rewrite dispatch_recall. cbn [category tags search limit].
  eexists _, (stored (current_timestamp env) c f (context args)
                (default [] (tags args)) (db w)).
  split; [reflexivity|]. cbn [db with_db].
  split_and!; try done.
  - apply (FactStore.stored_row_recalled (order_by P)); [done|].
    right. simpl. lia.
  - intros other Hin Hid.
    by apply (FactStore.stored_id_identifies (order_by P)
                (current_timestamp env) c f (context args)
                (default [] (tags args)) (db w) (Some c) None None 20).
Qed.

Lemma remembered_fact_can_be_recalled_witness :
  exists rows row,
    callTool Fixtures.demo Fixtures.env2 "recall_facts"
      {| category := Some "decisions"; fact := None; context := None;
         tags := None; search := None; limit := None;
         force_update := None; backup_existing := None;
         deployed_by := None; workspace_path := None |}
      (fst (callTool Fixtures.demo Fixtures.env2 "remember_fact"
              {| category := Some "decisions";
                 fact := Some "Ship weekly"; context := None;
                 tags := Some ["process"]; search := None; limit := None;
                 force_update := None; backup_existing := None;
                 deployed_by := None; workspace_path := None |}
              Fixtures.deployed_once))
    = (fst (callTool Fixtures.demo Fixtures.env2 "remember_fact"
              {| category := Some "decisions";
                 fact := Some "Ship weekly"; context := None;
                 tags := Some ["process"]; search := None; limit := None;
                 force_update := None; backup_existing := None;
                 deployed_by := None; workspace_path := None |}
              Fixtures.deployed_once),
       inr (Facts rows)) /\
    row ∈ rows /\ Db.fact_id row = 2%N.
Proof.
  destruct (remembered_fact_can_be_recalled Fixtures.demo Fixtures.env2
              {| category := Some "decisions";
                 fact := Some "Ship weekly"; context := None;
                 tags := Some ["process"]; search := None; limit := None;
                 force_update := None; backup_existing := None;
                 deployed_by := None; workspace_path := None |}
              Fixtures.deployed_once
              (fst (callTool Fixtures.demo Fixtures.env2 "remember_fact"
                      {| category := Some "decisions";
                         fact := Some "Ship weekly"; context := None;
                         tags := Some ["process"]; search := None;
                         limit := None; force_update := None;
                         backup_existing := None; deployed_by := None;
                         workspace_path := None |}
                      Fixtures.deployed_once))
              2 History.stable_order_by_ok)
    as (rows & row & H1 & H2 & H3 & _).
  - vm_compute. reflexivity.
  - vm_compute. lia.
  - exists rows, row. by split_and!.
Defined.







End Dispatch.

(* ------------------------------------------------------------------ *)
(** ** The file watcher *)

Module Changes.
Import JsString PosixPath Engine Watcher Observe Views SqliteFacts.

Section Host.
Variable relative : string -> string.
Variable ignores : string -> bool.
Variable env : Env.

Lemma analyze_spec (change : FileChange) (w : World) :
  let ext := toLowerCase (extname (path change)) in
  let row :=
    stored (current_timestamp env)
      (match type change with
       | added => "new-files"
       | _ => "config-changes"
       end)
      (match type change with
       | added => "New " +:+ ext +:+ " file created: " +:+ path change
       | _ => "Configuration file modified: " +:+ path change
       end)
      (Some ("Detected at " +:+ timestamp change))
      ["auto-detected"; "file-system"; drop_chars 1 ext] (db w) in
  analyzeAndStoreChange env change w
  = (if leaves_fact change
     then with_db w (snd (Db.storeFact (current_timestamp env)
                            (Db.category row) (Db.fact row)
                            (Db.context row) (Db.tags row) (db w)))
            (EvStoreFact (Db.fact_id row) (Db.category row))
     else w, Ok tt).
Proof.
  intros ext row. unfold analyzeAndStoreChange, leaves_fact, swallow.
  fold ext. destruct (bool_decide (ext ∈ significantExtensions)); [|done].
  cbn [negb andb].
  destruct (type change); cbn [orb].
  - done.
  - destruct (isConfigFile (path change)); [|done]. done.
  - destruct (isConfigFile (path change)); [|done]. done.
Qed.

Lemma addChange_spec (filePath : string) (type_ : ChangeType)
    (nowISO : string) (recent : list FileChange) (w : World) :
  let change := {| path := relative filePath; type := type_;
                   timestamp := nowISO |} in
  addChange relative ignores env filePath type_ nowISO recent w
  = if ignores (relative filePath) then (w, Ok recent)
    else (fst (analyzeAndStoreChange env change w),
          Ok (take maxRecentChanges (change :: recent))).
Proof.
  intros change. unfold addChange, shouldIgnoreFile.
  destruct (ignores (relative filePath)); [done|].
  fold change. unfold bind. rewrite analyze_spec. cbn [fst ret].
  f_equal. f_equal.
  destruct (maxRecentChanges <? length (change :: recent)) eqn:E; [done|].
  apply Nat.ltb_ge in E. by rewrite take_ge.
Qed.

Lemma analyze_frame (change : FileChange) (w : World) :
  fs (fst (analyzeAndStoreChange env change w)) = fs w /\
  extends (db w) (db (fst (analyzeAndStoreChange env change w))) /\
  Db.rule_deployments (db (fst (analyzeAndStoreChange env change w)))
  = Db.rule_deployments (db w) /\
  Db.rule_files (db (fst (analyzeAndStoreChange env change w)))
  = Db.rule_files (db w).
Proof.
  rewrite analyze_spec. cbn [fst].
  destruct (leaves_fact change); [|by split_and!].
  cbn [fs db with_db]. split_and!; try done.
  split_and!; try done. simpl. by apply prefix_app_r.
Qed.
End Host.

(** X25: whatever events the watcher is fed, the list of recent
    changes never grows beyond 100 entries once it is within that bound;
    the watcher never fails, never touches the file system or the history
    tables, and only adds facts to the store. *)
Theorem recent_changes_stay_bounded (relative : string -> string)
    (ignores : string -> bool) (env : Env)
    (events : list (string * ChangeType * string))
    (recent : list FileChange) (w : World) :
  length recent <= maxRecentChanges ->
  exists w' recent',
    addChanges relative ignores env events recent w = (w', Ok recent') /\
    length recent' <= maxRecentChanges /\
    fs w' = fs w /\
    extends (db w) (db w') /\
    Db.rule_deployments (db w') = Db.rule_deployments (db w) /\
    Db.rule_files (db w') = Db.rule_files (db w).
Proof.
  revert recent w. induction events as [|[[p t] now] events IH];
    intros recent w Hlen.
  { exists w, recent. split_and!; try done. }
  cbn [addChanges]. unfold bind. rewrite addChange_spec.
  destruct (ignores (relative p)).
  { by apply IH. }
  set (change := {| path := relative p; type := t; timestamp := now |}).
  destruct (analyze_frame env change w) as (Hfs & Hext & Hd & Hr).
  destruct (IH (take maxRecentChanges (change :: recent))
              (fst (analyzeAndStoreChange env change w)))
    as (w' & recent' & -> & Hl & Hfs' & Hext' & Hd' & Hr').
  { rewrite length_take. lia. }
  exists w', recent'. split_and!; try done; try congruence.
  destruct Hext as (? & ? & ?), Hext' as (? & ? & ?).
  split_and!; by etrans.
Qed.

(** X26: a change to an ignored path leaves the list and the
    world as they are; any other change is put in front of the list, of
    which the first 99 entries are kept behind it, so that
    [getRecentChanges] returns it first under any limit that is not
    negative and [getChangesForFile] finds it under its relative path. *)
Theorem newest_change_comes_first (relative : string -> string)
    (ignores : string -> bool) (env : Env) (filePath : string)
    (type_ : ChangeType) (nowISO : string) (recent : list FileChange)
    (w : World) :
  let change := {| path := relative filePath; type := type_;
                   timestamp := nowISO |} in
  (ignores (relative filePath) = true ->
   addChange relative ignores env filePath type_ nowISO recent w
   = (w, Ok recent)) /\
  (ignores (relative filePath) = false ->
   exists w',
     addChange relative ignores env filePath type_ nowISO recent w
     = (w', Ok (change :: take 99 recent)) /\
     (forall limit, (forall n, limit = Some n -> (0 <= n)%Z) ->
        head (getRecentChanges limit (change :: take 99 recent))
        = Some change) /\
     getRecentChanges None (change :: take 99 recent)
     = change :: take 99 recent /\
     change ∈ getChangesForFile (relative filePath)
                (change :: take 99 recent)).
Proof.
  intros change. rewrite addChange_spec. fold change. split.
  - by intros ->.
  - intros ->. eexists. split; [reflexivity|]. split_and!.
    + intros limit Hpos. unfold getRecentChanges, slice0.
      destruct limit as [n|]; [|done].
      specialize (Hpos n eq_refl).
      destruct (n =? 0)%Z eqn:E; [done|]. apply Z.eqb_neq in E.
      destruct (n <? 0)%Z eqn:E'; [apply Z.ltb_lt in E'; lia|].
      destruct (Z.to_nat n) eqn:En; [lia|done].
    + change (getRecentChanges None ?l) with (take 100 l).
      apply take_ge. cbn [length]. rewrite length_take. lia.
    + unfold getChangesForFile. apply list_elem_of_filter.
      split; [done|apply list_elem_of_here].
Qed.

Lemma newest_change_comes_first_witness :
  exists w',
    addChange (fun p => p) (fun p => String.eqb p "debug.log")
      Fixtures.env1 "src/app.ts" added "2024-01-01T10:00:00.000Z" []
      Fixtures.fresh
    = (w', Ok [ {| path := "src/app.ts"; type := added;
                   timestamp := "2024-01-01T10:00:00.000Z" |} ]).
Proof.
  destruct (newest_change_comes_first (fun p => p)
              (fun p => String.eqb p "debug.log") Fixtures.env1
              "src/app.ts" added "2024-01-01T10:00:00.000Z" []
              Fixtures.fresh) as [_ H].
  destruct H as (w' & H & _); [reflexivity|]. by exists w'.
Defined.

Lemma recent_changes_stay_bounded_witness :
  exists w' recent',
    addChanges (fun p => p) (fun p => String.eqb p "debug.log")
      Fixtures.env1
      [ ("src/app.ts", added, "2024-01-01T10:00:00.000Z");
        ("debug.log", changed, "2024-01-01T10:00:01.000Z");
        ("package.json", changed, "2024-01-01T10:00:02.000Z") ]
      [] Fixtures.fresh = (w', Ok recent') /\
    length recent' <= maxRecentChanges.
Proof.
  destruct (recent_changes_stay_bounded (fun p => p)
              (fun p => String.eqb p "debug.log") Fixtures.env1
              [ ("src/app.ts", added, "2024-01-01T10:00:00.000Z");
                ("debug.log", changed, "2024-01-01T10:00:01.000Z");
                ("package.json", changed, "2024-01-01T10:00:02.000Z") ]
              [] Fixtures.fresh) as (w' & recent' & H1 & H2 & _).
  - simpl. unfold maxRecentChanges. lia.
  - by exists w', recent'.
Defined.

(** X27: [analyzeAndStoreChange] never fails and touches
    neither the file system nor the history tables; it stores a fact
    exactly for a path with one of the listed extensions (in any letter
    case) that was added or matches the configuration pattern, namely one
    row of category [new-files] for an added file and [config-changes]
    otherwise, tagged with the extension without its dot; a path whose
    extension is not listed, and a changed or removed path that is no
    configuration file, leave the world as it is. *)
Theorem only_new_or_config_files_leave_a_fact (env : Env)
    (change : FileChange) (w : World) :
  let ext := toLowerCase (extname (path change)) in
  exists w',
    analyzeAndStoreChange env change w = (w', Ok tt) /\
    fs w' = fs w /\
    Db.rule_deployments (db w') = Db.rule_deployments (db w) /\
    Db.rule_files (db w') = Db.rule_files (db w) /\
    (leaves_fact change = false -> w' = w) /\
    (leaves_fact change = true ->
     exists row,
       Db.facts (db w') = Db.facts (db w) ++ [row] /\
       Db.category row
       = (match type change with
          | added => "new-files"
          | _ => "config-changes"
          end) /\
       Db.context row = Some ("Detected at " +:+ timestamp change) /\
       Db.tags row = ["auto-detected"; "file-system"; drop_chars 1 ext]) /\
    (ext ∉ significantExtensions -> w' = w) /\
    (type change <> added -> isConfigFile (path change) = false ->
     w' = w).
Proof.
  intros ext. rewrite analyze_spec. eexists. split; [reflexivity|].
  unfold leaves_fact. fold ext.
  destruct (bool_decide (ext ∈ significantExtensions)) eqn:Hs; cycle 1.
  { cbn [andb]. split_and!; try done. }
  apply bool_decide_eq_true in Hs. cbn [andb].
  destruct (type change) eqn:Ht; cbn [orb].
  - split_and!; try done. intros _. eexists. by split_and!.
  - destruct (isConfigFile (path change)).
    + split_and!; try done. intros _. eexists. by split_and!.
    + by split_and!.
  - destruct (isConfigFile (path change)).
    + split_and!; try done. intros _. eexists. by split_and!.
    + by split_and!.
Qed.

Lemma only_new_or_config_files_leave_a_fact_witness :
  exists w' row,
    analyzeAndStoreChange Fixtures.env1
      {| path := "package.json"; type := changed;
         timestamp := "2024-01-01T10:00:02.000Z" |} Fixtures.fresh
    = (w', Ok tt) /\
    Db.facts (db w') = [row] /\
    Db.category row = "config-changes" /\
    Db.tags row = ["auto-detected"; "file-system"; "json"].
Proof.
  destruct (only_new_or_config_files_leave_a_fact Fixtures.env1
              {| path := "package.json"; type := changed;
                 timestamp := "2024-01-01T10:00:02.000Z" |}
              Fixtures.fresh) as (w' & H1 & _ & _ & _ & _ & H2 & _).
  destruct (H2 eq_refl) as (row & Hf & Hc & _ & Ht).
  by exists w', row.
Defined.

Lemma last_dot_none (s : string) :
  occurs "." s = false -> last_dot s = None.
Proof.
  induction s as [|c s IH]; [done|].
  rewrite occurs_char. intros [Hc Hs]%orb_false_iff.
  cbn [last_dot]. rewrite (IH Hs). by rewrite Ascii.eqb_sym, Hc.
Qed.

Lemma extname_without_dot (p : string) :
  occurs "." (last_segment p) = false
  \/ (exists e, last_segment p = String "." e /\ occurs "." e = false) ->
  extname p = "".
Proof.
  unfold extname. intros [H|(e & -> & H)].
  - by rewrite (last_dot_none _ H).
  - cbn [last_dot]. by rewrite (last_dot_none _ H).
Qed.

(** X28: a path whose last segment has no dot, or whose only dot is
    its first character (as in [.eslintrc]), has no extension, and a
    change to it leaves no fact, whatever the kind of change and whether
    or not the path matches the configuration pattern. *)
Theorem dotfiles_leave_no_fact (env : Env) (change : FileChange)
    (w : World) :
  occurs "." (last_segment (path change)) = false
  \/ (exists e, last_segment (path change) = String "." e
                /\ occurs "." e = false) ->
  analyzeAndStoreChange env change w = (w, Ok tt).
Proof.
  intros H. rewrite analyze_spec. unfold leaves_fact.
  by rewrite (extname_without_dot _ H).
Qed.

Lemma dotfiles_leave_no_fact_witness :
  analyzeAndStoreChange Fixtures.env1
    {| path := "web/.eslintrc"; type := added;
       timestamp := "2024-01-01T10:00:00.000Z" |} Fixtures.fresh
  = (Fixtures.fresh, Ok tt).
Proof.
  apply (dotfiles_leave_no_fact Fixtures.env1
           {| path := "web/.eslintrc"; type := added;
              timestamp := "2024-01-01T10:00:00.000Z" |} Fixtures.fresh).
  right. by exists "eslintrc".
Defined.
End Changes.

(* ------------------------------------------------------------------ *)
(** ** The commit summary *)

Module Commits.
Import JsString Git Views.

Lemma count_author_map (a : string) (m : list (string * nat)) :
  (list_to_map (count_author a m) : gmap string nat)
  = <[a := S (default 0 ((list_to_map m : gmap string nat) !! a))]>
      (list_to_map m).
Proof.
  induction m as [|[k v] m IH]; [done|]. cbn [count_author].
  destruct (String.eqb k a) eqn:E.
  - apply String.eqb_eq in E as ->.
    rewrite !list_to_map_cons, lookup_insert_eq. simpl.
    by rewrite insert_insert_eq.
  - apply String.eqb_neq in E.
    rewrite !list_to_map_cons, IH, lookup_insert_ne by done.
    by apply insert_insert_ne.
Qed.

Lemma count_author_keys (a : string) (m : list (string * nat)) :
  NoDup (map fst m) -> NoDup (map fst (count_author a m)).
Proof.
  intros Hn.
  assert (map fst (count_author a m)
          = if bool_decide (a ∈ map fst m) then map fst m
            else map fst m ++ [a]) as ->.
  { clear Hn. induction m as [|[k v] m IH]; [done|]. cbn [count_author].
    destruct (String.eqb k a) eqn:E.
    - apply String.eqb_eq in E as ->. simpl.
      by rewrite bool_decide_eq_true_2 by apply list_elem_of_here.
    - apply String.eqb_neq in E. simpl. rewrite IH.
      rewrite (bool_decide_ext (a ∈ k :: map fst m) (a ∈ map fst m)).
      + by case_bool_decide.
      + rewrite elem_of_cons. split; [|by right]. by intros [?|?]. }
  case_bool_decide; [done|].
  apply NoDup_app. split_and!; [done| |apply NoDup_singleton].
  by intros x Hx ->%list_elem_of_singleton.
Qed.

Lemma authorCounts_spec (l : list GitCommit) :
  let m := fold_left (fun m c => count_author (author c) m) l [] in
  NoDup (map fst m) /\
  forall k v, (k, v) ∈ m <-> 0 < v /\ v = commits_by k l.
Proof.
  intros m.
  assert (NoDup (map fst m) /\
          forall k, (list_to_map m : gmap string nat) !! k
                    = if decide (commits_by k l = 0) then None
                      else Some (commits_by k l)) as [Hn Hm].
  { unfold m. clear m. induction l as [|c l IH] using rev_ind.
    { split; [constructor|]. intros k. apply lookup_empty. }
    destruct IH as [Hn Hm]. rewrite fold_left_app. simpl. split.
    { by apply count_author_keys. }
    intros k. rewrite count_author_map. unfold commits_by in *.
    rewrite filter_app, length_app. rewrite lookup_insert.
    destruct (decide (author c = k)) as [<-|Hne].
    - rewrite (Recording.filter_all _ [c]) by (by repeat constructor). simpl.
      rewrite Hm. destruct (decide (_ = 0)) as [->|?]; simpl.
      + done.
      + rewrite decide_False by lia. f_equal. lia.
    - rewrite (Recording.filter_none _ [c]) by (by repeat constructor).
      simpl. rewrite Hm, Nat.add_0_r. done. }
  split; [done|]. intros k v.
  rewrite (elem_of_list_to_map (M := gmap string)) by done. rewrite Hm.
  destruct (decide (commits_by k l = 0)) as [E|E].
  - split; [done|]. intros [? ->]. lia.
  - split; [intros [= <-]; split; [lia|done]|]. by intros [_ ->].
Qed.

Lemma insert_author_perm (x : AuthorCount) (l : list AuthorCount) :
  Permutation (x :: l) (insert_author x l).
Proof.
  induction l as [|y l IH]; [done|]. simpl.
  destruct (commits y <=? commits x); [done|].
  rewrite <- IH. apply perm_swap.
Qed.

Lemma sort_by_commits_perm (l : list AuthorCount) :
  Permutation l (sort_by_commits l).
Proof.
  induction l as [|x l IH]; [done|]. simpl.
  rewrite <- insert_author_perm. by constructor.
Qed.

Lemma insert_author_sorted (x : AuthorCount) (l : list AuthorCount) :
  StronglySorted (fun a b => commits b <= commits a) l ->
  StronglySorted (fun a b => commits b <= commits a) (insert_author x l).
Proof.
  induction 1 as [|y l Hs IH Hall]; simpl.
  { by repeat constructor. }
  destruct (commits y <=? commits x) eqn:E.
  - apply Nat.leb_le in E. constructor; [by constructor|].
    constructor; [lia|].
    eapply Forall_impl; [exact Hall|]. simpl. intros z Hz. lia.
  - apply Nat.leb_gt in E. constructor; [done|].
    rewrite <- (insert_author_perm x l). constructor; [lia|done].
Qed.

Lemma sort_by_commits_sorted (l : list AuthorCount) :
  StronglySorted (fun a b => commits b <= commits a) (sort_by_commits l).
Proof.
  induction l as [|x l IH]; simpl; [constructor|].
  by apply insert_author_sorted.
Qed.

Lemma sorted_lookup (l : list AuthorCount) (i j : nat)
    (x y : AuthorCount) :
  StronglySorted (fun a b => commits b <= commits a) l ->
  i < j -> l !! i = Some x -> l !! j = Some y -> commits y <= commits x.
Proof.
  intros Hs. revert i j. induction Hs as [|z l Hs IH Hall];
    intros i j Hij Hi Hj.
  { by rewrite lookup_nil in Hi. }
  destruct j as [|j]; [lia|]. simpl in Hj.
  destruct i as [|i]; simpl in Hi.
  - injection Hi as <-. rewrite Forall_forall in Hall.
    apply (Hall y). by eapply list_elem_of_lookup_2.
  - apply (IH i j); [lia|done..].
Qed.

(** X29: the summary lists at most five authors, each once,
    each with the number of commits of the log that are theirs (at least
    one), in descending order of that number; an author of the log who is
    not listed has no more commits than any listed one, and then five are
    listed. *)
Theorem top_authors_are_the_most_active (parse : string -> option Z)
    (now : Z) (log : list GitCommit) :
  let top := topAuthors (summary parse now log) in
  length top <= 5 /\
  NoDup (map name top) /\
  (forall a, a ∈ top ->
     0 < commits a /\ commits a = commits_by (name a) log) /\
  (forall i j x y, i < j -> top !! i = Some x -> top !! j = Some y ->
                   commits y <= commits x) /\
  (forall c, c ∈ log -> author c ∉ map name top ->
     length top = 5 /\
     forall a, a ∈ top -> commits_by (author c) log <= commits a).
Proof.
  intros top. unfold top, summary. cbn [topAuthors].
  destruct (authorCounts_spec log) as [Hn Hm]. cbv zeta in Hn, Hm.
  set (counts := fold_left (fun m c => count_author (author c) m) log [])
    in *.
  set (entries := map (fun e => {| name := e.1; commits := e.2 |}) counts).
  pose proof (sort_by_commits_perm entries) as Hp.
  pose proof (sort_by_commits_sorted entries) as Hs.
  set (sorted := sort_by_commits entries) in *.
  assert (map name entries = map fst counts) as Hnames.
  { unfold entries. rewrite <- list_fmap_compose. by apply list_fmap_ext. }
  assert (forall a, a ∈ sorted ->
            0 < commits a /\ commits a = commits_by (name a) log) as Hel.
  { intros a. rewrite <- Hp. unfold entries.
    intros ([k v] & -> & Hin)%list_elem_of_fmap. simpl. by apply Hm. }
  assert (forall a, a ∈ take 5 sorted -> a ∈ sorted) as Htake.
  { intros a Ha. apply list_elem_of_lookup in Ha as [i Hi].
    apply lookup_take_Some in Hi as [Hi _].
    by eapply list_elem_of_lookup_2. }
  split_and!.
  - rewrite length_take. lia.
  - assert (NoDup (map name sorted)) as Hnd.
    { rewrite <- Hp, Hnames. done. }
    rewrite <- (take_drop 5 sorted), map_app in Hnd.
    by apply NoDup_app in Hnd as [? _].
  - intros a Ha. by apply Hel, Htake.
  - intros i j x y Hij Hx Hy.
    apply lookup_take_Some in Hx as [Hx _].
    apply lookup_take_Some in Hy as [Hy _].
    by apply (sorted_lookup sorted i j x y Hs).
  - intros c Hc Hout.
    assert (exists e, e ∈ sorted /\ name e = author c
                      /\ commits e = commits_by (author c) log)
      as (e & He & Hname & Hcount).
    { exists {| name := author c; commits := commits_by (author c) log |}.
      split; [|done]. rewrite <- Hp. unfold entries.
      apply (list_elem_of_fmap_2
               (fun e : string * nat => {| name := e.1; commits := e.2 |})
               counts (author c, commits_by (author c) log)).
      apply Hm. split; [|done]. unfold commits_by.
      assert (c ∈ filter (fun c0 => author c0 = author c) log) as Hf.
      { by apply list_elem_of_filter. }
      destruct (filter _ log); [by apply elem_of_nil in Hf|simpl; lia]. }
    rewrite <- (take_drop 5 sorted) in He.
    apply elem_of_app in He as [He|He].
    { exfalso. apply Hout. rewrite <- Hname.
      by apply list_elem_of_fmap_2. }
    apply list_elem_of_lookup in He as [j Hj]. rewrite lookup_drop in Hj.
    assert (5 <= length sorted) as Hlen.
    { apply lookup_lt_Some in Hj. lia. }
    split; [rewrite length_take; lia|].
    intros a Ha. apply list_elem_of_lookup in Ha as [i Hi].
    apply lookup_take_Some in Hi as [Hi Hlt].
    rewrite <- Hcount.
    apply (sorted_lookup sorted i (5 + j) a e Hs); [lia|done..].
Qed.

Lemma top_authors_are_the_most_active_witness :
  length (topAuthors (summary Samples.parse_day (64 * 86400000)
                        Samples.log)) <= 5.
Proof.
  apply (top_authors_are_the_most_active Samples.parse_day
           (64 * 86400000) Samples.log).
Defined.

Lemma filter_length_mono {A : Type} (Q1 Q2 : A -> Prop)
    `{!forall x, Decision (Q1 x)} `{!forall x, Decision (Q2 x)}
    (l : list A) :
  (forall x, Q1 x -> Q2 x) ->
  length (filter Q1 l) <= length (filter Q2 l).
Proof.
  intros Himp. induction l as [|x l IH]; [done|].
  rewrite !filter_cons.
  destruct (decide (Q1 x)) as [H1|H1].
  - rewrite decide_True by (by apply Himp). simpl. lia.
  - destruct (decide (Q2 x)); simpl; lia.
Qed.

(** X30: in the summary the total is the number of commits, the
    commits of the last week are among those of the last month and these
    among all; the active files are exactly the files of the commits, each
    once; the last commit date is that of the first commit of the log, or
    empty; and an empty log gives the all-empty summary. *)
Theorem summary_counts_are_consistent (parse : string -> option Z)
    (now : Z) (log : list GitCommit) :
  let s := summary parse now log in
  totalCommits s = length log /\
  commitsLastWeek (recentActivity s)
    <= commitsLastMonth (recentActivity s) /\
  commitsLastMonth (recentActivity s) <= totalCommits s /\
  NoDup (activeFiles s) /\
  (forall f, f ∈ activeFiles s <-> exists c, c ∈ log /\ f ∈ files c) /\
  lastCommit (recentActivity s) = default "" (date <$> head log) /\
  (log = [] ->
   s = {| totalCommits := 0; activeFiles := []; topAuthors := [];
          recentActivity := {| lastCommit := ""; commitsLastWeek := 0;
                               commitsLastMonth := 0 |} |}).
Proof.
  intros s. unfold s, summary.
  cbn [totalCommits recentActivity commitsLastWeek commitsLastMonth
       activeFiles lastCommit].
  destruct (FactStore.add_rows_spec files log [] NoDup_nil_2) as [Hn Hel].
  cbv zeta in Hn, Hel.
  split_and!; try done.
  - apply filter_length_mono. intros c. unfold later_than.
    destruct (parse (date c)) as [t|]; [|done].
    intros H%Z.ltb_lt. apply Z.ltb_lt. lia.
  - apply length_filter.
  - intros f. rewrite Hel. split.
    + intros [H|H]; [by apply elem_of_nil in H|done].
    + by right.
  - destruct log as [|c log']; [done|]. simpl.
    by destruct (date c).
  - by intros ->.
Qed.

Lemma summary_counts_are_consistent_witness :
  commitsLastWeek
    (recentActivity (summary Samples.parse_day (64 * 86400000)
                       Samples.log))
  <= commitsLastMonth
       (recentActivity (summary Samples.parse_day (64 * 86400000)
                          Samples.log)).
Proof.
  apply (summary_counts_are_consistent Samples.parse_day (64 * 86400000)
           Samples.log).
Defined.
End Commits.
